(** * pre_funnel: the lead-discovery orchestration layer

    A shallow embedding of the orchestration code of the repository
    (agents/validate_rank.py, the four scout wrappers under agents/,
    user_auth.py and the lead_discovery route of app.py), followed by
    the properties of the specification that were checked against it.

    Conventions of the embedding:
    - a Python dict with string keys is a [gmap string pyval];
    - a Python set is a [gset];
    - a function that may raise returns a [result];
    - code that reads or writes the SQLite database runs in the monad
      [M], which threads a [world] (tables, clocks and a call trace);
    - network calls, which the code reaches through [requests], are taken
      as parameters gathered in the record [network];
    - the functions of user_auth.py and the scout wrappers are first
      given for a user id that is absent or a text and for a database
      that works; the modules [untyped_auth], [untyped_linkedin],
      [untyped_x] and [untyped_shared] give them again for any value of
      the user id and a database that may fail;
    - a text is a string of ASCII characters, on which [lower], [strip]
      and [String.length] are [str.lower], [str.strip] and [len]; the
      properties that depend on them are stated for such texts. *)

From Stdlib Require Import ZArith QArith Qcanon String Ascii List Permutation Sorted.
From stdpp Require Import base gmap strings list numbers countable sorting.

#[local] Open Scope string_scope.
#[local] Open Scope Z_scope.
#[local] Open Scope list_scope.

(** ** Python values *)

(** The values stored in the profile and token dictionaries.  Python's
    [bool] is a subtype of [int] ([False == 0], same hash): the booleans
    of the source are embedded as the numbers 0 and 1.  Numbers are exact
    rationals. *)
Inductive pyval :=
| VNone
| VStr (s : string)
| VNum (q : Qc)
| VList (l : list string).

#[global] Instance pyval_eq_dec : EqDecision pyval.
Proof. solve_decision. Defined.

Definition pyval_encode (v : pyval) : unit + string + Qc + list string :=
  match v with
  | VNone => inl (inl (inl tt))
  | VStr s => inl (inl (inr s))
  | VNum q => inl (inr q)
  | VList l => inr l
  end.

Definition pyval_decode (x : unit + string + Qc + list string) : pyval :=
  match x with
  | inl (inl (inl _)) => VNone
  | inl (inl (inr s)) => VStr s
  | inl (inr q) => VNum q
  | inr l => VList l
  end.

#[global] Instance pyval_countable : Countable pyval.
Proof.
  apply (inj_countable' pyval_encode pyval_decode).
  intros []; reflexivity.
Defined.

(** [hash(v)] succeeds on everything but lists. *)
Definition hashable (v : pyval) : bool :=
  match v with VList _ => false | _ => true end.

(** [bool(v)] *)
Definition truthy (v : pyval) : bool :=
  match v with
  | VNone => false
  | VStr s => negb (String.eqb s "")
  | VNum q => negb (bool_decide (q = Q2Qc 0))
  | VList l => negb (bool_decide (l = []))
  end.

Definition str_truthy (s : string) : bool := negb (String.eqb s "").

Definition opt_truthy (o : option string) : bool :=
  match o with Some s => str_truthy s | None => false end.

Abbreviation pydict := (gmap string pyval).
Abbreviation profile := (gmap string pyval).

(** ** Exceptions *)

Inductive exn :=
| ImportError
| KeyError (key : string)
| TypeError
| AttributeError
| OtherError (msg : string).

#[global] Instance exn_eq_dec : EqDecision exn.
Proof. solve_decision. Defined.

Inductive result (A : Type) :=
| Ok (a : A)
| Raise (e : exn).
Arguments Ok {A} a.
Arguments Raise {A} e.

Definition rbind {A B} (r : result A) (k : A → result B) : result B :=
  match r with Ok a => k a | Raise e => Raise e end.

#[global] Instance result_eq_dec {A} `{EqDecision A} : EqDecision (result A).
Proof. solve_decision. Defined.

Definition is_ok {A} (r : result A) : Prop :=
  match r with Ok _ => True | Raise _ => False end.

(** ** agents/validate_rank.py *)

Definition frac (n d : Z) : Qc := Q2Qc (Qmake n (Z.to_pos d)).

(** The placeholder score [1.0]. *)
Definition placeholder_score : pyval := VNum (frac 1 1).

Definition set_score (p : profile) : profile := <["score" := placeholder_score]> p.

(** The [for p in profiles] loop, with its two accumulators. *)
Fixpoint dedup_loop (profiles : list profile) (seen : gset pyval)
    (unique : list profile) : result (list profile) :=
  match profiles with
  | [] => Ok unique
  | p :: rest =>
      match p !! "name" with
      | None => Raise (KeyError "name")
      | Some name =>
          if hashable name then
            if decide (name ∈ seen) then dedup_loop rest seen unique
            else dedup_loop rest ({[name]} ∪ seen) (unique ++ [set_score p])
          else Raise TypeError
      end
  end.

(** [key=lambda x: x['score']]; the keys being compared are numbers. *)
Definition score_key (x : profile) : result Qc :=
  match x !! "score" with
  | None => Raise (KeyError "score")
  | Some (VNum q) => Ok q
  | Some _ => Raise TypeError
  end.

Fixpoint decorate (l : list profile) : result (list (Qc * profile)) :=
  match l with
  | [] => Ok []
  | x :: l' =>
      rbind (score_key x) (λ k,
      rbind (decorate l') (λ kl, Ok ((k, x) :: kl)))
  end.

(** [sorted(..., reverse=True)] keeps the elements with equal keys in
    their original order.  An element is placed in front of the first
    element whose key is not greater than its own. *)
Fixpoint insert_desc {A} (kx : Qc * A) (l : list (Qc * A)) : list (Qc * A) :=
  match l with
  | [] => [kx]
  | ky :: l' =>
      if decide (kx.1 < ky.1)%Qc then ky :: insert_desc kx l'
      else kx :: ky :: l'
  end.

Fixpoint sort_desc {A} (l : list (Qc * A)) : list (Qc * A) :=
  match l with
  | [] => []
  | kx :: l' => insert_desc kx (sort_desc l')
  end.

Definition sorted_by_score (l : list profile) : result (list profile) :=
  rbind (decorate l) (λ kl, Ok ((sort_desc kl).*2)).

Definition validate_and_rank (profiles : list profile) (goal company_info : string)
    : result (list profile) :=
  rbind (dedup_loop profiles ∅ []) sorted_by_score.

(** The dictionaries that [validate_and_rank] keeps: a record is kept
    when no record before it in the input carries the same ['name']. *)
Definition names (l : list profile) : list (option pyval) := (λ q : profile, q !! "name") <$> l.

Fixpoint firsts_from (before rest : list profile) : list profile :=
  match rest with
  | [] => []
  | p :: rest' =>
      if decide (p !! "name" ∈ names before) then firsts_from (before ++ [p]) rest'
      else p :: firsts_from (before ++ [p]) rest'
  end.

Definition first_occurrences (l : list profile) : list profile := firsts_from [] l.

Definition has_name (p : profile) : Prop := is_Some (p !! "name").

Definition has_hashable_name (p : profile) : Prop :=
  ∃ v, p !! "name" = Some v ∧ hashable v = true.

Definition key_ge {A} (a b : Qc * A) : Prop := (b.1 ≤ a.1)%Qc.

(** The relation in which [sorted_by_score] leaves its output: the score
    of the later element is not greater than that of the earlier one. *)
Definition score_ge (a b : profile) : Prop :=
  ∃ ka kb, score_key a = Ok ka ∧ score_key b = Ok kb ∧ (kb ≤ ka)%Qc.

Definition scores (l : list profile) : list (option pyval) := (λ q : profile, q !! "score") <$> l.

(** ** The database and the monad of effects *)

(** A row of [social_tokens].  [expires_at] and the clocks count seconds;
    the columns filled from the token payload hold the value it carried
    ([VNone] is SQL NULL).  SQLite would keep a number put in these TEXT
    columns as its text, and [datetime] would refuse an expiry outside
    its range: the properties that read a row back are stated for tokens
    that are texts or absent, and none says that a payload with an
    [expires_in] is accepted. *)
Record token_row := {
  tok_id : Z;
  tok_user_id : string;
  tok_platform : string;
  tok_access_token : pyval;
  tok_refresh_token : pyval;
  tok_expires_at : option Qc;
  tok_token_data : pydict;
  tok_created_at : Z
}.

(** A row of [api_usage]; [use_date] is a day number. *)
Record usage_row := {
  use_id : Z;
  use_user_id : option string;
  use_platform : string;
  use_endpoint : string;
  use_usage_count : Z;
  use_date : Z
}.

Record user_row := {
  usr_user_id : string;
  usr_email : string;
  usr_created_at : Z
}.

Inductive tier := AuthenticatedUser | SharedService | OfflineFallback.

(** What the trace records: every entry into [refresh_token], and every
    tier a scout wrapper invokes. *)
Inductive event :=
| EvRefresh (user_id platform : string)
| EvTier (source : string) (t : tier) (query : string).

#[global] Instance tier_eq_dec : EqDecision tier.
Proof. solve_decision. Defined.
#[global] Instance event_eq_dec : EqDecision event.
Proof. solve_decision. Defined.

(** The state the code runs against: the three tables of prefunnel.db,
    [datetime.now()] ([local_now]), SQLite's CURRENT_TIMESTAMP
    ([utc_now], whose day is [date('now')]), the number of identifiers
    [uuid.uuid4()] has handed out, and the trace. *)
Record world := {
  users : list user_row;
  social_tokens : list token_row;
  api_usage : list usage_row;
  local_now : Qc;
  utc_now : Z;
  uuid_count : nat;
  trace : list event
}.

Definition with_users (us : list user_row) (w : world) : world :=
  {| users := us; social_tokens := social_tokens w; api_usage := api_usage w;
     local_now := local_now w; utc_now := utc_now w;
     uuid_count := uuid_count w; trace := trace w |}.

Definition with_social_tokens (ts : list token_row) (w : world) : world :=
  {| users := users w; social_tokens := ts; api_usage := api_usage w;
     local_now := local_now w; utc_now := utc_now w;
     uuid_count := uuid_count w; trace := trace w |}.

Definition with_api_usage (us : list usage_row) (w : world) : world :=
  {| users := users w; social_tokens := social_tokens w; api_usage := us;
     local_now := local_now w; utc_now := utc_now w;
     uuid_count := uuid_count w; trace := trace w |}.

Definition with_uuid_count (n : nat) (w : world) : world :=
  {| users := users w; social_tokens := social_tokens w; api_usage := api_usage w;
     local_now := local_now w; utc_now := utc_now w;
     uuid_count := n; trace := trace w |}.

Definition with_trace (t : list event) (w : world) : world :=
  {| users := users w; social_tokens := social_tokens w; api_usage := api_usage w;
     local_now := local_now w; utc_now := utc_now w;
     uuid_count := uuid_count w; trace := t |}.

(** Time passing between two calls. *)
Definition advance (dt : Qc) (ds : Z) (w : world) : world :=
  {| users := users w; social_tokens := social_tokens w; api_usage := api_usage w;
     local_now := (local_now w + dt)%Qc; utc_now := utc_now w + ds;
     uuid_count := uuid_count w; trace := trace w |}.

Definition M (A : Type) : Type := world → result A * world.

Definition ret {A} (a : A) : M A := λ w, (Ok a, w).
Definition raise {A} (e : exn) : M A := λ w, (Raise e, w).
Definition bind {A B} (m : M A) (k : A → M B) : M B :=
  λ w, match m w with
       | (Ok a, w') => k a w'
       | (Raise e, w') => (Raise e, w')
       end.
Definition lift {A} (r : result A) : M A := λ w, (r, w).
Definition log (e : event) : M unit := λ w, (Ok tt, with_trace (trace w ++ [e]) w).

Notation "x <~ m ; k" := (bind m (λ x, k))
  (at level 20, m at level 100, k at level 200, only parsing).

(** [try: m  except ImportError: pass], then the code after the block. *)
Definition except_ImportError {A} (m : M A) (after : M A) : M A :=
  λ w, match m w with
       | (Raise ImportError, w') => after w'
       | r => r
       end.

(** [try: m  except Exception as e: h e] *)
Definition except_Exception {A} (m : M A) (h : exn → M A) : M A :=
  λ w, match m w with
       | (Raise e, w') => h e w'
       | r => r
       end.

Definition try_Exception {A} (r : result A) (h : exn → result A) : result A :=
  match r with Ok a => Ok a | Raise e => h e end.

(** ** user_auth.py *)

(** The dictionary [get_user_token] returns: it always has the same four
    keys, so it is a record. *)
Record user_token := {
  access_token : pyval;
  refresh_token_of : pyval;
  expires_at : option Qc;
  token_data : pydict
}.

Definition today (w : world) : Z := utc_now w `div` 86400.

Definition next_id (ids : list Z) : Z := 1 + foldr Z.max 0 ids.

(** A value sqlite3 can bind to a statement parameter. *)
Definition bindable (v : pyval) : bool :=
  match v with VList _ => false | _ => true end.

(** [INSERT OR REPLACE]: the rows that collide with the new row on a
    uniqueness constraint are deleted first.  The only such constraint of
    [social_tokens] is the primary key [id]. *)
Definition insert_or_replace_token (r : token_row) (rows : list token_row) : list token_row :=
  filter (λ r', tok_id r' ≠ tok_id r) rows ++ [r].

Definition store_social_token (user_id platform : string) (token_data : pydict) : M unit :=
  λ w,
  let expiry : result (option Qc) :=
    match token_data !! "expires_in" with
    | None => Ok None
    | Some (VNum secs) => Ok (Some (local_now w + secs)%Qc)
    | Some _ => Raise TypeError
    end in
  match expiry with
  | Raise e => (Raise e, w)
  | Ok expires_at =>
      let access := default VNone (token_data !! "access_token") in
      let refresh := default VNone (token_data !! "refresh_token") in
      if bindable access && bindable refresh then
        let row := {| tok_id := next_id (tok_id <$> social_tokens w);
                      tok_user_id := user_id; tok_platform := platform;
                      tok_access_token := access; tok_refresh_token := refresh;
                      tok_expires_at := expires_at; tok_token_data := token_data;
                      tok_created_at := utc_now w |} in
        (Ok tt, with_social_tokens (insert_or_replace_token row (social_tokens w)) w)
      else (Raise (OtherError "sqlite3.InterfaceError"), w)
  end.

Definition token_matches (user_id platform : string) (r : token_row) : bool :=
  bool_decide (tok_user_id r = user_id) && bool_decide (tok_platform r = platform).

(** [WHERE user_id = ? AND platform = ? ORDER BY created_at DESC LIMIT 1]:
    the matching row with the greatest [created_at]; among rows created
    in the same second the one met first in table order is taken (SQL
    leaves that choice open). *)
Definition select_latest_token (user_id platform : string) (rows : list token_row)
    : option token_row :=
  foldl (λ best r,
           if token_matches user_id platform r then
             match best with
             | None => Some r
             | Some b => if decide (tok_created_at b < tok_created_at r) then Some r else Some b
             end
           else best) None rows.

Definition _refresh_twitter_token (user_id : string) (refresh_token : pyval)
    : M (option user_token) := ret None.

Definition _refresh_linkedin_token (user_id : string) (refresh_token : pyval)
    : M (option user_token) := ret None.

Definition refresh_token (user_id platform : string) (refresh_token : pyval)
    : M (option user_token) :=
  _ <~ log (EvRefresh user_id platform);
  if String.eqb platform "twitter" then _refresh_twitter_token user_id refresh_token
  else if String.eqb platform "linkedin" then _refresh_linkedin_token user_id refresh_token
  else ret None.

Definition is_expired (w : world) (r : token_row) : bool :=
  match tok_expires_at r with
  | Some t => bool_decide (t < local_now w)%Qc
  | None => false
  end.

Definition get_user_token (user_id platform : string) : M (option user_token) :=
  λ w,
  match select_latest_token user_id platform (social_tokens w) with
  | None => (Ok None, w)
  | Some row =>
      if is_expired w row then
        (refreshed <~ refresh_token user_id platform (tok_refresh_token row);
         match refreshed with
         | Some t => ret (Some t)
         | None => ret None
         end) w
      else
        (Ok (Some {| access_token := tok_access_token row;
                     refresh_token_of := tok_refresh_token row;
                     expires_at := tok_expires_at row;
                     token_data := tok_token_data row |}), w)
  end.

(** SQL equality: NULL is equal to nothing. *)
Definition sql_eq (a b : option string) : bool :=
  match a, b with
  | Some x, Some y => String.eqb x y
  | _, _ => false
  end.

Definition usage_matches (user_id : option string) (platform endpoint : string)
    (day : Z) (r : usage_row) : bool :=
  sql_eq (use_user_id r) user_id && String.eqb (use_platform r) platform
  && String.eqb (use_endpoint r) endpoint && (use_date r =? day).

Definition increment (r : usage_row) : usage_row :=
  {| use_id := use_id r; use_user_id := use_user_id r; use_platform := use_platform r;
     use_endpoint := use_endpoint r; use_usage_count := use_usage_count r + 1;
     use_date := use_date r |}.

(** [INSERT OR IGNORE] gives up only on a uniqueness conflict, and the
    only unique column of [api_usage] is the fresh [id]: the row is
    always inserted.  The [UPDATE] then touches every row of the key. *)
Definition track_api_usage (user_id : option string) (platform endpoint : string) : M unit :=
  λ w,
  let row := {| use_id := next_id (use_id <$> api_usage w);
                use_user_id := user_id; use_platform := platform;
                use_endpoint := endpoint; use_usage_count := 1;
                use_date := today w |} in
  let inserted := api_usage w ++ [row] in
  let updated :=
    (λ r, if usage_matches user_id platform endpoint (today w) r then increment r else r)
      <$> inserted in
  (Ok tt, with_api_usage updated w).

(** [SUM(usage_count) ... GROUP BY endpoint], one row at a time. *)
Definition group_sum (m : gmap string Z) (r : usage_row) : gmap string Z :=
  <[use_endpoint r := default 0 (m !! use_endpoint r) + use_usage_count r]> m.

(** [SELECT endpoint, SUM(usage_count) ... GROUP BY endpoint] over the
    rows dated [date('now', '-days days')] or later. *)
Definition get_user_usage (user_id platform : string) (days : nat) : M (gmap string Z) :=
  λ w,
  let rows :=
    filter (λ r, sql_eq (use_user_id r) (Some user_id) = true
                 ∧ use_platform r = platform
                 ∧ today w - Z.of_nat days ≤ use_date r) (api_usage w) in
  (Ok (foldl group_sum ∅ rows), w).

Definition uuid_taken (user_id : string) (us : list user_row) : bool :=
  existsb (λ r, String.eqb (usr_user_id r) user_id) us.

Definition find_user_by_email (email : string) (us : list user_row) : option string :=
  usr_user_id <$> List.find (λ r, String.eqb (usr_email r) email) us.

(** [create_user]: [uuid4] is the generator behind [uuid.uuid4()].  The
    INSERT violates a constraint when the identifier or the e-mail
    address is already present; the handler then looks the address up. *)
Definition create_user (uuid4 : nat → string) (email : string) : M (option string) :=
  λ w,
  let user_id := uuid4 (uuid_count w) in
  let w1 := with_uuid_count (S (uuid_count w)) w in
  if uuid_taken user_id (users w) || bool_decide (is_Some (find_user_by_email email (users w)))
  then (Ok (find_user_by_email email (users w)), w1)
  else (Ok (Some user_id),
        with_users (users w ++ [{| usr_user_id := user_id; usr_email := email;
                                   usr_created_at := utc_now w |}]) w1).

(** ** config.py *)

(** The keys come from the process environment. *)
Record config := {
  PHANTOMBUSTER_API_KEY : string;
  TWITTER_BEARER_TOKEN : string;
  GOOGLE_CSE_API_KEY : string;
  GOOGLE_CSE_ID : string;
  PEOPLE_DATA_LABS_API_KEY : string
}.

Definition API_STRATEGY : gmap string string :=
  list_to_map [("email_scout", "shared"); ("x_scout", "hybrid");
               ("internet_scout", "shared"); ("linkedin_scout", "hybrid")].

Definition strategy_is (scout kind : string) : bool :=
  bool_decide (API_STRATEGY !! scout = Some kind).

(** ** The tier implementations *)

(** Whether the [from .module import ...] of each tier succeeds. *)
Record installed := {
  imports_linkedin_scout_enhanced : bool;
  imports_linkedin_scout_real : bool;
  imports_x_scout_enhanced : bool;
  imports_x_scout_real : bool;
  imports_email_scout_real : bool;
  imports_internet_scout_real : bool
}.

Definition import (ok : bool) : M unit :=
  if ok then ret tt else raise ImportError.

(** The requests the tiers send, and the provider-specific conversion of
    the answers.  A field of type [result] may raise; the two searches
    of the enhanced modules swallow every exception themselves and give
    back what they had collected. *)
Record network := {
  launch_linkedin_search_phantom : string → result (option string);
  wait_for_phantom_results : string → result (option (list pydict));
  convert_linkedin_results : list pydict → string → result (list profile);
  search_users : string → string → result (list profile);
  search_tweets_for_users : string → string → result (list profile);
  person_enrich : string → result (list profile);
  search_companies : string → result (list profile);
  search_profiles : string → result (list profile);
  deduplicate_by_domain : list profile → result (list profile);
  linkedin_people_search : string → pyval → list profile;
  twitter_people_search : string → pyval → list profile;
  twitter_shared_search : string → list profile
}.

Definition mkdict (l : list (string * pyval)) : pydict := list_to_map l.

Definition int (n : Z) : pyval := VNum (frac n 1).

Definition lower_ascii (c : ascii) : ascii :=
  let n := nat_of_ascii c in
  if ((65 <=? n) && (n <=? 90))%nat then ascii_of_nat (n + 32) else c.

(** [str.lower] on ASCII text. *)
Fixpoint lower (s : string) : string :=
  match s with
  | EmptyString => EmptyString
  | String c s' => String (lower_ascii c) (lower s')
  end.

Definition nonempty {A} (l : list A) : bool :=
  match l with [] => false | _ => true end.

Definition tagged (tag : string) (profiles : list profile) : bool :=
  existsb (λ p : profile, bool_decide (p !! "source" = Some (VStr tag))) profiles.

Module linkedin_scout_real.
Section code.
Variables (cfg : config) (net : network).

Definition _fallback_linkedin_scout (query : string) : list profile :=
  [mkdict [("name", VStr "LinkedIn Professional"); ("email", VNone);
           ("title", VStr "Senior Executive"); ("company", VStr "Tech Startup");
           ("linkedin", VStr "https://linkedin.com/in/professional");
           ("x_handle", VNone); ("public_links", VList []);
           ("source", VStr "fallback");
           ("location", VStr "San Francisco Bay Area"); ("connections", int 500)]].

Definition linkedin_scout (query : string) : result (list profile) :=
  if negb (str_truthy (PHANTOMBUSTER_API_KEY cfg)) then Ok (_fallback_linkedin_scout query)
  else
    try_Exception
      (rbind (launch_linkedin_search_phantom net query) (λ phantom_id,
       match phantom_id with
       | None => Ok (_fallback_linkedin_scout query)
       | Some id =>
           if negb (str_truthy id) then Ok (_fallback_linkedin_scout query)
           else
             rbind (wait_for_phantom_results net id) (λ results,
             match results with
             | None | Some [] => Ok []
             | Some rows =>
                 rbind (convert_linkedin_results net rows query) (λ profiles,
                 Ok (take 5 profiles))
             end)
       end))
      (λ _, Ok (_fallback_linkedin_scout query)).
End code.
End linkedin_scout_real.

Module x_scout_real.
Section code.
Variables (cfg : config) (net : network).

Definition _fallback_x_scout (query : string) : list profile :=
  [mkdict [("name", VStr "Twitter User"); ("email", VNone);
           ("title", VStr "Professional"); ("company", VStr "Tech Company");
           ("linkedin", VNone); ("x_handle", VStr "@techpro");
           ("public_links", VList []); ("source", VStr "fallback");
           ("followers", int 1000); ("verified", int 0)]].

(** The loop of [_deduplicate_profiles]; [.lower()] fails on a handle
    that is not a string. *)
Fixpoint _deduplicate_profiles_loop (profiles : list profile) (seen_usernames : gset string)
    (unique_profiles : list profile) : result (list profile) :=
  match profiles with
  | [] => Ok unique_profiles
  | p :: rest =>
      match default (VStr "") (p !! "x_handle") with
      | VStr h =>
          let username := lower h in
          if str_truthy username && negb (bool_decide (username ∈ seen_usernames)) then
            _deduplicate_profiles_loop rest ({[username]} ∪ seen_usernames)
              (unique_profiles ++ [p])
          else _deduplicate_profiles_loop rest seen_usernames unique_profiles
      | _ => Raise AttributeError
      end
  end.

Definition _deduplicate_profiles (profiles : list profile) : result (list profile) :=
  _deduplicate_profiles_loop profiles ∅ [].

Definition x_scout (query : string) : result (list profile) :=
  if negb (str_truthy (TWITTER_BEARER_TOKEN cfg)) then Ok (_fallback_x_scout query)
  else
    try_Exception
      (rbind (search_users net query (TWITTER_BEARER_TOKEN cfg)) (λ user_profiles,
       rbind (search_tweets_for_users net query (TWITTER_BEARER_TOKEN cfg)) (λ tweet_profiles,
       rbind (_deduplicate_profiles (user_profiles ++ tweet_profiles)) (λ unique_profiles,
       Ok (take 5 unique_profiles)))))
      (λ _, Ok (_fallback_x_scout query)).
End code.
End x_scout_real.

Module email_scout_real.
Section code.
Variables (cfg : config) (net : network).

Definition _fallback_email_scout (email : string) : list profile :=
  [mkdict [("name", VStr "Unknown User"); ("email", VStr email);
           ("title", VStr "Professional"); ("company", VStr "Unknown Company");
           ("linkedin", VNone); ("x_handle", VNone); ("public_links", VList []);
           ("source", VStr "fallback"); ("confidence", int 0)]].

(** [person_enrich] is the retry loop around the enrichment request:
    it gives one profile, none, or raises. *)
Definition scout_from_email (email : string) : result (list profile) :=
  if negb (str_truthy (PEOPLE_DATA_LABS_API_KEY cfg)) then Ok (_fallback_email_scout email)
  else try_Exception (person_enrich net email) (λ _, Ok (_fallback_email_scout email)).
End code.
End email_scout_real.

Module internet_scout_real.
Section code.
Variables (cfg : config) (net : network).

Definition _fallback_internet_scout (query : string) : list profile :=
  [mkdict [("name", VStr "Web Professional"); ("email", VNone);
           ("title", VStr "Industry Expert"); ("company", VStr "Tech Company");
           ("linkedin", VNone); ("x_handle", VNone);
           ("public_links", VList ["https://example.com"]);
           ("source", VStr "fallback"); ("domain", VStr "example.com")]].

Definition internet_scout (query : string) : result (list profile) :=
  if negb (str_truthy (GOOGLE_CSE_API_KEY cfg)) || negb (str_truthy (GOOGLE_CSE_ID cfg))
  then Ok (_fallback_internet_scout query)
  else
    try_Exception
      (rbind (search_companies net query) (λ company_results,
       rbind (search_profiles net query) (λ profile_results,
       rbind (deduplicate_by_domain net (company_results ++ profile_results))
         (λ unique_profiles, Ok (take 5 unique_profiles)))))
      (λ _, Ok (_fallback_internet_scout query)).
End code.
End internet_scout_real.

Module linkedin_scout_enhanced.
Section code.
Variables (cfg : config) (net : network).

(** The usage is tracked under [token_data.get('user_id')], a key the
    token dictionary does not have: the row is filed under NULL. *)
Definition _search_with_user_token (query : string) (token : user_token) : M (list profile) :=
  _ <~ track_api_usage None "linkedin" "profile_search";
  ret (linkedin_people_search net query (access_token token)).

Definition _phantombuster_search (query : string) : list profile := [].

Definition _fallback_linkedin_search (query : string) : list profile :=
  if str_truthy (PHANTOMBUSTER_API_KEY cfg) then _phantombuster_search query
  else
    [mkdict [("name", VStr "LinkedIn Professional"); ("title", VStr "Senior Executive");
             ("company", VStr "Tech Startup");
             ("linkedin", VStr "https://linkedin.com/in/professional");
             ("source", VStr "fallback"); ("confidence", VNum (frac 3 10));
             ("x_handle", VNone); ("email", VNone); ("public_links", VList [])]].

Definition linkedin_scout_enhanced (query : string) (user_id : option string)
    : M (list profile) :=
  found <~ (match user_id with
            | Some u =>
                if str_truthy u then
                  user_token <~ get_user_token u "linkedin";
                  match user_token with
                  | Some token =>
                      profiles <~ _search_with_user_token query token;
                      ret (if nonempty profiles then Some profiles else None)
                  | None => ret None
                  end
                else ret None
            | None => ret None
            end);
  match found with
  | Some profiles => ret profiles
  | None => ret (_fallback_linkedin_search query)
  end.
End code.
End linkedin_scout_enhanced.

Module x_scout_enhanced.
Section code.
Variables (cfg : config) (net : network).

Definition _search_with_user_token (query : string) (token : user_token) : M (list profile) :=
  _ <~ track_api_usage None "twitter" "user_search";
  ret (twitter_people_search net query (access_token token)).

Definition _shared_api_search (query : string) : list profile :=
  twitter_shared_search net query.

Definition _fallback_twitter_search (query : string) : list profile :=
  if str_truthy (TWITTER_BEARER_TOKEN cfg) then _shared_api_search query
  else
    [mkdict [("name", VStr "Twitter User"); ("title", VStr "Professional");
             ("company", VStr "Tech Company"); ("linkedin", VNone);
             ("x_handle", VStr "@twitteruser"); ("source", VStr "fallback");
             ("confidence", VNum (frac 3 10)); ("email", VNone);
             ("public_links", VList ["https://twitter.com/twitteruser"])]].

Definition x_scout_enhanced (query : string) (user_id : option string) : M (list profile) :=
  found <~ (match user_id with
            | Some u =>
                if str_truthy u then
                  user_token <~ get_user_token u "twitter";
                  match user_token with
                  | Some token =>
                      profiles <~ _search_with_user_token query token;
                      ret (if nonempty profiles then Some profiles else None)
                  | None => ret None
                  end
                else ret None
            | None => ret None
            end);
  match found with
  | Some profiles => ret profiles
  | None => ret (_fallback_twitter_search query)
  end.
End code.
End x_scout_enhanced.

(** ** The scout wrappers *)

Module linkedin_scout.
Section code.
Variables (cfg : config) (mods : installed) (net : network).

Definition mock : list profile :=
  [mkdict [("name", VStr "Bob LinkedIn"); ("title", VStr "VP Sales");
           ("company", VStr "VoiceAI Corp");
           ("linkedin", VStr "https://linkedin.com/in/boblinkedin");
           ("x_handle", VNone); ("public_links", VList []);
           ("source", VStr "linkedin_scout_mock")]].

(** Strategy 1; [Some profiles] is the [return profiles] inside it. *)
Definition strategy1 (query : string) (user_id : option string)
    : M (option (list profile)) :=
  match user_id with
  | Some u =>
      if str_truthy u && strategy_is "linkedin_scout" "hybrid" then
        user_token <~ get_user_token u "linkedin";
        match user_token with
        | Some _ =>
            except_ImportError
              (_ <~ import (imports_linkedin_scout_enhanced mods);
               _ <~ track_api_usage (Some u) "linkedin" "search";
               _ <~ log (EvTier "linkedin" AuthenticatedUser query);
               profiles <~ linkedin_scout_enhanced.linkedin_scout_enhanced cfg net query (Some u);
               if nonempty profiles && tagged "linkedin_oauth" profiles
               then ret (Some profiles) else ret None)
              (ret None)
        | None => ret None
        end
      else ret None
  | None => ret None
  end.

(** Strategy 2 returns whatever the shared implementation returns. *)
Definition strategy2 (query : string) : M (option (list profile)) :=
  except_ImportError
    (_ <~ import (imports_linkedin_scout_real mods);
     _ <~ log (EvTier "linkedin" SharedService query);
     profiles <~ lift (linkedin_scout_real.linkedin_scout cfg net query);
     ret (Some profiles))
    (ret None).

Definition linkedin_scout (query : string) (user_id : option string) : M (list profile) :=
  first <~ strategy1 query user_id;
  match first with
  | Some profiles => ret profiles
  | None =>
      second <~ strategy2 query;
      match second with
      | Some profiles => ret profiles
      | None => _ <~ log (EvTier "linkedin" OfflineFallback query); ret mock
      end
  end.
End code.
End linkedin_scout.

Module x_scout.
Section code.
Variables (cfg : config) (mods : installed) (net : network).

Definition mock : list profile :=
  [mkdict [("name", VStr "Alice X"); ("title", VStr "Tech Lead");
           ("company", VStr "ChatVoice"); ("linkedin", VNone);
           ("x_handle", VStr "@alicex"); ("public_links", VList []);
           ("source", VStr "x_scout_mock")]].

Definition strategy1 (query : string) (user_id : option string)
    : M (option (list profile)) :=
  match user_id with
  | Some u =>
      if str_truthy u && strategy_is "x_scout" "hybrid" then
        user_token <~ get_user_token u "twitter";
        match user_token with
        | Some _ =>
            except_ImportError
              (_ <~ import (imports_x_scout_enhanced mods);
               _ <~ track_api_usage (Some u) "twitter" "search";
               _ <~ log (EvTier "x" AuthenticatedUser query);
               profiles <~ x_scout_enhanced.x_scout_enhanced cfg net query (Some u);
               if nonempty profiles && tagged "twitter_oauth" profiles
               then ret (Some profiles) else ret None)
              (ret None)
        | None => ret None
        end
      else ret None
  | None => ret None
  end.

Definition strategy2 (query : string) : M (option (list profile)) :=
  except_ImportError
    (_ <~ import (imports_x_scout_real mods);
     _ <~ log (EvTier "x" SharedService query);
     profiles <~ lift (x_scout_real.x_scout cfg net query);
     ret (Some profiles))
    (ret None).

Definition x_scout (query : string) (user_id : option string) : M (list profile) :=
  first <~ strategy1 query user_id;
  match first with
  | Some profiles => ret profiles
  | None =>
      second <~ strategy2 query;
      match second with
      | Some profiles => ret profiles
      | None => _ <~ log (EvTier "x" OfflineFallback query); ret mock
      end
  end.
End code.
End x_scout.

Module email_scout.
Section code.
Variables (cfg : config) (mods : installed) (net : network).

Definition mock : list profile :=
  [mkdict [("name", VStr "John Doe"); ("title", VStr "Founder");
           ("company", VStr "TechStart");
           ("linkedin", VStr "https://linkedin.com/in/johndoe");
           ("x_handle", VStr "@johndoe"); ("public_links", VList []);
           ("source", VStr "email_scout_mock")]].

Definition shared (email : string) : M (option (list profile)) :=
  if strategy_is "email_scout" "shared" then
    except_ImportError
      (_ <~ import (imports_email_scout_real mods);
       _ <~ log (EvTier "email" SharedService email);
       profiles <~ lift (email_scout_real.scout_from_email cfg net email);
       ret (Some profiles))
      (ret None)
  else ret None.

Definition scout_from_email (email : string) (user_id : option string) : M (list profile) :=
  first <~ shared email;
  match first with
  | Some profiles => ret profiles
  | None => _ <~ log (EvTier "email" OfflineFallback email); ret mock
  end.
End code.
End email_scout.

Module internet_scout.
Section code.
Variables (cfg : config) (mods : installed) (net : network).

Definition mock : list profile :=
  [mkdict [("name", VStr "Charlie Web"); ("title", VStr "CTO");
           ("company", VStr "WebVoice"); ("linkedin", VNone);
           ("x_handle", VStr "@charlieweb");
           ("public_links", VList ["https://webvoice.com/team"]);
           ("source", VStr "internet_scout_mock")]].

Definition shared (query : string) : M (option (list profile)) :=
  if strategy_is "internet_scout" "shared" then
    except_ImportError
      (_ <~ import (imports_internet_scout_real mods);
       _ <~ log (EvTier "internet" SharedService query);
       profiles <~ lift (internet_scout_real.internet_scout cfg net query);
       ret (Some profiles))
      (ret None)
  else ret None.

Definition internet_scout (query : string) (user_id : option string) : M (list profile) :=
  first <~ shared query;
  match first with
  | Some profiles => ret profiles
  | None => _ <~ log (EvTier "internet" OfflineFallback query); ret mock
  end.
End code.
End internet_scout.

(** ** app.py: the lead_discovery route *)

Inductive target_field :=
| TargetAbsent
| TargetInt (n : Z)
| TargetOther.

(** A request whose JSON body is an object.  [req_emails] is [None] when
    the field is missing or is not a list; the text fields are [None]
    when missing.  A body that cannot be parsed, or that is not an
    object, makes [request.get_json()] or [data.get] raise: the route
    answers it from its outermost handler, and it is not a [request] of
    the model. *)
Record request := {
  req_is_json : bool;
  req_emails : option (list string);
  req_company_info : option string;
  req_goal : option string;
  req_user_id : option string;
  req_user_email : option string;
  req_target : target_field
}.

Inductive response :=
| Error400 (error : string)
| Error500 (error details : string)
| NoProfiles (errors : list string) (user_id : option string)
| Discovery (profiles : list profile) (total_found returned : nat)
            (user_id : option string) (warnings : option (list string)).

Definition status_code (r : response) : Z :=
  match r with
  | Error400 _ => 400
  | Error500 _ _ => 500
  | NoProfiles _ _ | Discovery _ _ _ _ _ => 200
  end.

Definition response_profiles (r : response) : list profile :=
  match r with Discovery ps _ _ _ _ => ps | _ => [] end.

(** The value of ['warnings'], for an answer that has this key: the
    answer that reports no profile lists its failures under ['errors']
    and has no ['warnings']. *)
Definition response_warnings (r : response) : option (list string) :=
  match r with
  | Discovery _ _ _ _ warnings => warnings
  | _ => None
  end.

(** The value of ['errors'], for an answer that has this key. *)
Definition response_errors (r : response) : option (list string) :=
  match r with
  | NoProfiles errors _ => Some errors
  | _ => None
  end.

Module app.
Section code.
(** [str] is [str(e)] and [format] the conversion an f-string applies
    to a value.  The collaborators are parameters: the route only
    relies on what they return or raise. *)
Variables (uuid4 : nat → string) (str : exn → string) (format : pyval → string).
Variable interpret_goal : string → string → list string → result (gmap string (list string)).
Variables scout_from_email linkedin_scout x_scout internet_scout
  : string → option string → M (list profile).
Variable generate_message : profile → string → string → result string.

(** One of the four [for ... in ...: try: profiles.extend(scout(...))
    except Exception as e: errors.append(...)] loops. *)
Fixpoint scout_each (scout : string → option string → M (list profile))
    (describe : string → string) (user_id : option string) (queries : list string)
    (acc : list profile * list string) : M (list profile * list string) :=
  match queries with
  | [] => ret acc
  | q :: rest =>
      acc' <~ except_Exception
                (found <~ scout q user_id; ret (acc.1 ++ found, acc.2))
                (λ e, ret (acc.1, acc.2 ++ [describe q +:+ str e]));
      scout_each scout describe user_id rest acc'
  end.

Definition email_failure (email : string) : string :=
  "Email scout failed for " +:+ email +:+ ": ".
Definition linkedin_failure (query : string) : string :=
  "LinkedIn scout failed for query '" +:+ query +:+ "': ".
Definition x_failure (query : string) : string :=
  "X scout failed for query '" +:+ query +:+ "': ".
Definition internet_failure (query : string) : string :=
  "Internet scout failed for query '" +:+ query +:+ "': ".

Definition scouting (emails : list string) (search_plan : gmap string (list string))
    (user_id : option string) : M (list profile * list string) :=
  acc1 <~ scout_each scout_from_email email_failure user_id emails ([], []);
  acc2 <~ scout_each linkedin_scout linkedin_failure user_id
            (default [] (search_plan !! "linkedin_queries")) acc1;
  acc3 <~ scout_each x_scout x_failure user_id
            (default [] (search_plan !! "x_queries")) acc2;
  scout_each internet_scout internet_failure user_id
    (default [] (search_plan !! "internet_queries")) acc3.

(** The message generation loop. *)
Fixpoint generate_messages (profiles : list profile) (goal company_info : string)
    (errors : list string) : list profile * list string :=
  match profiles with
  | [] => ([], errors)
  | p :: rest =>
      match generate_message p goal company_info with
      | Ok message =>
          let '(ps, errs) := generate_messages rest goal company_info errors in
          (<["message" := VStr message]> p :: ps, errs)
      | Raise e =>
          let fallback :=
            "Hi " +:+ format (default (VStr "") (p !! "name"))
            +:+ ", let's connect regarding " +:+ goal +:+ ". - " +:+ company_info in
          let failure :=
            "Message generation failed for "
            +:+ format (default (VStr "unknown") (p !! "name")) +:+ ": " +:+ str e in
          let '(ps, errs) := generate_messages rest goal company_info (errors ++ [failure]) in
          (<["message" := VStr fallback]> p :: ps, errs)
      end
  end.

(** [user_id = data.get('user_id')], or a user created from
    [user_email] when no usable [user_id] came with the request. *)
Definition resolve_user (req : request) : M (option string) :=
  if opt_truthy (req_user_email req) && negb (opt_truthy (req_user_id req))
  then create_user uuid4 (default "" (req_user_email req))
  else ret (req_user_id req).

(** [n = data.get('target', 20)], when it is a positive integer. *)
Definition requested_target (req : request) : option Z :=
  match req_target req with
  | TargetAbsent => Some 20
  | TargetInt n => if decide (n ≤ 0) then None else Some n
  | TargetOther => None
  end.

Definition lead_discovery_body (req : request) : M response :=
  if negb (req_is_json req) then ret (Error400 "Request must be JSON")
  else
    match req_emails req with
    | None | Some [] => ret (Error400 "emails field is required and must be a list")
    | Some emails =>
        if negb (opt_truthy (req_company_info req))
        then ret (Error400 "company_info field is required")
        else if negb (opt_truthy (req_goal req))
        then ret (Error400 "goal field is required")
        else
          let company_info := default "" (req_company_info req) in
          let goal := default "" (req_goal req) in
          user_id <~ resolve_user req;
          match requested_target req with
          | None => ret (Error400 "target must be a positive integer")
          | Some n =>
              match interpret_goal goal company_info emails with
              | Raise e => ret (Error500 "Failed to interpret goal" (str e))
              | Ok search_plan =>
                  found <~ scouting emails search_plan user_id;
                  let '(profiles, errors) := found in
                  if negb (nonempty profiles) then ret (NoProfiles errors user_id)
                  else
                    match validate_and_rank profiles goal company_info with
                    | Raise e =>
                        ret (Error500 "Failed to validate and rank profiles" (str e))
                    | Ok ranked =>
                        let unique_profiles := take (Z.to_nat n) ranked in
                        let '(with_messages, errors') :=
                          generate_messages unique_profiles goal company_info errors in
                        ret (Discovery with_messages (length profiles)
                               (length with_messages) user_id
                               (if nonempty errors' then Some errors' else None))
                    end
              end
          end
    end.

Definition lead_discovery (req : request) : M response :=
  except_Exception (lead_discovery_body req)
    (λ e, ret (Error500 "Internal server error" (str e))).
End code.
End app.

(** ** Notions used to state the properties *)

(** How many times a tier has been invoked according to a trace. *)
Definition is_tier_call (t : tier) (e : event) : bool :=
  match e with
  | EvTier _ t' _ => bool_decide (t' = t)
  | EvRefresh _ _ => false
  end.

Definition tier_calls (t : tier) (tr : list event) : nat :=
  length (filter (λ e, is_tier_call t e = true) tr).

(** How many times [refresh_token] has been entered for a key. *)
Definition refresh_attempts (user_id platform : string) (tr : list event) : nat :=
  length (filter (λ e, e = EvRefresh user_id platform) tr).

(** The rows of [social_tokens] that belong to a (user, platform) pair. *)
Definition credential_rows (user_id platform : string) (w : world) : list token_row :=
  filter (λ r, token_matches user_id platform r = true) (social_tokens w).

(** The identity key in the words of the specification: a non-empty
    handle or profile URL if the record has one, else the full name in
    lower case with runs of white space collapsed. *)
Definition is_space (c : ascii) : bool :=
  let n := nat_of_ascii c in ((n =? 32) || ((9 <=? n) && (n <=? 13)))%nat.

Fixpoint words_from (s current : string) : list string :=
  match s with
  | EmptyString => if str_truthy current then [current] else []
  | String c s' =>
      if is_space c then
        (if str_truthy current then current :: words_from s' "" else words_from s' "")
      else words_from s' (current +:+ String c EmptyString)
  end.

Definition spec_normalized_name (s : string) : string :=
  String.concat " " (words_from (lower s) "").

Definition nonempty_text (v : option pyval) : option string :=
  match v with
  | Some (VStr s) => if str_truthy s then Some s else None
  | _ => None
  end.

Definition spec_identity_key (p : profile) : option string :=
  match nonempty_text (p !! "x_handle") with
  | Some handle => Some handle
  | None =>
      match nonempty_text (p !! "linkedin") with
      | Some url => Some url
      | None =>
          match p !! "name" with
          | Some (VStr name) => Some (spec_normalized_name name)
          | _ => None
          end
      end
  end.

(** The calls of the fan-out stage, in the order the route makes them,
    each with the text that introduces its warning. *)
Definition scout_calls
    (scout_from_email linkedin_scout x_scout internet_scout
       : string → option string → M (list profile))
    (emails : list string) (search_plan : gmap string (list string))
    (user_id : option string) : list (string * M (list profile)) :=
  ((λ e, (app.email_failure e, scout_from_email e user_id)) <$> emails)
  ++ ((λ q, (app.linkedin_failure q, linkedin_scout q user_id))
        <$> default [] (search_plan !! "linkedin_queries"))
  ++ ((λ q, (app.x_failure q, x_scout q user_id))
        <$> default [] (search_plan !! "x_queries"))
  ++ ((λ q, (app.internet_failure q, internet_scout q user_id))
        <$> default [] (search_plan !! "internet_queries")).

(** Every call is run, one after the other, whatever the earlier ones
    did; the outcome of each is recorded. *)
Fixpoint run_all (calls : list (string * M (list profile))) (w : world)
    : list (string * result (list profile)) * world :=
  match calls with
  | [] => ([], w)
  | (label, call) :: rest =>
      let '(r, w1) := call w in
      let '(outs, w2) := run_all rest w1 in
      ((label, r) :: outs, w2)
  end.

Definition collected (outs : list (string * result (list profile))) : list profile :=
  concat ((λ o, match o.2 with Ok ps => ps | Raise _ => [] end) <$> outs).

Definition failures (str : exn → string) (outs : list (string * result (list profile)))
    : list string :=
  omap (λ o, match o.2 with Ok _ => None | Raise e => Some (o.1 +:+ str e) end) outs.

Definition add_message (generate_message : profile → string → string → result string)
    (goal company_info : string) (p : profile) : profile :=
  match generate_message p goal company_info with
  | Ok message => <["message" := VStr message]> p
  | Raise _ => p
  end.

(** A computation that returns without raising and without invoking a
    tier. *)
Definition quiet {A} (m : M A) : Prop :=
  ∀ w, ∃ a w', m w = (Ok a, w') ∧ ∀ t, tier_calls t (trace w') = tier_calls t (trace w).

(** The world in which the AuthenticatedUser tier of a hybrid scout runs:
    the usage has been tracked and the invocation recorded. *)
Definition tier_entry (source platform user_id query : string) (w : world) : world :=
  (bind (track_api_usage (Some user_id) platform "search")
        (λ _, log (EvTier source AuthenticatedUser query)) w).2.

(** What the first strategy of a hybrid scout can do. *)
Definition strategy1_outcome (tag : string) (w : world) (r : option (list profile))
    (w1 : world) : Prop :=
  tier_calls SharedService (trace w1) = tier_calls SharedService (trace w)
  ∧ tier_calls OfflineFallback (trace w1) = tier_calls OfflineFallback (trace w)
  ∧ match r with
    | Some ps => nonempty ps = true ∧ tagged tag ps = true
                 ∧ tier_calls AuthenticatedUser (trace w1)
                   = S (tier_calls AuthenticatedUser (trace w))
    | None => True
    end.

(** The three ways a scout call can end: the AuthenticatedUser tier gave
    profiles carrying its tag [tag] (hybrid scouts only); or the
    SharedService module was imported and the call returns what that tier
    gave, [shared_result]; or the module could not be imported and the
    call returns the stand-in [mock]. *)
Definition chain_outcome (tag : option string) (shared_imports : bool)
    (shared_result : result (list profile)) (mock : list profile)
    (w : world) (ps : list profile) (w' : world) : Prop :=
  (∃ tg, tag = Some tg ∧ nonempty ps = true ∧ tagged tg ps = true
         ∧ tier_calls AuthenticatedUser (trace w') = S (tier_calls AuthenticatedUser (trace w))
         ∧ tier_calls SharedService (trace w') = tier_calls SharedService (trace w)
         ∧ tier_calls OfflineFallback (trace w') = tier_calls OfflineFallback (trace w))
  ∨ (shared_imports = true ∧ shared_result = Ok ps
     ∧ tier_calls SharedService (trace w') = S (tier_calls SharedService (trace w))
     ∧ tier_calls OfflineFallback (trace w') = tier_calls OfflineFallback (trace w))
  ∨ (shared_imports = false ∧ ps = mock
     ∧ tier_calls SharedService (trace w') = tier_calls SharedService (trace w)
     ∧ tier_calls OfflineFallback (trace w') = S (tier_calls OfflineFallback (trace w))).

(** The rows of [api_usage] filed under a (user, platform) pair. *)
Definition of_pair (u p : string) (r : usage_row) : Prop :=
  sql_eq (use_user_id r) (Some u) = true ∧ use_platform r = p.

#[global] Instance of_pair_dec u p r : Decision (of_pair u p r).
Proof. unfold of_pair. apply _. Defined.

(** All the rows of the pair [(u, p)] are rows of endpoint [e] dated
    [d], and [cs] lists their counters in table order. *)
Definition only_key (u p e : string) (d : Z) (rows : list usage_row) (cs : list Z) : Prop :=
  use_usage_count <$> filter (of_pair u p) rows = cs
  ∧ Forall (λ r, of_pair u p r → use_endpoint r = e ∧ use_date r = d) rows.

(** ** Sample inputs *)

Definition sample_config : config :=
  {| PHANTOMBUSTER_API_KEY := ""; TWITTER_BEARER_TOKEN := "";
     GOOGLE_CSE_API_KEY := "cse-key"; GOOGLE_CSE_ID := "cse-id";
     PEOPLE_DATA_LABS_API_KEY := "pdl-key" |}.

Definition phantom_config : config :=
  {| PHANTOMBUSTER_API_KEY := "phantom-key"; TWITTER_BEARER_TOKEN := "";
     GOOGLE_CSE_API_KEY := "cse-key"; GOOGLE_CSE_ID := "cse-id";
     PEOPLE_DATA_LABS_API_KEY := "pdl-key" |}.

Definition all_installed : installed :=
  {| imports_linkedin_scout_enhanced := true; imports_linkedin_scout_real := true;
     imports_x_scout_enhanced := true; imports_x_scout_real := true;
     imports_email_scout_real := true; imports_internet_scout_real := true |}.

Definition oauth_profile (tag : string) : profile :=
  mkdict [("name", VStr "Dana Oauth"); ("source", VStr tag)].

(** A network on which the phantom is launched but yields no output, and
    on which the searches made with a user's token find one person. *)
Definition sample_network : network :=
  {| launch_linkedin_search_phantom := λ _, Ok (Some "container-1");
     wait_for_phantom_results := λ _, Ok None;
     convert_linkedin_results := λ _ _, Ok [];
     search_users := λ _ _, Ok [];
     search_tweets_for_users := λ _ _, Ok [];
     person_enrich := λ _, Ok [];
     search_companies := λ _, Ok [];
     search_profiles := λ _, Ok [];
     deduplicate_by_domain := λ ps, Ok ps;
     linkedin_people_search := λ _ _, [oauth_profile "linkedin_oauth"];
     twitter_people_search := λ _ _, [oauth_profile "twitter_oauth"];
     twitter_shared_search := λ _, [] |}.

Definition empty_world : world :=
  {| users := []; social_tokens := []; api_usage := [];
     local_now := frac 1000 1; utc_now := 1000; uuid_count := 0; trace := [] |}.

Definition sample_token (id : Z) (platform : string) (expiry : option Qc) : token_row :=
  {| tok_id := id; tok_user_id := "u1"; tok_platform := platform;
     tok_access_token := VStr "token"; tok_refresh_token := VNone;
     tok_expires_at := expiry; tok_token_data := mkdict [("access_token", VStr "token")];
     tok_created_at := 900 |}.

(** User [u1] has connected both platforms. *)
Definition connected_world : world :=
  with_social_tokens [sample_token 1 "linkedin" None; sample_token 2 "twitter" None]
    empty_world.

(** The LinkedIn token of [u1] expired 500 seconds ago. *)
Definition expired_world : world :=
  with_social_tokens [sample_token 1 "linkedin" (Some (frac 500 1))] empty_world.

Definition same_url_a : profile :=
  mkdict [("name", VStr "Bob Smith"); ("linkedin", VStr "https://linkedin.com/in/bob")].
Definition same_url_b : profile :=
  mkdict [("name", VStr "bob  smith"); ("linkedin", VStr "https://linkedin.com/in/bob")].
Definition namesake_a : profile :=
  mkdict [("name", VStr "Ann Lee"); ("x_handle", VStr "@ann_lee_sf")].
Definition namesake_b : profile :=
  mkdict [("name", VStr "Ann Lee"); ("x_handle", VStr "@annlee_nyc")].

Definition scored (name : string) (score : Qc) : profile :=
  mkdict [("name", VStr name); ("score", VNum score)].

Definition four_scored : list profile :=
  [scored "a" (frac 5 10); scored "b" (frac 9 10); scored "c" (frac 9 10);
   scored "d" (frac 1 10)].

Definition stub_uuid4 (n : nat) : string := "generated-user".
Definition stub_str (e : exn) : string :=
  match e with
  | OtherError msg => msg
  | KeyError key => key
  | ImportError => "ImportError"
  | TypeError => "TypeError"
  | AttributeError => "AttributeError"
  end.
Definition stub_format (v : pyval) : string :=
  match v with VStr s => s | _ => "" end.
Definition stub_interpret_goal (goal company_info : string) (emails : list string)
    : result (gmap string (list string)) := Ok ∅.
Definition stub_lead : profile :=
  mkdict [("name", VStr "Found Lead"); ("source", VStr "stub")].
Definition stub_email_scout (email : string) (user_id : option string) : M (list profile) :=
  if String.eqb email "down@example.com" then raise (OtherError "provider down")
  else ret [stub_lead].
Definition stub_idle_scout (query : string) (user_id : option string) : M (list profile) :=
  ret [].
Definition stub_generate_message (p : profile) (goal company_info : string) : result string :=
  Ok "Hello".

Definition partial_failure_request : request :=
  {| req_is_json := true;
     req_emails := Some ["down@example.com"; "up@example.com"];
     req_company_info := Some "VoiceFlow AI"; req_goal := Some "Find founders";
     req_user_id := None; req_user_email := None; req_target := TargetInt 5 |}.

(** ** More of user_auth.py and app.py *)

(** [bool(v)] for a value read back from a TEXT column: a number is
    stored as its text, which is never empty. *)
Definition column_truthy (v : pyval) : bool :=
  match v with
  | VNone => false
  | VStr s => str_truthy s
  | VNum _ => true
  | VList _ => true
  end.

(** An entry of ['social_platforms']. *)
Record connection := {
  con_platform : string;
  con_connected : bool;
  con_valid : bool;
  con_connected_at : Z
}.

Definition connection_of (w : world) (r : token_row) : connection :=
  {| con_platform := tok_platform r;
     con_connected := column_truthy (tok_access_token r);
     con_valid := match tok_expires_at r with
                  | Some t => bool_decide (local_now w < t)%Qc
                  | None => true
                  end;
     con_connected_at := tok_created_at r |}.

(** [UserAuthManager.get_user_connections]: every row of the user, the
    most recently created first (the order among rows created in the
    same second is the table order here; SQL leaves it open). *)
Definition get_user_connections (user_id : string) : M (list connection) :=
  λ w,
  let rows := filter (λ r, tok_user_id r = user_id) (social_tokens w) in
  let ordered := (sort_desc ((λ r, (Q2Qc (inject_Z (tok_created_at r)), r)) <$> rows)).*2 in
  (Ok (connection_of w <$> ordered), w).

Module app_routes.

(** The route [/api/user/<user_id>/connections]: the pair
    ([connections['twitter']], [connections['linkedin']]).  A token
    dictionary is never empty, so [bool(token)] tells whether one was
    returned. *)
Definition get_user_connections (user_id : string) : M (bool * bool) :=
  twitter_token <~ get_user_token user_id "twitter";
  linkedin_token <~ get_user_token user_id "linkedin";
  ret (bool_decide (is_Some twitter_token), bool_decide (is_Some linkedin_token)).

(** The route [/api/usage/<user_id>]: the usage of Twitter over 30 days
    and of LinkedIn over one day. *)
Definition get_user_usage (user_id : string) : M (gmap string Z * gmap string Z) :=
  twitter_usage <~ get_user_usage user_id "twitter" 30;
  linkedin_usage <~ get_user_usage user_id "linkedin" 1;
  ret (twitter_usage, linkedin_usage).

End app_routes.

(** ** Text *)

Definition chars (s : string) : list ascii := list_ascii_of_string s.
Definition text (l : list ascii) : string := string_of_list_ascii l.

(** [str.isspace] on an ASCII character. *)
Definition isspace (c : ascii) : bool :=
  let n := nat_of_ascii c in
  ((n =? 32) || ((9 <=? n) && (n <=? 13)) || ((28 <=? n) && (n <=? 31)))%nat.

Fixpoint drop_while {A} (f : A → bool) (l : list A) : list A :=
  match l with
  | [] => []
  | x :: l' => if f x then drop_while f l' else l
  end.

(** [str.strip()], [str.lstrip('@')] and [str.replace(c, '')] on ASCII
    text. *)
Definition strip (s : string) : string :=
  text (reverse (drop_while isspace (reverse (drop_while isspace (chars s))))).

Definition lstrip_char (c : ascii) (s : string) : string :=
  text (drop_while (λ x, bool_decide (x = c)) (chars s)).

Definition remove_char (c : ascii) (s : string) : string :=
  text (filter (λ x, x ≠ c) (chars s)).

Definition double_quote : ascii := ascii_of_nat 34.
Definition space : ascii := ascii_of_nat 32.
Definition newline : ascii := ascii_of_nat 10.
Definition at_sign : ascii := ascii_of_nat 64.

Definition startswith (p s : string) : bool := String.prefix p s.

Definition endswith (p s : string) : bool :=
  String.prefix (String.rev p) (String.rev s).

(** [s[n:]] and [s[:-n]] *)
Definition slice_from (n : nat) (s : string) : string := text (drop n (chars s)).
Definition slice_to_last (n : nat) (s : string) : string :=
  text (take (String.length s - n) (chars s)).

(** ** agents/message_gen.py *)

Module message_gen.
Section code.
(** [format] is the conversion an f-string applies to a value.
    [ask_model profile goal company_info] is the text of the answer the
    model gives to the prompt built from its arguments; it raises when
    the model cannot be reached or gives no text. *)
Variable format : pyval → string.
Variable ask_model : profile → string → string → result string.

Definition generate_fallback_message (p : profile) (goal company_info : string) : string :=
  let name := format (default (VStr "there") (p !! "name")) in
  let company := default (VStr "") (p !! "company") in
  if truthy company then
    "Hi " +:+ name +:+ ", I noticed you're at " +:+ format company
    +:+ ". We're working on " +:+ goal +:+ " at " +:+ company_info
    +:+ ". Would love to connect and share ideas!"
  else
    "Hi " +:+ name +:+ ", I came across your profile and thought you might be interested in "
    +:+ goal +:+ ". We're at " +:+ company_info +:+ " - would love to connect!".

Definition generate_message (p : profile) (goal company_info : string) : result string :=
  try_Exception
    (rbind (ask_model p goal company_info) (λ answer,
     let message := remove_char double_quote (strip answer) in
     if ((300 <? String.length message) || (String.length message <? 10))%nat
     then Ok (generate_fallback_message p goal company_info)
     else Ok message))
    (λ _, Ok (generate_fallback_message p goal company_info)).
End code.
End message_gen.

(** ** agents/reasoning.py *)

(** A value of the parsed search plan: a list of queries, or anything
    else, kept as the text [str] gives for it. *)
Inductive plan_value :=
| PList (queries : list string)
| POther (shown : string).

Module reasoning.
Section code.
(** [ask_model goal company_info emails] is the text of the model's
    answer to the prompt built from its arguments.  [json_loads] is
    [json.loads]: it raises on text that is not JSON and gives [None] for
    JSON that is not an object. *)
Variable ask_model : string → string → list string → result string.
Variable json_loads : string → result (option (gmap string plan_value)).

Definition generate_fallback_plan (goal company_info : string) : gmap string plan_value :=
  let base_query := strip (goal +:+ " " +:+ company_info) in
  list_to_map
    [("linkedin_queries",
      PList [goal +:+ " CEO founder"; base_query +:+ " decision maker"; goal]);
     ("x_queries",
      PList ["#" +:+ remove_char space goal +:+ " founder"; base_query +:+ " startup"; goal]);
     ("internet_queries",
      PList [base_query +:+ " company"; goal +:+ " startup"; company_info +:+ " " +:+ goal])].

(** The removal of the markdown fence around the answer. *)
Definition clean_response (answer : string) : string :=
  let t0 := strip answer in
  let t1 := if startswith "```json" t0 then slice_from 7 t0 else t0 in
  let t2 := if startswith "```" t1 then slice_from 3 t1 else t1 in
  let t3 := if endswith "```" t2 then slice_to_last 3 t2 else t2 in
  strip t3.

Definition required_keys : list string :=
  ["linkedin_queries"; "x_queries"; "internet_queries"].

(** One turn of the [for key in required_keys] loop. *)
Definition require_key (search_plan : gmap string plan_value) (key : string)
    : gmap string plan_value :=
  match search_plan !! key with
  | None => <[key := PList []]> search_plan
  | Some (PList _) => search_plan
  | Some (POther shown) => <[key := PList [shown]]> search_plan
  end.

(** Both handlers of [interpret_goal] return the fallback plan.  On JSON
    that is not an object the validation loop raises. *)
Definition interpret_goal (goal company_info : string) (emails : list string)
    : result (gmap string plan_value) :=
  try_Exception
    (rbind (ask_model goal company_info emails) (λ answer,
     rbind (json_loads (clean_response answer)) (λ parsed,
     match parsed with
     | Some search_plan => Ok (foldl require_key search_plan required_keys)
     | None => Raise TypeError
     end)))
    (λ _, Ok (generate_fallback_plan goal company_info)).
End code.
End reasoning.

(** ** linkedin_profile_connector.py *)

Module linkedin_profile_connector.

(** A character of the class [[A-Za-z0-9_]]. *)
Definition is_handle_char (c : ascii) : bool :=
  let n := nat_of_ascii c in
  (((65 <=? n) && (n <=? 90)) || ((97 <=? n) && (n <=? 122))
   || ((48 <=? n) && (n <=? 57)) || (n =? 95))%nat.

(** [re.match(r'^[A-Za-z0-9_]{1,15}$', s)]: one to fifteen characters of
    the class, then the end of the text; [$] also matches just before a
    newline that ends the text. *)
Definition matches_handle_pattern (s : string) : bool :=
  let cs := chars s in
  let body := match reverse cs with
              | c :: rest => if bool_decide (c = newline) then reverse rest else cs
              | [] => cs
              end in
  ((1 <=? length body) && (length body <=? 15))%nat && forallb is_handle_char body.

Definition validate_twitter_handle (handle : string) : bool :=
  matches_handle_pattern (lstrip_char at_sign handle).

End linkedin_profile_connector.

(** ** Notions used to state the further properties *)

(** The dictionary [get_user_token] builds from a row. *)
Definition token_of_row (r : token_row) : user_token :=
  {| access_token := tok_access_token r; refresh_token_of := tok_refresh_token r;
     expires_at := tok_expires_at r; token_data := tok_token_data r |}.

(** The three tables and the clocks are the same in both worlds. *)
Definition same_database (w w' : world) : Prop :=
  users w' = users w ∧ social_tokens w' = social_tokens w ∧ api_usage w' = api_usage w
  ∧ local_now w' = local_now w ∧ utc_now w' = utc_now w.

(** No two users share an e-mail address or an identifier. *)
Definition users_unique (w : world) : Prop :=
  NoDup (usr_email <$> users w) ∧ NoDup (usr_user_id <$> users w).

(** [m] run [n] times in a row. *)
Fixpoint times (n : nat) (m : M unit) : M unit :=
  match n with
  | O => ret tt
  | S n' => _ <~ m; times n' m
  end.

(** One turn of the scan behind [select_latest_token]. *)
Definition latest_step (u p : string) (best : option token_row) (r : token_row)
    : option token_row :=
  if token_matches u p r then
    match best with
    | None => Some r
    | Some b => if decide (tok_created_at b < tok_created_at r) then Some r else Some b
    end
  else best.

(** The payloads on which [store_social_token], as it is given above,
    returns: an [expires_in] that is absent or a number, and token values
    that sqlite3 can bind. *)
Definition storable (token_data : pydict) : bool :=
  match token_data !! "expires_in" with
  | None | Some (VNum _) => true
  | Some _ => false
  end
  && bindable (default VNone (token_data !! "access_token"))
  && bindable (default VNone (token_data !! "refresh_token")).

(** The expiry [store_social_token] computes in world [w]. *)
Definition stored_expiry (w : world) (token_data : pydict) : option Qc :=
  match token_data !! "expires_in" with
  | Some (VNum secs) => Some (local_now w + secs)%Qc
  | _ => None
  end.

(** What the [UPDATE] of [track_api_usage] does to a counter. *)
Definition bump (c : Z) : Z := c + 1.

(** The key [_deduplicate_profiles] compares: the handle in lower case,
    when the record's ['x_handle'] is missing or a string. *)
Definition handle_of (p : profile) : option string :=
  match default (VStr "") (p !! "x_handle") with
  | VStr h => Some (lower h)
  | _ => None
  end.

(** A network on which the searches made with a user's token find
    nobody. *)
Definition quiet_network : network :=
  {| launch_linkedin_search_phantom := λ _, Ok None;
     wait_for_phantom_results := λ _, Ok None;
     convert_linkedin_results := λ _ _, Ok [];
     search_users := λ _ _, Ok [];
     search_tweets_for_users := λ _ _, Ok [];
     person_enrich := λ _, Ok [];
     search_companies := λ _, Ok [];
     search_profiles := λ _, Ok [];
     deduplicate_by_domain := λ ps, Ok ps;
     linkedin_people_search := λ _ _, [];
     twitter_people_search := λ _ _, [];
     twitter_shared_search := λ _, [] |}.

Definition handled (name handle : string) : profile :=
  mkdict [("name", VStr name); ("x_handle", VStr handle)].

(** Whether a call raised. *)
Definition raised {A} (r : result A) : bool :=
  match r with Ok _ => false | Raise _ => true end.

(** [p'] is [p] after [profile['message'] = ...]. *)
Definition has_message (p p' : profile) : Prop :=
  ∃ message, p' = <["message" := VStr message]> p.

(** The request passes the checks on [is_json], ['emails'],
    ['company_info'] and ['goal'] with which [lead_discovery] begins. *)
Definition valid_fields (req : request) (emails : list string)
    (company_info goal : string) : Prop :=
  req_is_json req = true
  ∧ req_emails req = Some emails ∧ emails ≠ []
  ∧ req_company_info req = Some company_info ∧ str_truthy company_info = true
  ∧ req_goal req = Some goal ∧ str_truthy goal = true.

(** A record without a name, and a scout that finds it. *)
Definition nameless_lead : profile := mkdict [("email", VStr "lead@example.com")].
Definition nameless_scout (query : string) (user_id : option string) : M (list profile) :=
  ret [nameless_lead].

(** A scout whose provider is down. *)
Definition failing_scout (query : string) (user_id : option string) : M (list profile) :=
  raise (OtherError "provider down").

(** ** The entry points as Python has them *)

(** The scout wrappers declare no type for [user_id], and app.py hands
    them the request's JSON value unchecked.  In the modules below the
    user id is any value, and sqlite3 may refuse it or fail:
    [sqlite_error] is the error every sqlite3 call raises when
    prefunnel.db cannot be used ([None] when it can); [sqlite_text] is
    the text SQLite gives a number that is compared with, or stored in,
    a TEXT column, and it raises on an integer that does not fit 64
    bits.  A text of the model is one sqlite3 can encode. *)
Module untyped_auth.
Section code.
Variable sqlite_error : option exn.
Variable sqlite_text : Qc → result string.

(** [sqlite3.connect] and the statements run on the connection. *)
Definition connect : M unit :=
  match sqlite_error with
  | Some e => raise e
  | None => ret tt
  end.

(** Binding [user_id] to the parameter of a statement on the column
    [user_id TEXT]: a list is refused, [None] is SQL NULL. *)
Definition bind_user_id (user_id : pyval) : result (option string) :=
  match user_id with
  | VNone => Ok None
  | VStr s => Ok (Some s)
  | VNum q => rbind (sqlite_text q) (λ s, Ok (Some s))
  | VList _ => Raise (OtherError "Error binding parameter: unsupported type")
  end.

(** [WHERE user_id = ?] selects no row when the parameter is NULL. *)
Definition get_user_token (user_id : pyval) (platform : string) : M (option user_token) :=
  _ <~ connect;
  key <~ lift (bind_user_id user_id);
  match key with
  | Some u => get_user_token u platform
  | None => ret None
  end.

Definition track_api_usage (user_id : pyval) (platform endpoint : string) : M unit :=
  _ <~ connect;
  key <~ lift (bind_user_id user_id);
  track_api_usage key platform endpoint.
End code.
End untyped_auth.

Module untyped_linkedin.
Section code.
Variables (cfg : config) (mods : installed) (net : network).
Variable sqlite_error : option exn.
Variable sqlite_text : Qc → result string.

(** The token dictionary has no ['user_id'], so the usage is filed under
    [None]; the [try] of the function swallows every exception and the
    profiles collected so far, none, are returned. *)
Definition _search_with_user_token (query : string) (token : user_token) : M (list profile) :=
  except_Exception
    (_ <~ untyped_auth.track_api_usage sqlite_error sqlite_text VNone
            "linkedin" "profile_search";
     ret (linkedin_people_search net query (access_token token)))
    (λ _, ret []).

Definition linkedin_scout_enhanced (query : string) (user_id : pyval) : M (list profile) :=
  found <~ (if truthy user_id then
              user_token <~ untyped_auth.get_user_token sqlite_error sqlite_text
                              user_id "linkedin";
              match user_token with
              | Some token =>
                  profiles <~ _search_with_user_token query token;
                  ret (if nonempty profiles then Some profiles else None)
              | None => ret None
              end
            else ret None);
  match found with
  | Some profiles => ret profiles
  | None => ret (linkedin_scout_enhanced._fallback_linkedin_search cfg query)
  end.

(** Strategy 1: the lookup of the token is outside the [try], which
    catches [ImportError] only. *)
Definition strategy1 (query : string) (user_id : pyval) : M (option (list profile)) :=
  if truthy user_id && strategy_is "linkedin_scout" "hybrid" then
    user_token <~ untyped_auth.get_user_token sqlite_error sqlite_text user_id "linkedin";
    match user_token with
    | Some _ =>
        except_ImportError
          (_ <~ import (imports_linkedin_scout_enhanced mods);
           _ <~ untyped_auth.track_api_usage sqlite_error sqlite_text user_id
                  "linkedin" "search";
           _ <~ log (EvTier "linkedin" AuthenticatedUser query);
           profiles <~ linkedin_scout_enhanced query user_id;
           if nonempty profiles && tagged "linkedin_oauth" profiles
           then ret (Some profiles) else ret None)
          (ret None)
    | None => ret None
    end
  else ret None.

Definition linkedin_scout (query : string) (user_id : pyval) : M (list profile) :=
  first <~ strategy1 query user_id;
  match first with
  | Some profiles => ret profiles
  | None =>
      second <~ linkedin_scout.strategy2 cfg mods net query;
      match second with
      | Some profiles => ret profiles
      | None => _ <~ log (EvTier "linkedin" OfflineFallback query); ret linkedin_scout.mock
      end
  end.
End code.
End untyped_linkedin.

Module untyped_x.
Section code.
Variables (cfg : config) (mods : installed) (net : network).
Variable sqlite_error : option exn.
Variable sqlite_text : Qc → result string.

Definition _search_with_user_token (query : string) (token : user_token) : M (list profile) :=
  except_Exception
    (_ <~ untyped_auth.track_api_usage sqlite_error sqlite_text VNone
            "twitter" "user_search";
     ret (twitter_people_search net query (access_token token)))
    (λ _, ret []).

Definition x_scout_enhanced (query : string) (user_id : pyval) : M (list profile) :=
  found <~ (if truthy user_id then
              user_token <~ untyped_auth.get_user_token sqlite_error sqlite_text
                              user_id "twitter";
              match user_token with
              | Some token =>
                  profiles <~ _search_with_user_token query token;
                  ret (if nonempty profiles then Some profiles else None)
              | None => ret None
              end
            else ret None);
  match found with
  | Some profiles => ret profiles
  | None => ret (x_scout_enhanced._fallback_twitter_search cfg net query)
  end.

Definition strategy1 (query : string) (user_id : pyval) : M (option (list profile)) :=
  if truthy user_id && strategy_is "x_scout" "hybrid" then
    user_token <~ untyped_auth.get_user_token sqlite_error sqlite_text user_id "twitter";
    match user_token with
    | Some _ =>
        except_ImportError
          (_ <~ import (imports_x_scout_enhanced mods);
           _ <~ untyped_auth.track_api_usage sqlite_error sqlite_text user_id
                  "twitter" "search";
           _ <~ log (EvTier "x" AuthenticatedUser query);
           profiles <~ x_scout_enhanced query user_id;
           if nonempty profiles && tagged "twitter_oauth" profiles
           then ret (Some profiles) else ret None)
          (ret None)
    | None => ret None
    end
  else ret None.

Definition x_scout (query : string) (user_id : pyval) : M (list profile) :=
  first <~ strategy1 query user_id;
  match first with
  | Some profiles => ret profiles
  | None =>
      second <~ x_scout.strategy2 cfg mods net query;
      match second with
      | Some profiles => ret profiles
      | None => _ <~ log (EvTier "x" OfflineFallback query); ret x_scout.mock
      end
  end.
End code.
End untyped_x.

(** The e-mail and web scouts take a [user_id] and do not use it. *)
Module untyped_shared.
Section code.
Variables (cfg : config) (mods : installed) (net : network).

Definition scout_from_email (email : string) (user_id : pyval) : M (list profile) :=
  first <~ email_scout.shared cfg mods net email;
  match first with
  | Some profiles => ret profiles
  | None => _ <~ log (EvTier "email" OfflineFallback email); ret email_scout.mock
  end.

Definition internet_scout (query : string) (user_id : pyval) : M (list profile) :=
  first <~ internet_scout.shared cfg mods net query;
  match first with
  | Some profiles => ret profiles
  | None => _ <~ log (EvTier "internet" OfflineFallback query); ret internet_scout.mock
  end.
End code.
End untyped_shared.

(** ** Notions used to state the amended properties *)

(** The user id of the typed entry points as a Python value. *)
Definition id_value (user_id : option string) : pyval :=
  match user_id with
  | Some u => VStr u
  | None => VNone
  end.

(** What a scout call does once the AuthenticatedUser tier is out of the
    way, from world [w]: if the SharedService module can be imported the
    tier is invoked and the call ends as the tier does, whatever it
    returns; if not, the call returns the OfflineFallback stand-in. *)
Definition lower_tiers (source query : string) (shared_imports : bool)
    (shared_result : result (list profile)) (mock : list profile) (w : world)
    : result (list profile) * world :=
  if shared_imports
  then (shared_result, with_trace (trace w ++ [EvTier source SharedService query]) w)
  else (Ok mock, with_trace (trace w ++ [EvTier source OfflineFallback query]) w).

(** The tiers invoked, in the order of their invocation. *)
Definition tiers_of (tr : list event) : list tier :=
  omap (λ e, match e with EvTier _ t _ => Some t | EvRefresh _ _ => None end) tr.

(** A text of ASCII characters only: on such a text [lower], [strip] and
    [String.length] are [str.lower], [str.strip] and [len]. *)
Definition is_ascii (s : string) : bool :=
  forallb (λ c, (nat_of_ascii c <? 128)%nat) (chars s).

(** The record's ['x_handle'], when it is a text, is an ASCII text. *)
Definition ascii_handle (p : profile) : bool :=
  match p !! "x_handle" with
  | Some (VStr h) => is_ascii h
  | _ => true
  end.

(** The records of [rest] whose handle is not empty and is not the
    handle of a record met before, [before] being the records met so
    far. *)
Fixpoint first_handles_from (before rest : list profile) : list profile :=
  match rest with
  | [] => []
  | p :: rest' =>
      match handle_of p with
      | Some h =>
          if decide (h ≠ "" ∧ Some h ∉ handle_of <$> before)
          then p :: first_handles_from (before ++ [p]) rest'
          else first_handles_from (before ++ [p]) rest'
      | None => first_handles_from (before ++ [p]) rest'
      end
  end.

Definition first_handles (l : list profile) : list profile := first_handles_from [] l.

(** A computation that returns, whatever the world it runs in. *)
Definition returns {A} (m : M A) : Prop := ∀ w, ∃ a w', m w = (Ok a, w').

(** The events [added] to the trace between [w] and [w'] invoke the
    tiers [ts], in this order. *)
Definition invokes (w w' : world) (ts : list tier) : Prop :=
  ∃ added, trace w' = trace w ++ added ∧ tiers_of added = ts.

(** How a hybrid scout goes through its tiers.  [enhanced] is the
    AuthenticatedUser tier, [lower w] what the call does from world [w]
    once that tier is out of the way.  The tier is invoked first, when
    the user id is truthy, a token is found and the module is imported;
    its list is returned when it is not empty and carries [tag], and
    otherwise the tier is left for the lower ones.  When the module is
    not imported, no token is found or the user id is not truthy, the
    call goes to the lower tiers at once. *)
Definition hybrid_chain (source platform tag : string) (enhanced_imports : bool)
    (enhanced : string → option string → M (list profile))
    (lower : world → result (list profile) * world)
    (scout : string → option string → M (list profile)) (query : string) : Prop :=
  (∀ u w tok w1 ps1 w2,
     str_truthy u = true → enhanced_imports = true →
     get_user_token u platform w = (Ok (Some tok), w1) →
     enhanced query (Some u) (tier_entry source platform u query w1) = (Ok ps1, w2) →
     scout query (Some u) w
     = (if nonempty ps1 && tagged tag ps1 then (Ok ps1, w2) else lower w2)
     ∧ invokes w w2 [AuthenticatedUser])
  ∧ (∀ u w tok w1,
       str_truthy u = true → enhanced_imports = false →
       get_user_token u platform w = (Ok (Some tok), w1) →
       scout query (Some u) w = lower w1 ∧ invokes w w1 [])
  ∧ (∀ u w w1,
       str_truthy u = true →
       get_user_token u platform w = (Ok None, w1) →
       scout query (Some u) w = lower w1 ∧ invokes w w1 [])
  ∧ (∀ uid w, opt_truthy uid = false → scout query uid w = lower w).

(** A token of the payload that the TEXT column gives back as it was
    stored: a text, [None], or no token at all.  (A number would come
    back as its text.) *)
Definition text_or_absent (v : option pyval) : Prop :=
  match v with
  | None | Some VNone | Some (VStr _) => True
  | Some _ => False
  end.

(** The errors with which the first four checks of [lead_discovery]
    reject a request. *)
Definition early_rejections : list string :=
  ["Request must be JSON"; "emails field is required and must be a list";
   "company_info field is required"; "goal field is required"].


(** ** More sample inputs *)

(** The provider is down for one address and knows nobody at the
    others. *)
Definition stub_barren_scout (email : string) (user_id : option string) : M (list profile) :=
  if String.eqb email "down@example.com" then raise (OtherError "provider down")
  else ret [].

Definition stub_sqlite_text (q : Qc) : result string := Ok "1".

(** The provider is down for one address and returns a record without a
    name for the others. *)
Definition stub_nameless_scout (email : string) (user_id : option string)
    : M (list profile) :=
  if String.eqb email "down@example.com" then raise (OtherError "provider down")
  else ret [nameless_lead].

(** ** Auxiliary lemmas *)

Section sorting.
Context {A : Type}.
Implicit Types (l : list (Qc * A)) (kx : Qc * A).

Lemma insert_desc_perm kx l : insert_desc kx l ≡ₚ kx :: l.
Proof.
  induction l as [|ky l IH]; simpl; [done|].
  case_decide; [|done].
  rewrite IH. apply Permutation_swap.
Qed.

Lemma sort_desc_perm l : sort_desc l ≡ₚ l.
Proof.
  induction l as [|kx l IH]; simpl; [done|].
  by rewrite insert_desc_perm, IH.
Qed.

Lemma insert_desc_sorted kx l :
  StronglySorted key_ge l → StronglySorted key_ge (insert_desc kx l).
Proof.
  induction 1 as [|ky l Hs IH Hall]; simpl.
  - repeat constructor.
  - case_decide as Hlt.
    + constructor; [done|].
      rewrite insert_desc_perm. constructor; [|done].
      unfold key_ge. by apply Qclt_le_weak.
    + apply Qcnot_lt_le in Hlt.
      constructor; [by constructor|].
      constructor; [done|].
      eapply Forall_impl; [exact Hall|].
      intros kz Hz. unfold key_ge in *. by eapply Qcle_trans.
Qed.

Lemma sort_desc_sorted l : StronglySorted key_ge (sort_desc l).
Proof.
  induction l; simpl; [constructor|]. by apply insert_desc_sorted.
Qed.

Lemma Qclt_irrefl' (x : Qc) : ¬ (x < x)%Qc.
Proof. intros H. exact (Qclt_not_le _ _ H (Qcle_refl _)). Qed.

Lemma insert_desc_filter (k : Qc) kx l :
  filter (λ y, y.1 = k) (insert_desc kx l) = filter (λ y, y.1 = k) (kx :: l).
Proof.
  induction l as [|ky l IH]; simpl; [done|].
  case_decide as Hlt; [|done].
  rewrite filter_cons, IH, !filter_cons.
  destruct (decide (ky.1 = k)) as [Hy|Hy]; [|done].
  destruct (decide (kx.1 = k)) as [Hx|Hx]; [|done].
  rewrite Hx, Hy in Hlt. by apply Qclt_irrefl' in Hlt.
Qed.

Lemma sort_desc_stable (k : Qc) l :
  filter (λ y, y.1 = k) (sort_desc l) = filter (λ y, y.1 = k) l.
Proof.
  induction l as [|kx l IH]; simpl; [done|].
  by rewrite insert_desc_filter, !filter_cons, IH.
Qed.

Lemma sort_desc_constant (k : Qc) l :
  Forall (λ y, y.1 = k) l → sort_desc l = l.
Proof.
  induction 1 as [|kx l Hk Hall IH]; simpl; [done|].
  rewrite IH. destruct Hall as [|ky l' Hy _]; simpl; [done|].
  case_decide as Hlt; [|done].
  rewrite Hk, Hy in Hlt. by apply Qclt_irrefl' in Hlt.
Qed.
End sorting.

Lemma decorate_spec l kl :
  decorate l = Ok kl → kl.*2 = l ∧ Forall (λ kx, score_key kx.2 = Ok kx.1) kl.
Proof.
  revert kl. induction l as [|x l IH]; simpl; intros kl H.
  - injection H as <-. by split; [|constructor].
  - destruct (score_key x) as [k|] eqn:Hk; simpl in H; [|done].
    destruct (decorate l) as [kl'|]; simpl in H; [|done].
    injection H as <-. destruct (IH _ eq_refl) as [Heq Hall].
    split; [by rewrite fmap_cons, Heq|]. by constructor.
Qed.

Lemma decorated_filter (k : Qc) (kl : list (Qc * profile)) :
  Forall (λ kx, score_key kx.2 = Ok kx.1) kl →
  filter (λ x, score_key x = Ok k) (kl.*2) = (filter (λ y, y.1 = k) kl).*2.
Proof.
  induction 1 as [|[k' x] kl Hx _ IH]; [done|].
  rewrite fmap_cons, !filter_cons, IH. cbn [fst snd] in *. rewrite Hx.
  destruct (decide (k' = k)) as [->|Hne].
  - by rewrite decide_True.
  - rewrite decide_False; [done|]. congruence.
Qed.

Lemma decorated_sorted (kl : list (Qc * profile)) :
  Forall (λ kx, score_key kx.2 = Ok kx.1) kl →
  StronglySorted key_ge kl → StronglySorted score_ge (kl.*2).
Proof.
  intros Hall Hs. induction Hs as [|kx kl Hs IH Hge]; [constructor|].
  apply Forall_cons in Hall as [Hx Hall]. rewrite fmap_cons.
  constructor; [by apply IH|].
  apply Forall_fmap. rewrite Forall_forall in Hall, Hge |- *.
  intros ky Hin. simpl. exists kx.1, ky.1. split_and!; [done|by apply Hall|by apply Hge].
Qed.

Lemma sorted_by_score_spec l out :
  sorted_by_score l = Ok out →
  out ≡ₚ l ∧ StronglySorted score_ge out ∧
  ∀ k, filter (λ x, score_key x = Ok k) out = filter (λ x, score_key x = Ok k) l.
Proof.
  unfold sorted_by_score. destruct (decorate l) as [kl|] eqn:Hd; simpl; [|done].
  intros [= <-]. apply decorate_spec in Hd as [<- Hall].
  assert (Forall (λ kx : Qc * profile, score_key kx.2 = Ok kx.1) (sort_desc kl)) as Hall'.
  { by rewrite sort_desc_perm. }
  split_and!.
  - by rewrite sort_desc_perm.
  - apply decorated_sorted; [done|]. apply sort_desc_sorted.
  - intros k. by rewrite !decorated_filter, sort_desc_stable.
Qed.

Lemma score_key_set_score p : score_key (set_score p) = Ok (frac 1 1).
Proof. unfold score_key, set_score. by rewrite lookup_insert_eq. Qed.

Lemma decorate_set_score l :
  decorate (set_score <$> l) = Ok ((λ p, (frac 1 1, set_score p)) <$> l).
Proof.
  induction l as [|p l IH]; [done|].
  rewrite !fmap_cons. cbn [decorate]. by rewrite score_key_set_score, IH.
Qed.

Lemma sorted_by_score_placeholder l :
  sorted_by_score (set_score <$> l) = Ok (set_score <$> l).
Proof.
  unfold sorted_by_score. rewrite decorate_set_score. simpl.
  rewrite (sort_desc_constant (frac 1 1)).
  - by rewrite <- list_fmap_compose.
  - by apply Forall_fmap, Forall_true.
Qed.

Lemma name_set_score (p : profile) : set_score p !! "name" = p !! "name".
Proof. unfold set_score. by rewrite lookup_insert_ne. Qed.

Lemma names_set_score l : names (set_score <$> l) = names l.
Proof.
  unfold names. rewrite <- list_fmap_compose. apply list_fmap_ext.
  intros _ p _. apply name_set_score.
Qed.

Lemma names_snoc before (p : profile) : names (before ++ [p]) = (names before ++ [p !! "name"])%list.
Proof. unfold names. by rewrite fmap_app. Qed.

Lemma dedup_loop_spec rest : ∀ before seen unique out,
  (∀ v, v ∈ seen ↔ Some v ∈ names before) →
  dedup_loop rest seen unique = Ok out →
  out = (unique ++ (set_score <$> firsts_from before rest))%list.
Proof.
  induction rest as [|p rest IH]; simpl; intros before seen unique out Hinv H.
  - injection H as <-. by rewrite app_nil_r.
  - destruct (p !! "name") as [nm|] eqn:Hnm; [|done].
    destruct (hashable nm); [|done].
    destruct (decide (nm ∈ seen)) as [Hin|Hin].
    + rewrite decide_True by (by apply Hinv).
      apply (IH (before ++ [p])) in H; [done|].
      intros v. rewrite names_snoc, Hnm, elem_of_app, list_elem_of_singleton, <- Hinv.
      split; [auto|]. intros [?|[= ->]]; done.
    + rewrite decide_False by (by rewrite <- Hinv).
      apply (IH (before ++ [p])) in H.
      * by rewrite H, <- app_assoc.
      * intros v. rewrite names_snoc, Hnm, elem_of_app, list_elem_of_singleton, <- Hinv.
        rewrite elem_of_union, elem_of_singleton.
        split; (intros [Hv|Hv]; [right|left]; first [done | by injection Hv | by rewrite Hv]).
Qed.

Lemma dedup_loop_ok rest : ∀ seen unique,
  Forall has_hashable_name rest → is_ok (dedup_loop rest seen unique).
Proof.
  induction rest as [|p rest IH]; simpl; intros seen unique Hall; [done|].
  apply Forall_cons in Hall as [(v & -> & ->) Hall].
  case_decide; by apply IH.
Qed.

Lemma dedup_loop_ok_inv rest : ∀ seen unique,
  is_ok (dedup_loop rest seen unique) → Forall has_hashable_name rest.
Proof.
  induction rest as [|p rest IH]; simpl; intros seen unique H; [constructor|].
  destruct (p !! "name") as [nm|] eqn:Hnm; [|done].
  destruct (hashable nm) eqn:Hh; [|done].
  constructor; [by exists nm|].
  case_decide; by eapply IH.
Qed.

Lemma dedup_loop_key_error pre : ∀ p post seen unique,
  Forall has_hashable_name pre → p !! "name" = None →
  dedup_loop (pre ++ p :: post) seen unique = Raise (KeyError "name").
Proof.
  induction pre as [|q pre IH]; simpl; intros p post seen unique Hall Hp.
  - by rewrite Hp.
  - apply Forall_cons in Hall as [(v & -> & ->) Hall].
    case_decide; by apply IH.
Qed.

Lemma firsts_from_names rest : ∀ before,
  NoDup (names (firsts_from before rest)) ∧
  (∀ n, n ∈ names (firsts_from before rest) → n ∉ names before) ∧
  (∀ p, p ∈ rest → p !! "name" ∈ names before ∨ p !! "name" ∈ names (firsts_from before rest)) ∧
  firsts_from before rest `sublist_of` rest.
Proof.
  induction rest as [|p rest IH]; simpl; intros before.
  - split_and!; [constructor|by inversion 1|by inversion 1|done].
  - destruct (IH (before ++ [p])) as (Hnd & Hfresh & Hcov & Hsub).
    setoid_rewrite names_snoc in Hfresh. setoid_rewrite names_snoc in Hcov.
    setoid_rewrite elem_of_app in Hfresh. setoid_rewrite elem_of_app in Hcov.
    setoid_rewrite list_elem_of_singleton in Hfresh.
    setoid_rewrite list_elem_of_singleton in Hcov.
    case_decide as Hin.
    + split_and!; [done| |  |by apply sublist_cons].
      { intros n Hn Hb. apply (Hfresh n Hn). by left. }
      intros q [->|Hq]%elem_of_cons; [by left|].
      destruct (Hcov q Hq) as [[?|Heq]|?]; [by left| |by right].
      left. by rewrite Heq.
    + split_and!.
      * simpl. constructor; [|done]. intros Hp. apply (Hfresh _ Hp). by right.
      * simpl. intros n [->|Hn]%elem_of_cons; [done|].
        intros Hb. apply (Hfresh n Hn). by left.
      * simpl. intros q [->|Hq]%elem_of_cons; [right; by left|].
        destruct (Hcov q Hq) as [[?|Heq]|?]; [by left| |right; by right].
        right. rewrite Heq. by left.
      * by apply sublist_skip.
Qed.

Lemma validate_and_rank_first_occurrences ps g c out :
  validate_and_rank ps g c = Ok out → out = set_score <$> first_occurrences ps.
Proof.
  unfold validate_and_rank. destruct (dedup_loop ps ∅ []) as [u|] eqn:Hd; simpl; [|done].
  apply (dedup_loop_spec _ []) in Hd; [|set_solver]. simpl in Hd. subst u.
  rewrite sorted_by_score_placeholder. by intros [= <-].
Qed.

Lemma validate_and_rank_ok_iff ps g c :
  is_ok (validate_and_rank ps g c) ↔ Forall has_hashable_name ps.
Proof.
  unfold validate_and_rank. split.
  - intros H. apply (dedup_loop_ok_inv ps ∅ []).
    by destruct (dedup_loop ps ∅ []).
  - intros H. pose proof (dedup_loop_ok ps ∅ [] H) as Hok.
    destruct (dedup_loop ps ∅ []) as [u|] eqn:Hd; [|done]. simpl.
    apply (dedup_loop_spec _ []) in Hd; [|set_solver]. simpl in Hd. subst u.
    by rewrite sorted_by_score_placeholder.
Qed.

Lemma tier_calls_app t a b : tier_calls t (a ++ b) = (tier_calls t a + tier_calls t b)%nat.
Proof. unfold tier_calls. by rewrite filter_app, length_app. Qed.

Lemma tier_calls_refresh t u p : tier_calls t [EvRefresh u p] = 0%nat.
Proof. reflexivity. Qed.

Lemma tier_calls_tier t s t' q :
  tier_calls t [EvTier s t' q] = if decide (t' = t) then 1%nat else 0%nat.
Proof.
  unfold tier_calls. rewrite filter_cons, filter_nil. simpl.
  destruct (decide (t' = t)).
  - by rewrite bool_decide_true.
  - by rewrite bool_decide_false.
Qed.

Lemma quiet_ret {A} (a : A) : quiet (ret a).
Proof. intros w. by exists a, w. Qed.

Lemma quiet_bind {A B} (m : M A) (k : A → M B) :
  quiet m → (∀ a, quiet (k a)) → quiet (bind m k).
Proof.
  intros Hm Hk w. destruct (Hm w) as (a & w1 & Hrun & Ht).
  destruct (Hk a w1) as (b & w2 & Hrun' & Ht').
  exists b, w2. unfold bind. rewrite Hrun, Hrun'. split; [done|].
  intros t. by rewrite Ht', Ht.
Qed.

Lemma get_user_token_cases u p w :
  (∃ tok, get_user_token u p w = (Ok (Some tok), w))
  ∨ get_user_token u p w = (Ok None, w)
  ∨ get_user_token u p w = (Ok None, with_trace (trace w ++ [EvRefresh u p]) w).
Proof.
  unfold get_user_token.
  destruct (select_latest_token u p (social_tokens w)) as [row|]; [|by right; left].
  destruct (is_expired w row); [|left; by eexists].
  right; right. unfold refresh_token, bind, log, ret.
  destruct (String.eqb p "twitter"); [done|].
  by destruct (String.eqb p "linkedin").
Qed.

Lemma quiet_get_user_token u p : quiet (get_user_token u p).
Proof.
  intros w. destruct (get_user_token_cases u p w) as [[tok H]|[H|H]]; rewrite H.
  - by eexists _, _.
  - by eexists _, _.
  - eexists _, _. split; [done|]. intros t. simpl.
    by rewrite tier_calls_app, tier_calls_refresh, Nat.add_0_r.
Qed.

Lemma quiet_track_api_usage u p e : quiet (track_api_usage u p e).
Proof. intros w. by eexists _, _. Qed.

Lemma quiet_linkedin_scout_enhanced cfg net q uid :
  quiet (linkedin_scout_enhanced.linkedin_scout_enhanced cfg net q uid).
Proof.
  unfold linkedin_scout_enhanced.linkedin_scout_enhanced.
  apply quiet_bind.
  - destruct uid as [u|]; [|apply quiet_ret].
    destruct (str_truthy u); [|apply quiet_ret].
    apply quiet_bind; [apply quiet_get_user_token|].
    intros [tok|]; [|apply quiet_ret].
    apply quiet_bind; [|intros; apply quiet_ret].
    apply quiet_bind; [apply quiet_track_api_usage|intros; apply quiet_ret].
  - intros [ps|]; apply quiet_ret.
Qed.

Lemma quiet_x_scout_enhanced cfg net q uid :
  quiet (x_scout_enhanced.x_scout_enhanced cfg net q uid).
Proof.
  unfold x_scout_enhanced.x_scout_enhanced.
  apply quiet_bind.
  - destruct uid as [u|]; [|apply quiet_ret].
    destruct (str_truthy u); [|apply quiet_ret].
    apply quiet_bind; [apply quiet_get_user_token|].
    intros [tok|]; [|apply quiet_ret].
    apply quiet_bind; [|intros; apply quiet_ret].
    apply quiet_bind; [apply quiet_track_api_usage|intros; apply quiet_ret].
  - intros [ps|]; apply quiet_ret.
Qed.

Lemma try_Exception_ok {A} (r : result A) (h : exn → result A) :
  (∀ e, is_ok (h e)) → is_ok (try_Exception r h).
Proof. intros Hh. destruct r; simpl; [done|apply Hh]. Qed.

Lemma is_ok_inv {A} (r : result A) : is_ok r → ∃ a, r = Ok a.
Proof. destruct r; [eauto|done]. Qed.

Lemma linkedin_scout_real_ok cfg net q : is_ok (linkedin_scout_real.linkedin_scout cfg net q).
Proof.
  unfold linkedin_scout_real.linkedin_scout.
  destruct (negb _); [done|]. by apply try_Exception_ok.
Qed.

Lemma x_scout_real_ok cfg net q : is_ok (x_scout_real.x_scout cfg net q).
Proof.
  unfold x_scout_real.x_scout.
  destruct (negb _); [done|]. by apply try_Exception_ok.
Qed.

Lemma email_scout_real_ok cfg net q : is_ok (email_scout_real.scout_from_email cfg net q).
Proof.
  unfold email_scout_real.scout_from_email.
  destruct (negb _); [done|]. by apply try_Exception_ok.
Qed.

Lemma internet_scout_real_ok cfg net q : is_ok (internet_scout_real.internet_scout cfg net q).
Proof.
  unfold internet_scout_real.internet_scout.
  destruct (_ || _); [done|]. by apply try_Exception_ok.
Qed.

Lemma strategy_linkedin : strategy_is "linkedin_scout" "hybrid" = true.
Proof. by vm_compute. Qed.
Lemma strategy_x : strategy_is "x_scout" "hybrid" = true.
Proof. by vm_compute. Qed.
Lemma strategy_email : strategy_is "email_scout" "shared" = true.
Proof. by vm_compute. Qed.
Lemma strategy_internet : strategy_is "internet_scout" "shared" = true.
Proof. by vm_compute. Qed.

Lemma tier_entry_calls source platform u q w t :
  tier_calls t (trace (tier_entry source platform u q w))
  = (tier_calls t (trace w) + if decide (AuthenticatedUser = t) then 1 else 0)%nat.
Proof.
  unfold tier_entry, bind, track_api_usage, log. simpl.
  by rewrite tier_calls_app, tier_calls_tier.
Qed.

Lemma linkedin_strategy1_entered cfg mods net q u w tok w1 :
  str_truthy u = true →
  imports_linkedin_scout_enhanced mods = true →
  get_user_token u "linkedin" w = (Ok (Some tok), w1) →
  linkedin_scout.strategy1 cfg mods net q (Some u) w
  = match linkedin_scout_enhanced.linkedin_scout_enhanced cfg net q (Some u)
            (tier_entry "linkedin" "linkedin" u q w1) with
    | (Ok ps, w2) =>
        (Ok (if nonempty ps && tagged "linkedin_oauth" ps then Some ps else None), w2)
    | (Raise ImportError, w2) => (Ok None, w2)
    | (Raise e, w2) => (Raise e, w2)
    end.
Proof.
  intros Hu Hi Ht. unfold linkedin_scout.strategy1. rewrite Hu, strategy_linkedin. simpl.
  unfold bind at 1. rewrite Ht. unfold except_ImportError, bind, import, tier_entry, bind.
  rewrite Hi. simpl.
  destruct (linkedin_scout_enhanced.linkedin_scout_enhanced _ _ _ _ _) as [[ps|e] w2].
  - unfold ret. by destruct (nonempty ps && tagged "linkedin_oauth" ps).
  - by destruct e.
Qed.

Lemma x_strategy1_entered cfg mods net q u w tok w1 :
  str_truthy u = true →
  imports_x_scout_enhanced mods = true →
  get_user_token u "twitter" w = (Ok (Some tok), w1) →
  x_scout.strategy1 cfg mods net q (Some u) w
  = match x_scout_enhanced.x_scout_enhanced cfg net q (Some u)
            (tier_entry "x" "twitter" u q w1) with
    | (Ok ps, w2) =>
        (Ok (if nonempty ps && tagged "twitter_oauth" ps then Some ps else None), w2)
    | (Raise ImportError, w2) => (Ok None, w2)
    | (Raise e, w2) => (Raise e, w2)
    end.
Proof.
  intros Hu Hi Ht. unfold x_scout.strategy1. rewrite Hu, strategy_x. simpl.
  unfold bind at 1. rewrite Ht. unfold except_ImportError, bind, import, tier_entry, bind.
  rewrite Hi. simpl.
  destruct (x_scout_enhanced.x_scout_enhanced _ _ _ _ _) as [[ps|e] w2].
  - unfold ret. by destruct (nonempty ps && tagged "twitter_oauth" ps).
  - by destruct e.
Qed.

Lemma linkedin_strategy1_cases cfg mods net q uid w :
  ∃ r w1, linkedin_scout.strategy1 cfg mods net q uid w = (Ok r, w1)
          ∧ strategy1_outcome "linkedin_oauth" w r w1.
Proof.
  destruct uid as [u|]; [|by exists None, w].
  destruct (str_truthy u) eqn:Hu; [|exists None, w; simpl; by rewrite Hu].
  destruct (get_user_token_cases u "linkedin" w) as [[tok H]|[H|H]].
  - destruct (imports_linkedin_scout_enhanced mods) eqn:Hi.
    + rewrite (linkedin_strategy1_entered _ _ _ _ _ _ _ _ Hu Hi H).
      destruct (quiet_linkedin_scout_enhanced cfg net q (Some u)
                  (tier_entry "linkedin" "linkedin" u q w)) as (ps & w2 & -> & Hq).
      eexists _, _. split; [done|].
      unfold strategy1_outcome. rewrite !Hq, !tier_entry_calls. simpl.
      split_and!; [lia|lia|].
      destruct (nonempty ps && tagged "linkedin_oauth" ps) eqn:Hc; [|done].
      apply andb_true_iff in Hc as [-> ->]. split_and!; [done|done|lia].
    + exists None, w. split; [|done].
      unfold linkedin_scout.strategy1. rewrite Hu, strategy_linkedin. simpl. unfold bind at 1. rewrite H.
      unfold except_ImportError, bind, import. by rewrite Hi.
  - exists None, w. split; [|done].
    unfold linkedin_scout.strategy1. rewrite Hu, strategy_linkedin. simpl. unfold bind. by rewrite H.
  - eexists None, _. split.
    + unfold linkedin_scout.strategy1. rewrite Hu, strategy_linkedin. simpl. unfold bind. by rewrite H.
    + unfold strategy1_outcome. simpl.
      by rewrite !tier_calls_app, !tier_calls_refresh, !Nat.add_0_r.
Qed.

Lemma x_strategy1_cases cfg mods net q uid w :
  ∃ r w1, x_scout.strategy1 cfg mods net q uid w = (Ok r, w1)
          ∧ strategy1_outcome "twitter_oauth" w r w1.
Proof.
  destruct uid as [u|]; [|by exists None, w].
  destruct (str_truthy u) eqn:Hu; [|exists None, w; simpl; by rewrite Hu].
  destruct (get_user_token_cases u "twitter" w) as [[tok H]|[H|H]].
  - destruct (imports_x_scout_enhanced mods) eqn:Hi.
    + rewrite (x_strategy1_entered _ _ _ _ _ _ _ _ Hu Hi H).
      destruct (quiet_x_scout_enhanced cfg net q (Some u)
                  (tier_entry "x" "twitter" u q w)) as (ps & w2 & -> & Hq).
      eexists _, _. split; [done|].
      unfold strategy1_outcome. rewrite !Hq, !tier_entry_calls. simpl.
      split_and!; [lia|lia|].
      destruct (nonempty ps && tagged "twitter_oauth" ps) eqn:Hc; [|done].
      apply andb_true_iff in Hc as [-> ->]. split_and!; [done|done|lia].
    + exists None, w. split; [|done].
      unfold x_scout.strategy1. rewrite Hu, strategy_x. simpl. unfold bind at 1. rewrite H.
      unfold except_ImportError, bind, import. by rewrite Hi.
  - exists None, w. split; [|done].
    unfold x_scout.strategy1. rewrite Hu, strategy_x. simpl. unfold bind. by rewrite H.
  - eexists None, _. split.
    + unfold x_scout.strategy1. rewrite Hu, strategy_x. simpl. unfold bind. by rewrite H.
    + unfold strategy1_outcome. simpl.
      by rewrite !tier_calls_app, !tier_calls_refresh, !Nat.add_0_r.
Qed.

Lemma shared_then_offline source q imports (real : result (list profile)) mock w0 w :
  is_ok real →
  tier_calls SharedService (trace w) = tier_calls SharedService (trace w0) →
  tier_calls OfflineFallback (trace w) = tier_calls OfflineFallback (trace w0) →
  ∃ ps w',
    bind (except_ImportError
            (bind (import imports) (λ _,
             bind (log (EvTier source SharedService q)) (λ _,
             bind (lift real) (λ profiles, ret (Some profiles)))))
            (ret None))
         (λ second, match second with
                    | Some profiles => ret profiles
                    | None => bind (log (EvTier source OfflineFallback q)) (λ _, ret mock)
                    end) w = (Ok ps, w')
    ∧ chain_outcome None imports real mock w0 ps w'.
Proof.
  intros [ps Hreal]%is_ok_inv Hs Ho. destruct imports.
  - exists ps, (with_trace (trace w ++ [EvTier source SharedService q]) w). split.
    + unfold bind, except_ImportError, import, log, lift, ret. by rewrite Hreal.
    + right; left. simpl. rewrite !tier_calls_app, !tier_calls_tier, Hs, Ho. simpl.
      split_and!; [done|done|lia|lia].
  - exists mock, (with_trace (trace w ++ [EvTier source OfflineFallback q]) w). split; [done|].
    right; right. simpl. rewrite !tier_calls_app, !tier_calls_tier, Hs, Ho. simpl.
    split_and!; [done|done|lia|lia].
Qed.

Lemma chain_outcome_tag tag imports real mock w ps w' :
  chain_outcome None imports real mock w ps w' → chain_outcome tag imports real mock w ps w'.
Proof.
  intros [(tg & [=] & _)|H]; by right.
Qed.

Lemma linkedin_scout_cases cfg mods net q uid w :
  ∃ ps w', linkedin_scout.linkedin_scout cfg mods net q uid w = (Ok ps, w')
           ∧ chain_outcome (Some "linkedin_oauth") (imports_linkedin_scout_real mods)
               (linkedin_scout_real.linkedin_scout cfg net q) linkedin_scout.mock w ps w'.
Proof.
  destruct (linkedin_strategy1_cases cfg mods net q uid w) as (r & w1 & H1 & Hs & Ho & Hr).
  unfold linkedin_scout.linkedin_scout. unfold bind at 1. rewrite H1.
  destruct r as [ps|].
  - exists ps, w1. split; [done|]. left. exists "linkedin_oauth".
    destruct Hr as (? & ? & ?). by split_and!.
  - destruct (shared_then_offline "linkedin" q (imports_linkedin_scout_real mods)
                (linkedin_scout_real.linkedin_scout cfg net q) linkedin_scout.mock w w1
                (linkedin_scout_real_ok _ _ _) Hs Ho) as (ps & w' & Hrun & Hout).
    exists ps, w'. split; [exact Hrun|]. by apply chain_outcome_tag.
Qed.

Lemma x_scout_cases cfg mods net q uid w :
  ∃ ps w', x_scout.x_scout cfg mods net q uid w = (Ok ps, w')
           ∧ chain_outcome (Some "twitter_oauth") (imports_x_scout_real mods)
               (x_scout_real.x_scout cfg net q) x_scout.mock w ps w'.
Proof.
  destruct (x_strategy1_cases cfg mods net q uid w) as (r & w1 & H1 & Hs & Ho & Hr).
  unfold x_scout.x_scout. unfold bind at 1. rewrite H1.
  destruct r as [ps|].
  - exists ps, w1. split; [done|]. left. exists "twitter_oauth".
    destruct Hr as (? & ? & ?). by split_and!.
  - destruct (shared_then_offline "x" q (imports_x_scout_real mods)
                (x_scout_real.x_scout cfg net q) x_scout.mock w w1
                (x_scout_real_ok _ _ _) Hs Ho) as (ps & w' & Hrun & Hout).
    exists ps, w'. split; [exact Hrun|]. by apply chain_outcome_tag.
Qed.

Lemma email_scout_cases cfg mods net q uid w :
  ∃ ps w', email_scout.scout_from_email cfg mods net q uid w = (Ok ps, w')
           ∧ chain_outcome None (imports_email_scout_real mods)
               (email_scout_real.scout_from_email cfg net q) email_scout.mock w ps w'.
Proof.
  unfold email_scout.scout_from_email, email_scout.shared. rewrite strategy_email.
  apply (shared_then_offline "email" q (imports_email_scout_real mods)
           (email_scout_real.scout_from_email cfg net q) email_scout.mock w w
           (email_scout_real_ok _ _ _) eq_refl eq_refl).
Qed.

Lemma internet_scout_cases cfg mods net q uid w :
  ∃ ps w', internet_scout.internet_scout cfg mods net q uid w = (Ok ps, w')
           ∧ chain_outcome None (imports_internet_scout_real mods)
               (internet_scout_real.internet_scout cfg net q) internet_scout.mock w ps w'.
Proof.
  unfold internet_scout.internet_scout, internet_scout.shared. rewrite strategy_internet.
  apply (shared_then_offline "internet" q (imports_internet_scout_real mods)
           (internet_scout_real.internet_scout cfg net q) internet_scout.mock w w
           (internet_scout_real_ok _ _ _) eq_refl eq_refl).
Qed.

Lemma refresh_token_fails u p rt w :
  refresh_token u p rt w = (Ok None, with_trace (trace w ++ [EvRefresh u p]) w).
Proof.
  unfold refresh_token, bind, log, ret.
  destruct (String.eqb p "twitter"); [done|].
  by destruct (String.eqb p "linkedin").
Qed.

Lemma get_user_token_expired u p w row :
  select_latest_token u p (social_tokens w) = Some row →
  is_expired w row = true →
  get_user_token u p w = (Ok None, with_trace (trace w ++ [EvRefresh u p]) w).
Proof.
  intros Hrow Hexp. unfold get_user_token. rewrite Hrow, Hexp.
  unfold bind. by rewrite refresh_token_fails.
Qed.

Lemma is_expired_later w w' row :
  is_expired w row = true → (local_now w ≤ local_now w')%Qc → is_expired w' row = true.
Proof.
  unfold is_expired. destruct (tok_expires_at row) as [t|]; [|done].
  rewrite !bool_decide_eq_true. intros Hlt Hle. by eapply Qclt_le_trans.
Qed.

Lemma Qc_le_plus_nonneg (a d : Qc) : (0 ≤ d)%Qc → (a ≤ a + d)%Qc.
Proof.
  intros Hd. rewrite <- (Qcplus_0_r a) at 1.
  apply Qcplus_le_compat; [apply Qcle_refl|done].
Qed.

Lemma refresh_attempts_snoc u p tr :
  refresh_attempts u p (tr ++ [EvRefresh u p]) = S (refresh_attempts u p tr).
Proof.
  unfold refresh_attempts. rewrite filter_app, length_app, filter_cons, filter_nil.
  rewrite decide_True by done. simpl. lia.
Qed.

Lemma expired_token_cases u p w row :
  select_latest_token u p (social_tokens w) = Some row →
  is_expired w row = true →
  let w1 := with_trace (trace w ++ [EvRefresh u p]) w in
  get_user_token u p w = (Ok None, w1)
  ∧ social_tokens w1 = social_tokens w
  ∧ refresh_attempts u p (trace w1) = S (refresh_attempts u p (trace w))
  ∧ ∀ dt ds, (0 ≤ dt)%Qc →
      ∃ w3, get_user_token u p (advance dt ds w1) = (Ok None, w3)
            ∧ social_tokens w3 = social_tokens w
            ∧ refresh_attempts u p (trace w3) = S (S (refresh_attempts u p (trace w))).
Proof.
  intros Hrow Hexp w1. split_and!.
  - by apply get_user_token_expired with row.
  - done.
  - apply refresh_attempts_snoc.
  - intros dt ds Hdt. eexists. split_and!.
    + apply get_user_token_expired with row; [exact Hrow|].
      eapply is_expired_later; [exact Hexp|]. simpl. by apply Qc_le_plus_nonneg.
    + done.
    + simpl. by rewrite !refresh_attempts_snoc.
Qed.

Lemma next_id_fresh ids i : i ∈ ids → i < next_id ids.
Proof.
  unfold next_id. induction ids as [|j ids IH]; [by inversion 1|].
  intros [->|Hin]%elem_of_cons; simpl; [lia|]. specialize (IH Hin). lia.
Qed.

Lemma filter_all {A} (P : A → Prop) `{!∀ x, Decision (P x)} (l : list A) :
  Forall P l → filter P l = l.
Proof.
  induction 1 as [|x l Hx _ IH]; [done|]. by rewrite filter_cons_True, IH.
Qed.

Lemma filter_none {A} (P : A → Prop) `{!∀ x, Decision (P x)} (l : list A) :
  Forall (λ x, ¬ P x) l → filter P l = [].
Proof.
  induction 1 as [|x l Hx _ IH]; [done|]. by rewrite filter_cons_False, IH.
Qed.

Lemma insert_or_replace_token_fresh (r : token_row) rows :
  tok_id r = next_id (tok_id <$> rows) → insert_or_replace_token r rows = rows ++ [r].
Proof.
  intros Hid. unfold insert_or_replace_token. f_equal.
  apply filter_all, Forall_forall. intros r' Hin.
  assert (tok_id r' < next_id (tok_id <$> rows)).
  { apply next_id_fresh, list_elem_of_fmap. by exists r'. }
  lia.
Qed.

Lemma store_social_token_appends u p td w w' :
  store_social_token u p td w = (Ok tt, w') →
  ∃ row, social_tokens w' = social_tokens w ++ [row]
         ∧ tok_user_id row = u ∧ tok_platform row = p.
Proof.
  unfold store_social_token. intros H.
  destruct (match td !! "expires_in" with
            | Some (VNum secs) => Ok (Some (local_now w + secs)%Qc)
            | Some _ => Raise TypeError
            | None => Ok None
            end) as [ex|]; [|done].
  destruct (bindable _ && bindable _); [|done].
  injection H as <-. simpl. eexists. split; [by apply insert_or_replace_token_fresh|done].
Qed.

Lemma token_matches_refl u p r :
  tok_user_id r = u → tok_platform r = p → token_matches u p r = true.
Proof. intros <- <-. unfold token_matches. by rewrite !bool_decide_true. Qed.

Lemma store_social_token_adds_row u p td w w' :
  store_social_token u p td w = (Ok tt, w') →
  length (credential_rows u p w') = S (length (credential_rows u p w)).
Proof.
  intros (row & Hrows & Hu & Hp)%store_social_token_appends.
  unfold credential_rows. rewrite Hrows, filter_app, length_app, filter_cons_True.
  - simpl. lia.
  - by apply token_matches_refl.
Qed.

Section usage.
Variables (u p e : string).

Lemma usage_matches_key d r :
  usage_matches (Some u) p e d r = true ↔ of_pair u p r ∧ use_endpoint r = e ∧ use_date r = d.
Proof.
  unfold usage_matches, of_pair. rewrite !andb_true_iff, !String.eqb_eq, Z.eqb_eq.
  tauto.
Qed.

Lemma track_rows d rows cs :
  only_key u p e d rows cs →
  only_key u p e d
    ((λ r, if usage_matches (Some u) p e d r then increment r else r) <$> rows)
    ((λ c, c + 1) <$> cs).
Proof.
  intros [<- Hall]. induction Hall as [|r rows Hr Hall IH]; [done|].
  destruct IH as [IH1 IH2]. rewrite fmap_cons.
  destruct (usage_matches (Some u) p e d r) eqn:Hm.
  - apply usage_matches_key in Hm as (Hp & He & Hd).
    split.
    + rewrite !filter_cons_True; [|done|done]. rewrite !fmap_cons, IH1. done.
    + by constructor.
  - assert (¬ of_pair u p r) as Hn.
    { intros Hp. destruct (Hr Hp) as [He Hd].
      assert (usage_matches (Some u) p e d r = true) by by apply usage_matches_key.
      congruence. }
    split.
    + by rewrite !filter_cons_False.
    + by constructor.
Qed.

Lemma track_api_usage_key w cs :
  only_key u p e (today w) (api_usage w) cs →
  ∃ w', track_api_usage (Some u) p e w = (Ok tt, w')
        ∧ today w' = today w
        ∧ only_key u p e (today w') (api_usage w') (((λ c, c + 1) <$> cs) ++ [2]).
Proof.
  intros Hk. eexists. split; [reflexivity|]. split; [done|]. simpl.
  rewrite fmap_app. apply track_rows in Hk as [Hk1 Hk2].
  split.
  - rewrite filter_app, fmap_app, Hk1. f_equal.
    rewrite fmap_cons, fmap_nil.
    assert (usage_matches (Some u) p e (today w)
              {| use_id := next_id (use_id <$> api_usage w); use_user_id := Some u;
                 use_platform := p; use_endpoint := e; use_usage_count := 1;
                 use_date := today w |} = true) as ->.
    { apply usage_matches_key. unfold of_pair. simpl. by rewrite String.eqb_refl. }
    rewrite filter_cons_True; [done|]. unfold of_pair. simpl. by rewrite String.eqb_refl.
  - apply Forall_app. split; [done|]. rewrite fmap_cons, fmap_nil.
    constructor; [|constructor]. intros _.
    by destruct (usage_matches _ _ _ _ _).
Qed.
End usage.

Lemma foldl_group_one_endpoint e rows : ∀ m : gmap string Z,
  Forall (λ r, use_endpoint r = e) rows →
  foldl group_sum m rows
  = match rows with
    | [] => m
    | _ => <[e := default 0 (m !! e) + foldr Z.add 0 (use_usage_count <$> rows)]> m
    end.
Proof.
  induction rows as [|r rows IH]; intros m Hall; [done|].
  apply Forall_cons in Hall as [He Hall]. simpl. rewrite (IH _ Hall).
  assert (group_sum m r = <[e := default 0 (m !! e) + use_usage_count r]> m) as ->.
  { unfold group_sum. by rewrite He. }
  destruct rows as [|r' rows'].
  - simpl. by rewrite Z.add_0_r.
  - rewrite lookup_insert_eq, insert_insert_eq. simpl. f_equal. lia.
Qed.

Lemma filter_ext_Forall {A} (P1 P2 : A → Prop)
    `{!∀ x, Decision (P1 x), !∀ x, Decision (P2 x)} (l : list A) :
  Forall (λ x, P1 x ↔ P2 x) l → filter P1 l = filter P2 l.
Proof.
  induction 1 as [|x l Hx _ IH]; [done|].
  rewrite !filter_cons, IH. destruct (decide (P1 x)), (decide (P2 x)); tauto.
Qed.

Lemma get_user_usage_key u p e w cs :
  only_key u p e (today w) (api_usage w) cs →
  get_user_usage u p 1 w
  = (Ok (match cs with [] => ∅ | _ => {[ e := foldr Z.add 0 cs ]} end), w).
Proof.
  intros [Hcs Hall]. unfold get_user_usage. cbv zeta.
  assert (filter (λ r, sql_eq (use_user_id r) (Some u) = true ∧ use_platform r = p
                       ∧ today w - Z.of_nat 1 ≤ use_date r) (api_usage w)
          = filter (of_pair u p) (api_usage w)) as ->.
  { apply filter_ext_Forall. eapply Forall_impl; [exact Hall|].
    intros r Hr. unfold of_pair in *. split; [tauto|]. intros Hp.
    destruct (Hr Hp) as [_ ->]. split_and!; [tauto|tauto|lia]. }
  rewrite (foldl_group_one_endpoint e).
  - subst cs. destruct (filter (of_pair u p) (api_usage w)) eqn:Hf; [done|].
    rewrite lookup_empty. simpl. by rewrite insert_empty.
  - apply Forall_forall. intros r [Hp Hin]%list_elem_of_filter.
    rewrite Forall_forall in Hall. by apply Hall.
Qed.

Lemma track_three_then_usage u p e w :
  Forall (λ r, ¬ of_pair u p r) (api_usage w) →
  ∃ w3,
    bind (track_api_usage (Some u) p e) (λ _,
    bind (track_api_usage (Some u) p e) (λ _,
    bind (track_api_usage (Some u) p e) (λ _,
    get_user_usage u p 1))) w = (Ok {[ e := 9 ]}, w3).
Proof.
  intros Hnone.
  assert (only_key u p e (today w) (api_usage w) []) as H0.
  { split; [by rewrite filter_none|]. eapply Forall_impl; [exact Hnone|].
    intros r Hn Hp. by destruct Hn. }
  destruct (track_api_usage_key u p e w _ H0) as (w1 & R1 & Hd1 & H1).
  destruct (track_api_usage_key u p e w1 _ H1) as (w2 & R2 & Hd2 & H2).
  destruct (track_api_usage_key u p e w2 _ H2) as (w3 & R3 & Hd3 & H3).
  exists w3. unfold bind. rewrite R1, R2, R3.
  by rewrite (get_user_usage_key u p e w3 _ H3).
Qed.

Lemma collected_app a b : collected (a ++ b) = collected a ++ collected b.
Proof. unfold collected. by rewrite fmap_app, concat_app. Qed.

Lemma failures_app str a b : failures str (a ++ b) = failures str a ++ failures str b.
Proof. unfold failures. by rewrite omap_app. Qed.

Lemma run_all_app a b w :
  run_all (a ++ b) w
  = ((run_all a w).1 ++ (run_all b (run_all a w).2).1, (run_all b (run_all a w).2).2).
Proof.
  revert w. induction a as [|[label call] a IH]; intros w; simpl.
  - by destruct (run_all b w).
  - destruct (call w) as [r w1]. rewrite IH.
    destruct (run_all a w1) as [o1 w2]. simpl.
    by destruct (run_all b w2).
Qed.

Lemma run_all_length calls w : length (run_all calls w).1 = length calls.
Proof.
  revert w. induction calls as [|[label call] calls IH]; intros w; simpl; [done|].
  destruct (call w) as [r w1]. specialize (IH w1).
  destruct (run_all calls w1). simpl in *. by rewrite IH.
Qed.

Section route.
Variables (uuid4 : nat → string) (str : exn → string) (format : pyval → string).
Variable interpret_goal : string → string → list string → result (gmap string (list string)).
Variables scout_from_email linkedin_scout x_scout internet_scout
  : string → option string → M (list profile).
Variable generate_message : profile → string → string → result string.

Lemma scout_each_run_all scout describe uid qs : ∀ acc w,
  app.scout_each str scout describe uid qs acc w
  = let '(outs, w') := run_all ((λ q, (describe q, scout q uid)) <$> qs) w in
    (Ok (acc.1 ++ collected outs, acc.2 ++ failures str outs), w').
Proof.
  induction qs as [|q qs IH]; intros [ps errs] w; simpl.
  - unfold ret. by rewrite !app_nil_r.
  - unfold bind, except_Exception. destruct (scout q uid w) as [[found|e] w1]; simpl.
    + rewrite IH. destruct (run_all _ w1) as [outs w2]. simpl.
      unfold collected. rewrite fmap_cons. simpl. by rewrite app_assoc.
    + rewrite IH. destruct (run_all _ w1) as [outs w2]. simpl.
      unfold failures, collected. rewrite fmap_cons. simpl. by rewrite <- app_assoc.
Qed.

Lemma scouting_run_all emails plan uid w :
  app.scouting str scout_from_email linkedin_scout x_scout internet_scout emails plan uid w
  = let '(outs, w') :=
      run_all (scout_calls scout_from_email linkedin_scout x_scout internet_scout
                 emails plan uid) w in
    (Ok (collected outs, failures str outs), w').
Proof.
  unfold app.scouting, scout_calls, bind.
  rewrite !scout_each_run_all, !run_all_app.
  repeat (destruct (run_all _ _) as [? ?]; simpl; rewrite ?scout_each_run_all).
  by rewrite !collected_app, !failures_app, !app_assoc.
Qed.

Lemma generate_messages_ok goal company_info ps errs :
  Forall (λ p, is_ok (generate_message p goal company_info)) ps →
  app.generate_messages str format generate_message ps goal company_info errs
  = (add_message generate_message goal company_info <$> ps, errs).
Proof.
  induction 1 as [|p ps Hp _ IH]; [done|].
  simpl. rewrite IH. unfold add_message.
  by destruct (generate_message p goal company_info).
Qed.

Lemma lead_discovery_success req emails company_info goal n plan w uid w0 outs w1 :
  req_is_json req = true →
  req_emails req = Some emails → emails ≠ [] →
  req_company_info req = Some company_info → str_truthy company_info = true →
  req_goal req = Some goal → str_truthy goal = true →
  app.requested_target req = Some n →
  app.resolve_user uuid4 req w = (Ok uid, w0) →
  interpret_goal goal company_info emails = Ok plan →
  run_all (scout_calls scout_from_email linkedin_scout x_scout internet_scout
             emails plan uid) w0 = (outs, w1) →
  collected outs ≠ [] →
  Forall has_hashable_name (collected outs) →
  (∀ p, is_ok (generate_message p goal company_info)) →
  let kept := take (Z.to_nat n) (set_score <$> first_occurrences (collected outs)) in
  app.lead_discovery uuid4 str format interpret_goal scout_from_email linkedin_scout
    x_scout internet_scout generate_message req w
  = (Ok (Discovery (add_message generate_message goal company_info <$> kept)
           (length (collected outs)) (length kept) uid
           (if nonempty (failures str outs) then Some (failures str outs) else None)),
     w1).
Proof.
  intros Hjson Hemails Hne Hci Hcit Hgoal Hgt Hn Huser Hplan Hrun Hcol Hnames Hmsg kept.
  unfold app.lead_discovery, except_Exception, app.lead_discovery_body.
  rewrite Hjson, Hemails. simpl. destruct emails as [|e0 emails']; [done|].
  rewrite Hci, Hgoal. simpl. rewrite Hcit, Hgt. simpl.
  unfold bind at 1. rewrite Huser, Hn, Hplan.
  unfold bind. rewrite scouting_run_all, Hrun.
  assert (nonempty (collected outs) = true) as ->.
  { by destruct (collected outs). }
  cbn [negb].
  pose proof (proj2 (validate_and_rank_ok_iff (collected outs) goal company_info) Hnames)
    as Hok.
  destruct (validate_and_rank (collected outs) goal company_info) as [ranked|] eqn:Hv;
    [|done].
  apply validate_and_rank_first_occurrences in Hv. subst ranked.
  rewrite generate_messages_ok by (apply Forall_forall; auto).
  subst kept. unfold ret. by rewrite length_fmap.
Qed.
Lemma lead_discovery_no_profiles req emails company_info goal n plan w uid w0 outs w1 :
  req_is_json req = true →
  req_emails req = Some emails → emails ≠ [] →
  req_company_info req = Some company_info → str_truthy company_info = true →
  req_goal req = Some goal → str_truthy goal = true →
  app.requested_target req = Some n →
  app.resolve_user uuid4 req w = (Ok uid, w0) →
  interpret_goal goal company_info emails = Ok plan →
  run_all (scout_calls scout_from_email linkedin_scout x_scout internet_scout
             emails plan uid) w0 = (outs, w1) →
  collected outs = [] →
  app.lead_discovery uuid4 str format interpret_goal scout_from_email linkedin_scout
    x_scout internet_scout generate_message req w
  = (Ok (NoProfiles (failures str outs) uid), w1).
Proof.
  intros Hjson Hemails Hne Hci Hcit Hgoal Hgt Hn Huser Hplan Hrun Hcol.
  unfold app.lead_discovery, except_Exception, app.lead_discovery_body.
  rewrite Hjson, Hemails. simpl. destruct emails as [|e0 emails']; [done|].
  rewrite Hci, Hgoal. simpl. rewrite Hcit, Hgt. simpl.
  unfold bind at 1. rewrite Huser, Hn, Hplan.
  unfold bind. by rewrite scouting_run_all, Hrun, Hcol.
Qed.
End route.

(** ** The untyped entry points *)

Lemma quiet_returns {A} (m : M A) : quiet m → returns m.
Proof. intros H w. destruct (H w) as (a & w' & Hrun & _). eauto. Qed.

Lemma returns_ret {A} (a : A) : returns (ret a).
Proof. intros w. by exists a, w. Qed.

Lemma returns_bind {A B} (m : M A) (k : A → M B) :
  returns m → (∀ a, returns (k a)) → returns (bind m k).
Proof.
  intros Hm Hk w. destruct (Hm w) as (a & w1 & Hrun).
  destruct (Hk a w1) as (b & w2 & Hrun').
  exists b, w2. unfold bind. by rewrite Hrun, Hrun'.
Qed.

Lemma returns_log e : returns (log e).
Proof. intros w. by eexists _, _. Qed.

Section untyped_store.
Variable sqlite_text : Qc → result string.

Lemma untyped_get_user_token_bound v key p w :
  untyped_auth.bind_user_id sqlite_text v = Ok key →
  untyped_auth.get_user_token None sqlite_text v p w
  = match key with
    | Some u => get_user_token u p w
    | None => (Ok None, w)
    end.
Proof.
  intros Hkey. unfold untyped_auth.get_user_token, untyped_auth.connect, bind, lift, ret.
  rewrite Hkey. by destruct key.
Qed.

Lemma untyped_get_user_token_down e v p w :
  untyped_auth.get_user_token (Some e) sqlite_text v p w = (Raise e, w).
Proof. reflexivity. Qed.

Lemma untyped_get_user_token_refused e v p w :
  untyped_auth.bind_user_id sqlite_text v = Raise e →
  untyped_auth.get_user_token None sqlite_text v p w = (Raise e, w).
Proof.
  intros Hkey. unfold untyped_auth.get_user_token, untyped_auth.connect, bind, lift, ret.
  by rewrite Hkey.
Qed.

Lemma untyped_track_api_usage_bound v key p e w :
  untyped_auth.bind_user_id sqlite_text v = Ok key →
  untyped_auth.track_api_usage None sqlite_text v p e w = track_api_usage key p e w.
Proof.
  intros Hkey. unfold untyped_auth.track_api_usage, untyped_auth.connect, bind, lift, ret.
  by rewrite Hkey.
Qed.

Lemma returns_untyped_get_user_token v p :
  is_ok (untyped_auth.bind_user_id sqlite_text v) →
  returns (untyped_auth.get_user_token None sqlite_text v p).
Proof.
  intros [key Hkey]%is_ok_inv w. rewrite (untyped_get_user_token_bound _ _ _ _ Hkey).
  destruct key as [u|]; [|by eexists _, _].
  apply quiet_returns, quiet_get_user_token.
Qed.

Lemma returns_untyped_track_api_usage v p e :
  is_ok (untyped_auth.bind_user_id sqlite_text v) →
  returns (untyped_auth.track_api_usage None sqlite_text v p e).
Proof.
  intros [key Hkey]%is_ok_inv w. rewrite (untyped_track_api_usage_bound _ _ _ _ _ Hkey).
  by eexists _, _.
Qed.

Lemma returns_except_Exception {A} (m : M A) (h : exn → M A) :
  (∀ e, returns (h e)) → returns (except_Exception m h).
Proof.
  intros Hh w. unfold except_Exception. destruct (m w) as [[a|e] w1]; [by eexists _, _|].
  apply Hh.
Qed.

Lemma returns_untyped_linkedin_enhanced cfg net q v :
  is_ok (untyped_auth.bind_user_id sqlite_text v) →
  returns (untyped_linkedin.linkedin_scout_enhanced cfg net None sqlite_text q v).
Proof.
  intros Hv. unfold untyped_linkedin.linkedin_scout_enhanced. apply returns_bind.
  - destruct (truthy v); [|apply returns_ret].
    apply returns_bind; [by apply returns_untyped_get_user_token|].
    intros [token|]; [|apply returns_ret].
    apply returns_bind; [|intros ps; apply returns_ret].
    apply returns_except_Exception. intros e. apply returns_ret.
  - intros [ps|]; apply returns_ret.
Qed.

Lemma returns_untyped_x_enhanced cfg net q v :
  is_ok (untyped_auth.bind_user_id sqlite_text v) →
  returns (untyped_x.x_scout_enhanced cfg net None sqlite_text q v).
Proof.
  intros Hv. unfold untyped_x.x_scout_enhanced. apply returns_bind.
  - destruct (truthy v); [|apply returns_ret].
    apply returns_bind; [by apply returns_untyped_get_user_token|].
    intros [token|]; [|apply returns_ret].
    apply returns_bind; [|intros ps; apply returns_ret].
    apply returns_except_Exception. intros e. apply returns_ret.
  - intros [ps|]; apply returns_ret.
Qed.

Lemma returns_tier source q (enhanced_imports : bool) (track : M unit)
    (enhanced : M (list profile)) (tag : string) :
  returns track → returns enhanced →
  returns (except_ImportError
             (bind (import enhanced_imports) (λ _,
              bind track (λ _,
              bind (log (EvTier source AuthenticatedUser q)) (λ _,
              bind enhanced (λ profiles,
              if nonempty profiles && tagged tag profiles
              then ret (Some profiles) else ret None)))))
             (ret None)).
Proof.
  intros Htrack Henh w. unfold except_ImportError, import.
  destruct enhanced_imports; [|by eexists _, _].
  unfold bind at 1. unfold ret at 1.
  destruct (Htrack w) as ([] & w1 & Hw1). unfold bind at 1. rewrite Hw1.
  unfold bind at 1. unfold log at 1.
  destruct (Henh (with_trace (trace w1 ++ [EvTier source AuthenticatedUser q]) w1))
    as (ps & w2 & Hw2).
  unfold bind. rewrite Hw2.
  destruct (nonempty ps && tagged tag ps); by eexists _, _.
Qed.

Lemma returns_lower_tiers source q imports (real : result (list profile)) mock :
  is_ok real →
  returns (bind (except_ImportError
                   (bind (import imports) (λ _,
                    bind (log (EvTier source SharedService q)) (λ _,
                    bind (lift real) (λ profiles, ret (Some profiles)))))
                   (ret None))
                (λ second, match second with
                           | Some profiles => ret profiles
                           | None => bind (log (EvTier source OfflineFallback q))
                                          (λ _, ret mock)
                           end)).
Proof.
  intros Hreal w.
  destruct (shared_then_offline source q imports real mock w w Hreal eq_refl eq_refl)
    as (ps & w' & Hrun & _).
  eauto.
Qed.

Lemma untyped_linkedin_scout_returns cfg mods net q v :
  is_ok (untyped_auth.bind_user_id sqlite_text v) →
  returns (untyped_linkedin.linkedin_scout cfg mods net None sqlite_text q v).
Proof.
  intros Hv. unfold untyped_linkedin.linkedin_scout. apply returns_bind.
  - unfold untyped_linkedin.strategy1.
    destruct (truthy v && strategy_is "linkedin_scout" "hybrid"); [|apply returns_ret].
    apply returns_bind; [by apply returns_untyped_get_user_token|].
    intros [token|]; [|apply returns_ret].
    apply returns_tier.
    + by apply returns_untyped_track_api_usage.
    + by apply returns_untyped_linkedin_enhanced.
  - intros [ps|]; [apply returns_ret|].
    apply returns_lower_tiers, linkedin_scout_real_ok.
Qed.

Lemma untyped_x_scout_returns cfg mods net q v :
  is_ok (untyped_auth.bind_user_id sqlite_text v) →
  returns (untyped_x.x_scout cfg mods net None sqlite_text q v).
Proof.
  intros Hv. unfold untyped_x.x_scout. apply returns_bind.
  - unfold untyped_x.strategy1.
    destruct (truthy v && strategy_is "x_scout" "hybrid"); [|apply returns_ret].
    apply returns_bind; [by apply returns_untyped_get_user_token|].
    intros [token|]; [|apply returns_ret].
    apply returns_tier.
    + by apply returns_untyped_track_api_usage.
    + by apply returns_untyped_x_enhanced.
  - intros [ps|]; [apply returns_ret|].
    apply returns_lower_tiers, x_scout_real_ok.
Qed.

(** Without a truthy user id the credential store is not consulted. *)
Lemma untyped_linkedin_scout_anonymous cfg mods net sqlite_error q v :
  truthy v = false →
  returns (untyped_linkedin.linkedin_scout cfg mods net sqlite_error sqlite_text q v).
Proof.
  intros Hv. unfold untyped_linkedin.linkedin_scout, untyped_linkedin.strategy1.
  rewrite Hv. apply returns_bind; [apply returns_ret|].
  intros [ps|]; [apply returns_ret|].
  apply returns_lower_tiers, linkedin_scout_real_ok.
Qed.

Lemma untyped_x_scout_anonymous cfg mods net sqlite_error q v :
  truthy v = false →
  returns (untyped_x.x_scout cfg mods net sqlite_error sqlite_text q v).
Proof.
  intros Hv. unfold untyped_x.x_scout, untyped_x.strategy1.
  rewrite Hv. apply returns_bind; [apply returns_ret|].
  intros [ps|]; [apply returns_ret|].
  apply returns_lower_tiers, x_scout_real_ok.
Qed.

(** The exception of the token lookup leaves the wrapper. *)
Lemma untyped_linkedin_scout_raises cfg mods net sqlite_error q v e w :
  truthy v = true →
  untyped_auth.get_user_token sqlite_error sqlite_text v "linkedin" w = (Raise e, w) →
  untyped_linkedin.linkedin_scout cfg mods net sqlite_error sqlite_text q v w = (Raise e, w).
Proof.
  intros Hv Hget. unfold untyped_linkedin.linkedin_scout, untyped_linkedin.strategy1.
  rewrite Hv, strategy_linkedin. cbn [andb]. unfold bind. by rewrite Hget.
Qed.

Lemma untyped_x_scout_raises cfg mods net sqlite_error q v e w :
  truthy v = true →
  untyped_auth.get_user_token sqlite_error sqlite_text v "twitter" w = (Raise e, w) →
  untyped_x.x_scout cfg mods net sqlite_error sqlite_text q v w = (Raise e, w).
Proof.
  intros Hv Hget. unfold untyped_x.x_scout, untyped_x.strategy1.
  rewrite Hv, strategy_x. cbn [andb]. unfold bind. by rewrite Hget.
Qed.

(** On a user id that is absent or a text, with a database that works,
    the untyped entry points are the typed ones. *)
Lemma untyped_linkedin_scout_typed cfg mods net q uid w :
  untyped_linkedin.linkedin_scout cfg mods net None sqlite_text q (id_value uid) w
  = linkedin_scout.linkedin_scout cfg mods net q uid w.
Proof. destruct uid as [u|]; reflexivity. Qed.

Lemma untyped_x_scout_typed cfg mods net q uid w :
  untyped_x.x_scout cfg mods net None sqlite_text q (id_value uid) w
  = x_scout.x_scout cfg mods net q uid w.
Proof. destruct uid as [u|]; reflexivity. Qed.
End untyped_store.

Lemma untyped_shared_scouts_return cfg mods net q v :
  returns (untyped_shared.scout_from_email cfg mods net q v)
  ∧ returns (untyped_shared.internet_scout cfg mods net q v).
Proof.
  split; intros w.
  - destruct (email_scout_cases cfg mods net q None w) as (ps & w' & H & _).
    by exists ps, w'.
  - destruct (internet_scout_cases cfg mods net q None w) as (ps & w' & H & _).
    by exists ps, w'.
Qed.

(** ** The order of the tiers *)

Lemma tiers_of_app a b : tiers_of (a ++ b) = tiers_of a ++ tiers_of b.
Proof. unfold tiers_of. apply omap_app. Qed.

Lemma invokes_refl w : invokes w w [].
Proof. exists []. by rewrite app_nil_r. Qed.

Lemma invokes_trans w1 w2 w3 ts ts' :
  invokes w1 w2 ts → invokes w2 w3 ts' → invokes w1 w3 (ts ++ ts').
Proof.
  intros (a & Ha & <-) (b & Hb & <-). exists (a ++ b).
  by rewrite Hb, Ha, app_assoc, tiers_of_app.
Qed.

Lemma invokes_get_user_token u p w r w1 :
  get_user_token u p w = (r, w1) → invokes w w1 [].
Proof.
  destruct (get_user_token_cases u p w) as [[tok H]|[H|H]]; rewrite H; intros [= <- <-].
  - apply invokes_refl.
  - apply invokes_refl.
  - by exists [EvRefresh u p].
Qed.

Lemma invokes_tier_entry source platform u q w :
  invokes w (tier_entry source platform u q w) [AuthenticatedUser].
Proof. by exists [EvTier source AuthenticatedUser q]. Qed.

Lemma invokes_linkedin_scout_enhanced cfg net q uid w r w' :
  linkedin_scout_enhanced.linkedin_scout_enhanced cfg net q uid w = (r, w') →
  invokes w w' [].
Proof.
  unfold linkedin_scout_enhanced.linkedin_scout_enhanced.
  destruct uid as [u|]; [|intros [= <- <-]; apply invokes_refl].
  destruct (str_truthy u); [|intros [= <- <-]; apply invokes_refl].
  unfold bind at 1 2.
  destruct (get_user_token u "linkedin" w) as [[[tok|]|e] w1] eqn:Hget.
  - apply invokes_get_user_token in Hget.
    unfold linkedin_scout_enhanced._search_with_user_token, bind, track_api_usage, ret.
    destruct (nonempty _); intros [= <- <-]; exact Hget.
  - apply invokes_get_user_token in Hget. intros [= <- <-]. exact Hget.
  - apply invokes_get_user_token in Hget. intros [= <- <-]. exact Hget.
Qed.

Lemma invokes_x_scout_enhanced cfg net q uid w r w' :
  x_scout_enhanced.x_scout_enhanced cfg net q uid w = (r, w') →
  invokes w w' [].
Proof.
  unfold x_scout_enhanced.x_scout_enhanced.
  destruct uid as [u|]; [|intros [= <- <-]; apply invokes_refl].
  destruct (str_truthy u); [|intros [= <- <-]; apply invokes_refl].
  unfold bind at 1 2.
  destruct (get_user_token u "twitter" w) as [[[tok|]|e] w1] eqn:Hget.
  - apply invokes_get_user_token in Hget.
    unfold x_scout_enhanced._search_with_user_token, bind, track_api_usage, ret.
    destruct (nonempty _); intros [= <- <-]; exact Hget.
  - apply invokes_get_user_token in Hget. intros [= <- <-]. exact Hget.
  - apply invokes_get_user_token in Hget. intros [= <- <-]. exact Hget.
Qed.

Lemma invokes_lower_tiers source q imports real mock w :
  invokes w (lower_tiers source q imports real mock w).2
    [if imports then SharedService else OfflineFallback].
Proof. unfold lower_tiers. destruct imports; by eexists [_]. Qed.

Lemma lower_tiers_run source q imports (real : result (list profile)) mock w :
  is_ok real →
  bind (except_ImportError
          (bind (import imports) (λ _,
           bind (log (EvTier source SharedService q)) (λ _,
           bind (lift real) (λ profiles, ret (Some profiles)))))
          (ret None))
       (λ second, match second with
                  | Some profiles => ret profiles
                  | None => bind (log (EvTier source OfflineFallback q)) (λ _, ret mock)
                  end) w
  = lower_tiers source q imports real mock w.
Proof.
  intros [ps Hreal]%is_ok_inv. unfold lower_tiers. destruct imports.
  - unfold bind, except_ImportError, import, log, lift, ret. by rewrite Hreal.
  - done.
Qed.

Lemma linkedin_scout_after_strategy1 cfg mods net q uid w r w1 :
  linkedin_scout.strategy1 cfg mods net q uid w = (Ok r, w1) →
  linkedin_scout.linkedin_scout cfg mods net q uid w
  = match r with
    | Some ps => (Ok ps, w1)
    | None => lower_tiers "linkedin" q (imports_linkedin_scout_real mods)
                (linkedin_scout_real.linkedin_scout cfg net q) linkedin_scout.mock w1
    end.
Proof.
  intros H1. unfold linkedin_scout.linkedin_scout. unfold bind at 1. rewrite H1.
  destruct r as [ps|]; [done|].
  apply (lower_tiers_run "linkedin"), linkedin_scout_real_ok.
Qed.

Lemma x_scout_after_strategy1 cfg mods net q uid w r w1 :
  x_scout.strategy1 cfg mods net q uid w = (Ok r, w1) →
  x_scout.x_scout cfg mods net q uid w
  = match r with
    | Some ps => (Ok ps, w1)
    | None => lower_tiers "x" q (imports_x_scout_real mods)
                (x_scout_real.x_scout cfg net q) x_scout.mock w1
    end.
Proof.
  intros H1. unfold x_scout.x_scout. unfold bind at 1. rewrite H1.
  destruct r as [ps|]; [done|].
  apply (lower_tiers_run "x"), x_scout_real_ok.
Qed.

Lemma linkedin_strategy1_skipped cfg mods net q u w r w1 :
  str_truthy u = true →
  get_user_token u "linkedin" w = (Ok r, w1) →
  (r = None ∨ imports_linkedin_scout_enhanced mods = false) →
  linkedin_scout.strategy1 cfg mods net q (Some u) w = (Ok None, w1).
Proof.
  intros Hu Hget Hr. unfold linkedin_scout.strategy1. rewrite Hu, strategy_linkedin.
  cbn [andb]. unfold bind at 1. rewrite Hget. destruct r as [tok|]; [|done].
  destruct Hr as [?|Hi]; [done|].
  unfold except_ImportError, bind, import. by rewrite Hi.
Qed.

Lemma x_strategy1_skipped cfg mods net q u w r w1 :
  str_truthy u = true →
  get_user_token u "twitter" w = (Ok r, w1) →
  (r = None ∨ imports_x_scout_enhanced mods = false) →
  x_scout.strategy1 cfg mods net q (Some u) w = (Ok None, w1).
Proof.
  intros Hu Hget Hr. unfold x_scout.strategy1. rewrite Hu, strategy_x.
  cbn [andb]. unfold bind at 1. rewrite Hget. destruct r as [tok|]; [|done].
  destruct Hr as [?|Hi]; [done|].
  unfold except_ImportError, bind, import. by rewrite Hi.
Qed.

Lemma linkedin_strategy1_idle cfg mods net q uid w :
  opt_truthy uid = false →
  linkedin_scout.strategy1 cfg mods net q uid w = (Ok None, w).
Proof.
  destruct uid as [u|]; [|done]. simpl. intros Hu.
  unfold linkedin_scout.strategy1. by rewrite Hu.
Qed.

Lemma x_strategy1_idle cfg mods net q uid w :
  opt_truthy uid = false →
  x_scout.strategy1 cfg mods net q uid w = (Ok None, w).
Proof.
  destruct uid as [u|]; [|done]. simpl. intros Hu.
  unfold x_scout.strategy1. by rewrite Hu.
Qed.

Lemma linkedin_hybrid_chain cfg mods net q :
  hybrid_chain "linkedin" "linkedin" "linkedin_oauth" (imports_linkedin_scout_enhanced mods)
    (linkedin_scout_enhanced.linkedin_scout_enhanced cfg net)
    (lower_tiers "linkedin" q (imports_linkedin_scout_real mods)
       (linkedin_scout_real.linkedin_scout cfg net q) linkedin_scout.mock)
    (linkedin_scout.linkedin_scout cfg mods net) q.
Proof.
  split_and!.
  - intros u w tok w1 ps1 w2 Hu Hi Hget Hrun. split.
    + pose proof (linkedin_strategy1_entered cfg mods net q u w tok w1 Hu Hi Hget) as H1.
      rewrite Hrun in H1. rewrite (linkedin_scout_after_strategy1 _ _ _ _ _ _ _ _ H1).
      by destruct (nonempty ps1 && tagged "linkedin_oauth" ps1).
    + apply (invokes_trans _ w1 _ [] [AuthenticatedUser]);
        [by eapply invokes_get_user_token|].
      apply (invokes_trans _ (tier_entry "linkedin" "linkedin" u q w1) _
               [AuthenticatedUser] []); [apply invokes_tier_entry|].
      by eapply invokes_linkedin_scout_enhanced.
  - intros u w tok w1 Hu Hi Hget. split; [|by eapply invokes_get_user_token].
    by rewrite (linkedin_scout_after_strategy1 _ _ _ _ _ _ _ _
                  (linkedin_strategy1_skipped cfg mods net q u w _ w1 Hu Hget
                     (or_intror Hi))).
  - intros u w w1 Hu Hget. split; [|by eapply invokes_get_user_token].
    by rewrite (linkedin_scout_after_strategy1 _ _ _ _ _ _ _ _
                  (linkedin_strategy1_skipped cfg mods net q u w _ w1 Hu Hget
                     (or_introl eq_refl))).
  - intros uid w Hu.
    by rewrite (linkedin_scout_after_strategy1 _ _ _ _ _ _ _ _
                  (linkedin_strategy1_idle cfg mods net q uid w Hu)).
Qed.

Lemma x_hybrid_chain cfg mods net q :
  hybrid_chain "x" "twitter" "twitter_oauth" (imports_x_scout_enhanced mods)
    (x_scout_enhanced.x_scout_enhanced cfg net)
    (lower_tiers "x" q (imports_x_scout_real mods)
       (x_scout_real.x_scout cfg net q) x_scout.mock)
    (x_scout.x_scout cfg mods net) q.
Proof.
  split_and!.
  - intros u w tok w1 ps1 w2 Hu Hi Hget Hrun. split.
    + pose proof (x_strategy1_entered cfg mods net q u w tok w1 Hu Hi Hget) as H1.
      rewrite Hrun in H1. rewrite (x_scout_after_strategy1 _ _ _ _ _ _ _ _ H1).
      by destruct (nonempty ps1 && tagged "twitter_oauth" ps1).
    + apply (invokes_trans _ w1 _ [] [AuthenticatedUser]);
        [by eapply invokes_get_user_token|].
      apply (invokes_trans _ (tier_entry "x" "twitter" u q w1) _
               [AuthenticatedUser] []); [apply invokes_tier_entry|].
      by eapply invokes_x_scout_enhanced.
  - intros u w tok w1 Hu Hi Hget. split; [|by eapply invokes_get_user_token].
    by rewrite (x_scout_after_strategy1 _ _ _ _ _ _ _ _
                  (x_strategy1_skipped cfg mods net q u w _ w1 Hu Hget (or_intror Hi))).
  - intros u w w1 Hu Hget. split; [|by eapply invokes_get_user_token].
    by rewrite (x_scout_after_strategy1 _ _ _ _ _ _ _ _
                  (x_strategy1_skipped cfg mods net q u w _ w1 Hu Hget (or_introl eq_refl))).
  - intros uid w Hu.
    by rewrite (x_scout_after_strategy1 _ _ _ _ _ _ _ _
                  (x_strategy1_idle cfg mods net q uid w Hu)).
Qed.

Lemma email_scout_lower_tiers cfg mods net q uid w :
  email_scout.scout_from_email cfg mods net q uid w
  = lower_tiers "email" q (imports_email_scout_real mods)
      (email_scout_real.scout_from_email cfg net q) email_scout.mock w.
Proof.
  unfold email_scout.scout_from_email, email_scout.shared. rewrite strategy_email.
  apply (lower_tiers_run "email"), email_scout_real_ok.
Qed.

Lemma internet_scout_lower_tiers cfg mods net q uid w :
  internet_scout.internet_scout cfg mods net q uid w
  = lower_tiers "internet" q (imports_internet_scout_real mods)
      (internet_scout_real.internet_scout cfg net q) internet_scout.mock w.
Proof.
  unfold internet_scout.internet_scout, internet_scout.shared. rewrite strategy_internet.
  apply (lower_tiers_run "internet"), internet_scout_real_ok.
Qed.

(** The tiers a call invokes: the AuthenticatedUser tier at most once
    and before any other, then the SharedService tier or, when its
    module cannot be imported, the OfflineFallback tier. *)
Lemma linkedin_scout_order cfg mods net q uid w :
  ∃ ts, invokes w (linkedin_scout.linkedin_scout cfg mods net q uid w).2 ts
        ∧ ts ∈ [[AuthenticatedUser];
                [AuthenticatedUser;
                 if imports_linkedin_scout_real mods then SharedService else OfflineFallback];
                [if imports_linkedin_scout_real mods then SharedService else OfflineFallback]].
Proof.
  destruct (linkedin_hybrid_chain cfg mods net q) as (Hentered & Hmissing & Hnone & Hidle).
  destruct (opt_truthy uid) eqn:Hid.
  2: { rewrite (Hidle uid w Hid). eexists. split; [apply invokes_lower_tiers|]. by repeat constructor. }
  destruct uid as [u|]; [|done]. simpl in Hid.
  destruct (get_user_token u "linkedin" w) as [[[tok|]|e] w1] eqn:Hget.
  - destruct (imports_linkedin_scout_enhanced mods) eqn:Hi.
    + destruct (quiet_linkedin_scout_enhanced cfg net q (Some u)
                  (tier_entry "linkedin" "linkedin" u q w1)) as (ps1 & w2 & Hrun & _).
      destruct (Hentered u w tok w1 ps1 w2 Hid eq_refl Hget Hrun) as [-> Hinv].
      destruct (nonempty ps1 && tagged "linkedin_oauth" ps1).
      * eexists. split; [exact Hinv|]. by repeat constructor.
      * eexists. split.
        -- eapply invokes_trans; [exact Hinv|apply invokes_lower_tiers].
        -- by repeat constructor.
    + destruct (Hmissing u w tok w1 Hid eq_refl Hget) as [-> Hinv].
      eexists. split.
      * eapply invokes_trans; [exact Hinv|apply invokes_lower_tiers].
      * by repeat constructor.
  - destruct (Hnone u w w1 Hid Hget) as [-> Hinv].
    eexists. split.
    + eapply invokes_trans; [exact Hinv|apply invokes_lower_tiers].
    + by repeat constructor.
  - destruct (quiet_get_user_token u "linkedin" w) as (r & w1' & Hq & _). congruence.
Qed.

Lemma x_scout_order cfg mods net q uid w :
  ∃ ts, invokes w (x_scout.x_scout cfg mods net q uid w).2 ts
        ∧ ts ∈ [[AuthenticatedUser];
                [AuthenticatedUser;
                 if imports_x_scout_real mods then SharedService else OfflineFallback];
                [if imports_x_scout_real mods then SharedService else OfflineFallback]].
Proof.
  destruct (x_hybrid_chain cfg mods net q) as (Hentered & Hmissing & Hnone & Hidle).
  destruct (opt_truthy uid) eqn:Hid.
  2: { rewrite (Hidle uid w Hid). eexists. split; [apply invokes_lower_tiers|]. by repeat constructor. }
  destruct uid as [u|]; [|done]. simpl in Hid.
  destruct (get_user_token u "twitter" w) as [[[tok|]|e] w1] eqn:Hget.
  - destruct (imports_x_scout_enhanced mods) eqn:Hi.
    + destruct (quiet_x_scout_enhanced cfg net q (Some u)
                  (tier_entry "x" "twitter" u q w1)) as (ps1 & w2 & Hrun & _).
      destruct (Hentered u w tok w1 ps1 w2 Hid eq_refl Hget Hrun) as [-> Hinv].
      destruct (nonempty ps1 && tagged "twitter_oauth" ps1).
      * eexists. split; [exact Hinv|]. by repeat constructor.
      * eexists. split.
        -- eapply invokes_trans; [exact Hinv|apply invokes_lower_tiers].
        -- by repeat constructor.
    + destruct (Hmissing u w tok w1 Hid eq_refl Hget) as [-> Hinv].
      eexists. split.
      * eapply invokes_trans; [exact Hinv|apply invokes_lower_tiers].
      * by repeat constructor.
  - destruct (Hnone u w w1 Hid Hget) as [-> Hinv].
    eexists. split.
    + eapply invokes_trans; [exact Hinv|apply invokes_lower_tiers].
    + by repeat constructor.
  - destruct (quiet_get_user_token u "twitter" w) as (r & w1' & Hq & _). congruence.
Qed.

Lemma lower_tiers_empty source q imports real mock w w' :
  mock ≠ [] → is_ok real →
  lower_tiers source q imports real mock w = (Ok [], w') →
  imports = true ∧ real = Ok [].
Proof.
  intros Hmock Hreal. unfold lower_tiers. destruct imports.
  - by intros [= -> _].
  - intros [= Hm _]. by destruct Hmock.
Qed.

Lemma chain_outcome_empty tag imports real mock w w' :
  mock ≠ [] → chain_outcome tag imports real mock w [] w' →
  imports = true ∧ real = Ok [].
Proof.
  intros Hmock [(tg & _ & Hne & _)|[(Hi & Hr & _)|(_ & Hm & _)]]; [done|done|].
  by destruct Hmock.
Qed.

(** ** The cases of the lead_discovery route *)

Section route_cases.
Variables (uuid4 : nat → string) (str : exn → string) (format : pyval → string).
Variable interpret_goal : string → string → list string → result (gmap string (list string)).
Variables scout_from_email linkedin_scout x_scout internet_scout
  : string → option string → M (list profile).
Variable generate_message : profile → string → string → result string.

Lemma resolve_user_returns req w :
  ∃ uid w0, app.resolve_user uuid4 req w = (Ok uid, w0)
    ∧ trace w0 = trace w ∧ social_tokens w0 = social_tokens w
    ∧ api_usage w0 = api_usage w.
Proof.
  unfold app.resolve_user.
  destruct (opt_truthy (req_user_email req) && negb (opt_truthy (req_user_id req))).
  - unfold create_user.
    destruct (uuid_taken _ _ || bool_decide _); by eexists _, _.
  - by eexists _, _.
Qed.

Lemma lead_discovery_invalid req w :
  (∀ emails company_info goal, ¬ valid_fields req emails company_info goal) →
  ∃ msg,
    app.lead_discovery uuid4 str format interpret_goal scout_from_email linkedin_scout
      x_scout internet_scout generate_message req w = (Ok (Error400 msg), w).
Proof.
  intros Hinv. unfold app.lead_discovery, except_Exception, app.lead_discovery_body.
  destruct (req_is_json req) eqn:Hjson; simpl; [|by eexists].
  destruct (req_emails req) as [[|e0 emails]|] eqn:Hemails; [by eexists| |by eexists].
  destruct (req_company_info req) as [ci|] eqn:Hci; simpl; [|by eexists].
  destruct (str_truthy ci) eqn:Hcit; simpl; [|by eexists].
  destruct (req_goal req) as [goal|] eqn:Hgoal; simpl; [|by eexists].
  destruct (str_truthy goal) eqn:Hgt; simpl; [|by eexists].
  destruct (Hinv (e0 :: emails) ci goal). by repeat split.
Qed.

Lemma lead_discovery_valid req emails company_info goal w uid w0 :
  valid_fields req emails company_info goal →
  app.resolve_user uuid4 req w = (Ok uid, w0) →
  app.lead_discovery uuid4 str format interpret_goal scout_from_email linkedin_scout
    x_scout internet_scout generate_message req w
  = match app.requested_target req with
    | None => (Ok (Error400 "target must be a positive integer"), w0)
    | Some n =>
        match interpret_goal goal company_info emails with
        | Raise e => (Ok (Error500 "Failed to interpret goal" (str e)), w0)
        | Ok plan =>
            let '(outs, w1) :=
              run_all (scout_calls scout_from_email linkedin_scout x_scout internet_scout
                         emails plan uid) w0 in
            if nonempty (collected outs) then
              match validate_and_rank (collected outs) goal company_info with
              | Raise e =>
                  (Ok (Error500 "Failed to validate and rank profiles" (str e)), w1)
              | Ok ranked =>
                  let '(with_messages, errors) :=
                    app.generate_messages str format generate_message
                      (take (Z.to_nat n) ranked) goal company_info (failures str outs) in
                  (Ok (Discovery with_messages (length (collected outs))
                         (length with_messages) uid
                         (if nonempty errors then Some errors else None)), w1)
              end
            else (Ok (NoProfiles (failures str outs) uid), w1)
        end
    end.
Proof.
  intros (Hjson & Hemails & Hne & Hci & Hcit & Hgoal & Hgt) Huser.
  destruct emails as [|e0 emails']; [done|].
  match goal with |- _ = ?r => set (rhs := r) end.
  unfold app.lead_discovery, except_Exception, app.lead_discovery_body.
  rewrite Hjson, Hemails. simpl.
  rewrite Hci, Hgoal. simpl. rewrite Hcit, Hgt. simpl.
  unfold bind at 1. rewrite Huser. subst rhs.
  destruct (app.requested_target req) as [n|]; [|done].
  destruct (interpret_goal goal company_info (e0 :: emails')) as [plan|e]; [|done].
  unfold bind. rewrite scouting_run_all.
  destruct (run_all _ w0) as [outs w1].
  destruct (nonempty (collected outs)); cbn [negb]; [|done].
  destruct (validate_and_rank (collected outs) goal company_info) as [ranked|e]; [|done].
  by destruct (app.generate_messages _ _ _ _ _ _ _).
Qed.

Lemma generate_messages_spec goal company_info ps : ∀ errs,
  ∃ ps' new,
    app.generate_messages str format generate_message ps goal company_info errs
    = (ps', errs ++ new)
    ∧ Forall2 has_message ps ps'
    ∧ length new
      = length (filter (λ p, raised (generate_message p goal company_info) = true) ps).
Proof.
  induction ps as [|p ps IH]; intros errs.
  - exists [], []. by rewrite app_nil_r.
  - cbn [app.generate_messages]. rewrite filter_cons.
    destruct (generate_message p goal company_info) as [m|e]; cbn [raised].
    + destruct (IH errs) as (ps' & new & -> & Hps & Hlen).
      exists (<["message" := VStr m]> p :: ps'), new. split_and!; [done| |].
      * constructor; [by exists m|done].
      * by rewrite decide_False.
    + match goal with |- context [app.generate_messages _ _ _ _ _ _ (errs ++ [?f])] =>
        destruct (IH (errs ++ [f])) as (ps' & new & -> & Hps & Hlen);
        eexists (_ :: ps'), (f :: new) end.
      split_and!.
      * by rewrite <- app_assoc.
      * constructor; [by eexists|done].
      * rewrite decide_True by done. simpl. by rewrite Hlen.
Qed.

Lemma has_message_lookup (p p' : profile) key :
  has_message p p' → key ≠ "message" → p' !! key = p !! key.
Proof. intros (m & ->) Hk. by rewrite lookup_insert_ne. Qed.

Lemma has_message_names ps ps' :
  Forall2 has_message ps ps' → names ps' = names ps.
Proof.
  induction 1 as [|p p' ps ps' Hp _ IH]; [done|].
  unfold names in *. rewrite !fmap_cons, IH. f_equal. by apply has_message_lookup.
Qed.

Lemma failures_length outs :
  length (failures str outs) = length (filter (λ o, raised o.2 = true) outs).
Proof.
  unfold failures. induction outs as [|[label [ps|e]] outs IH]; [done| |].
  - rewrite filter_cons. cbn [omap list_omap snd raised]. by rewrite decide_False.
  - rewrite filter_cons. cbn [omap list_omap snd raised]. rewrite decide_True by done.
    cbn [length]. by rewrite <- IH.
Qed.
End route_cases.

Lemma valid_fields_cases req :
  (∃ emails company_info goal, valid_fields req emails company_info goal)
  ∨ (∀ emails company_info goal, ¬ valid_fields req emails company_info goal).
Proof.
  unfold valid_fields.
  destruct (req_is_json req); [|right; by intros ??? (? & _)].
  destruct (req_emails req) as [[|e0 emails]|];
    [right; intros ??? (_ & [= <-] & ? & _); done| |right; by intros ??? (_ & ? & _)].
  destruct (req_company_info req) as [ci|]; [|right; by intros ??? (_ & _ & _ & ? & _)].
  destruct (str_truthy ci) eqn:Hci;
    [|right; intros ??? (_ & _ & _ & [= <-] & ? & _); congruence].
  destruct (req_goal req) as [goal|]; [|right; by intros ??? (_ & _ & _ & _ & _ & ? & _)].
  destruct (str_truthy goal) eqn:Hgoal;
    [|right; intros ??? (_ & _ & _ & _ & _ & [= <-] & ?); congruence].
  left. by exists (e0 :: emails), ci, goal.
Qed.

Lemma requested_target_positive req n : app.requested_target req = Some n → 0 < n.
Proof.
  unfold app.requested_target. destruct (req_target req) as [|m|]; [by intros [= <-]| |done].
  destruct (decide (m ≤ 0)); [done|]. intros [= <-]. lia.
Qed.

Lemma validate_and_rank_shape ps g c out :
  validate_and_rank ps g c = Ok out →
  NoDup (names out)
  ∧ Forall (λ p : profile, p !! "score" = Some placeholder_score) out
  ∧ (ps ≠ [] → out ≠ [])
  ∧ (length out ≤ length ps)%nat.
Proof.
  intros ->%validate_and_rank_first_occurrences.
  destruct (firsts_from_names ps []) as (Hnd & _ & _ & Hsub).
  split_and!.
  - by rewrite names_set_score.
  - apply Forall_fmap, Forall_forall. intros p _. unfold set_score. simpl.
    by rewrite lookup_insert_eq.
  - destruct ps as [|p ps]; [done|]. intros _. unfold first_occurrences.
    cbn [firsts_from fmap list_fmap].
    destruct (decide (p !! "name" ∈ names [])) as [Hin|_]; [by inversion Hin|done].
  - rewrite length_fmap. by apply sublist_length.
Qed.

Lemma NoDup_take {A} (l : list A) n : NoDup l → NoDup (take n l).
Proof.
  intros H. rewrite <- (take_drop n l) in H. by apply NoDup_app in H as (? & _).
Qed.

Section route_rejections.
Variables (uuid4 : nat → string) (str : exn → string) (format : pyval → string).
Variable interpret_goal : string → string → list string → result (gmap string (list string)).
Variables scout_from_email linkedin_scout x_scout internet_scout
  : string → option string → M (list profile).
Variable generate_message : profile → string → string → result string.

Lemma lead_discovery_invalid_message req w :
  (∀ emails company_info goal, ¬ valid_fields req emails company_info goal) →
  ∃ msg,
    app.lead_discovery uuid4 str format interpret_goal scout_from_email linkedin_scout
      x_scout internet_scout generate_message req w = (Ok (Error400 msg), w)
    ∧ msg ∈ early_rejections.
Proof.
  intros Hinv. unfold app.lead_discovery, except_Exception, app.lead_discovery_body.
  unfold early_rejections.
  destruct (req_is_json req) eqn:Hjson; simpl;
    [|eexists; split; [done|by repeat constructor]].
  destruct (req_emails req) as [[|e0 emails]|] eqn:Hemails;
    [eexists; split; [done|by repeat constructor]|
    |eexists; split; [done|by repeat constructor]].
  destruct (req_company_info req) as [ci|] eqn:Hci; simpl;
    [|eexists; split; [done|by repeat constructor]].
  destruct (str_truthy ci) eqn:Hcit; simpl;
    [|eexists; split; [done|by repeat constructor]].
  destruct (req_goal req) as [goal|] eqn:Hgoal; simpl;
    [|eexists; split; [done|by repeat constructor]].
  destruct (str_truthy goal) eqn:Hgt; simpl;
    [|eexists; split; [done|by repeat constructor]].
  destruct (Hinv (e0 :: emails) ci goal). by repeat split.
Qed.

(** What a request that passes the four checks is answered. *)
Lemma lead_discovery_valid_answer req emails company_info goal w :
  valid_fields req emails company_info goal →
  ∃ resp w',
    app.lead_discovery uuid4 str format interpret_goal scout_from_email linkedin_scout
      x_scout internet_scout generate_message req w = (Ok resp, w')
    ∧ (status_code resp = 200 ∨ status_code resp = 400 ∨ status_code resp = 500)
    ∧ (∀ details, resp ≠ Error500 "Internal server error" details)
    ∧ (∀ msg, resp = Error400 msg → msg = "target must be a positive integer").
Proof.
  intros Hvalid.
  destruct (resolve_user_returns uuid4 req w) as (uid0 & w0 & Huser & _).
  rewrite (lead_discovery_valid uuid4 str format interpret_goal scout_from_email
             linkedin_scout x_scout internet_scout generate_message
             req emails company_info goal w uid0 w0 Hvalid Huser).
  destruct (app.requested_target req) as [n|];
    [|eexists _, _; split; [done|]; split_and!; [by right; left|done|by intros ? [= <-]]].
  destruct (interpret_goal goal company_info emails) as [plan|e];
    [|eexists _, _; split; [done|]; split_and!; [by right; right|done|done]].
  destruct (run_all _ w0) as [outs w1].
  destruct (nonempty (collected outs));
    [|eexists _, _; split; [done|]; split_and!; [by left|done|done]].
  destruct (validate_and_rank (collected outs) goal company_info) as [ranked|e];
    [|eexists _, _; split; [done|]; split_and!; [by right; right|done|done]].
  destruct (app.generate_messages _ _ _ _ _ _ _).
  eexists _, _; split; [done|]; split_and!; [by left|done|done].
Qed.
End route_rejections.

(** ** The properties of the specification *)

(** C1 fails as stated: under the hybrid strategy [linkedin_scout] and
    [x_scout] look the user's token up before their [try], so what the
    lookup raises leaves the scout.  Here the user id is a list, which
    sqlite3 refuses to bind; the database itself works. *)
Lemma scout_raises_on_a_list_user_id :
  (untyped_linkedin.linkedin_scout sample_config all_installed sample_network None
     stub_sqlite_text "founders" (VList ["u1"]) empty_world).1
  = Raise (OtherError "Error binding parameter: unsupported type")
  ∧ (untyped_x.x_scout sample_config all_installed sample_network None
       stub_sqlite_text "founders" (VList ["u1"]) empty_world).1
    = Raise (OtherError "Error binding parameter: unsupported type").
Proof. split; vm_compute; reflexivity. Qed.

(** C1, amended.  [scout_from_email] and [internet_scout] return a list
    for every query, every value of the user id and every state of the
    credential store, which they never consult.  [linkedin_scout] and
    [x_scout] return a list when the user id is not truthy, and when the
    database works and sqlite3 accepts the user id; when the user id is
    truthy and the lookup of the token raises, because the database
    fails or because sqlite3 refuses the user id, that exception leaves
    the scout and the world is as it was. *)
Theorem scouts_raise_only_from_the_token_lookup cfg mods net
    (sqlite_error : option exn) (sqlite_text : Qc → result string)
    (query : string) (user_id : pyval) (w : world) :
  (∃ ps w', untyped_shared.scout_from_email cfg mods net query user_id w = (Ok ps, w'))
  ∧ (∃ ps w', untyped_shared.internet_scout cfg mods net query user_id w = (Ok ps, w'))
  ∧ (truthy user_id = false
     ∨ (sqlite_error = None ∧ is_ok (untyped_auth.bind_user_id sqlite_text user_id)) →
     (∃ ps w', untyped_linkedin.linkedin_scout cfg mods net sqlite_error sqlite_text
                 query user_id w = (Ok ps, w'))
     ∧ (∃ ps w', untyped_x.x_scout cfg mods net sqlite_error sqlite_text
                   query user_id w = (Ok ps, w')))
  ∧ (∀ e, truthy user_id = true →
          sqlite_error = Some e
          ∨ (sqlite_error = None ∧ untyped_auth.bind_user_id sqlite_text user_id = Raise e) →
          untyped_linkedin.linkedin_scout cfg mods net sqlite_error sqlite_text
            query user_id w = (Raise e, w)
          ∧ untyped_x.x_scout cfg mods net sqlite_error sqlite_text
              query user_id w = (Raise e, w)).
Proof.
  split_and!.
  - apply untyped_shared_scouts_return.
  - apply untyped_shared_scouts_return.
  - intros [Hfalsy|[-> Hbound]].
    + split; [by apply untyped_linkedin_scout_anonymous|by apply untyped_x_scout_anonymous].
    + split; [by apply untyped_linkedin_scout_returns|by apply untyped_x_scout_returns].
  - intros e Htruthy [->|[-> Hrefused]].
    + split; [by apply untyped_linkedin_scout_raises|by apply untyped_x_scout_raises].
    + split.
      * apply untyped_linkedin_scout_raises; [done|].
        by apply untyped_get_user_token_refused.
      * apply untyped_x_scout_raises; [done|].
        by apply untyped_get_user_token_refused.
Qed.

(** The user [u1] of [connected_world] searches LinkedIn while the
    database works. *)
Lemma scouts_raise_only_from_the_token_lookup_witness :
  ∃ ps w', untyped_linkedin.linkedin_scout sample_config all_installed sample_network None
             stub_sqlite_text "founders" (VStr "u1") connected_world = (Ok ps, w').
Proof.
  apply (proj1 (proj2 (proj2 (scouts_raise_only_from_the_token_lookup sample_config
                                all_installed sample_network None stub_sqlite_text
                                "founders" (VStr "u1") connected_world)))
           (or_intror (conj eq_refl I))).
Defined.

(** C2. Tier short-circuit.  When the AuthenticatedUser tier of a hybrid
    scout is entered (the user has a usable token and the enhanced module
    is installed) and returns a non-empty list holding a profile tagged
    with the tier's provenance, the scout returns exactly that list, and
    the numbers of SharedService and OfflineFallback invocations are what
    they were before the call. *)
Theorem tier_short_circuit cfg mods net (query u : string) (w : world) tok w1 ps w2 :
  (str_truthy u = true →
   imports_linkedin_scout_enhanced mods = true →
   get_user_token u "linkedin" w = (Ok (Some tok), w1) →
   linkedin_scout_enhanced.linkedin_scout_enhanced cfg net query (Some u)
     (tier_entry "linkedin" "linkedin" u query w1) = (Ok ps, w2) →
   nonempty ps = true → tagged "linkedin_oauth" ps = true →
   linkedin_scout.linkedin_scout cfg mods net query (Some u) w = (Ok ps, w2)
   ∧ tier_calls SharedService (trace w2) = tier_calls SharedService (trace w)
   ∧ tier_calls OfflineFallback (trace w2) = tier_calls OfflineFallback (trace w))
  ∧ (str_truthy u = true →
     imports_x_scout_enhanced mods = true →
     get_user_token u "twitter" w = (Ok (Some tok), w1) →
     x_scout_enhanced.x_scout_enhanced cfg net query (Some u)
       (tier_entry "x" "twitter" u query w1) = (Ok ps, w2) →
     nonempty ps = true → tagged "twitter_oauth" ps = true →
     x_scout.x_scout cfg mods net query (Some u) w = (Ok ps, w2)
     ∧ tier_calls SharedService (trace w2) = tier_calls SharedService (trace w)
     ∧ tier_calls OfflineFallback (trace w2) = tier_calls OfflineFallback (trace w)).
Proof.
  split; intros Hu Hi Ht Hrun Hne Htag.
  - split.
    + unfold linkedin_scout.linkedin_scout. unfold bind at 1.
      rewrite (linkedin_strategy1_entered _ _ _ _ _ _ _ _ Hu Hi Ht), Hrun, Hne, Htag.
      reflexivity.
    + destruct (quiet_get_user_token u "linkedin" w) as (r & w1' & Hg & Hq).
      rewrite Ht in Hg. injection Hg as <- <-.
      destruct (quiet_linkedin_scout_enhanced cfg net query (Some u)
                  (tier_entry "linkedin" "linkedin" u query w1)) as (ps' & w2' & He & Hq').
      rewrite Hrun in He. injection He as <- <-.
      rewrite !Hq', !tier_entry_calls, !Hq. simpl. lia.
  - split.
    + unfold x_scout.x_scout. unfold bind at 1.
      rewrite (x_strategy1_entered _ _ _ _ _ _ _ _ Hu Hi Ht), Hrun, Hne, Htag.
      reflexivity.
    + destruct (quiet_get_user_token u "twitter" w) as (r & w1' & Hg & Hq).
      rewrite Ht in Hg. injection Hg as <- <-.
      destruct (quiet_x_scout_enhanced cfg net query (Some u)
                  (tier_entry "x" "twitter" u query w1)) as (ps' & w2' & He & Hq').
      rewrite Hrun in He. injection He as <- <-.
      rewrite !Hq', !tier_entry_calls, !Hq. simpl. lia.
Qed.

(** The user [u1] of [connected_world] searches LinkedIn: the list found
    with the user's token is returned and no lower tier is invoked. *)
Lemma tier_short_circuit_witness :
  linkedin_scout.linkedin_scout sample_config all_installed sample_network "founders"
    (Some "u1") connected_world
  = (Ok [oauth_profile "linkedin_oauth"],
     (linkedin_scout_enhanced.linkedin_scout_enhanced sample_config sample_network
        "founders" (Some "u1")
        (tier_entry "linkedin" "linkedin" "u1" "founders" connected_world)).2)
  ∧ tier_calls SharedService
      (trace (linkedin_scout_enhanced.linkedin_scout_enhanced sample_config sample_network
                "founders" (Some "u1")
                (tier_entry "linkedin" "linkedin" "u1" "founders" connected_world)).2)
    = tier_calls SharedService (trace connected_world)
  ∧ tier_calls OfflineFallback
      (trace (linkedin_scout_enhanced.linkedin_scout_enhanced sample_config sample_network
                "founders" (Some "u1")
                (tier_entry "linkedin" "linkedin" "u1" "founders" connected_world)).2)
    = tier_calls OfflineFallback (trace connected_world).
Proof.
  apply (proj1 (tier_short_circuit sample_config all_installed sample_network "founders" "u1"
                  connected_world
                  {| access_token := VStr "token"; refresh_token_of := VNone;
                     expires_at := None;
                     token_data := mkdict [("access_token", VStr "token")] |}
                  connected_world
                  [oauth_profile "linkedin_oauth"] _)).
  - reflexivity.
  - reflexivity.
  - vm_compute. reflexivity.
  - vm_compute. reflexivity.
  - reflexivity.
  - vm_compute. reflexivity.
Defined.

(** C3 fails as stated: with a PhantomBuster key configured and a
    phantom that produces no output, the SharedService tier of
    [linkedin_scout] gives the empty list; the wrapper returns it as it
    is and the OfflineFallback tier is not invoked. *)
Lemma empty_shared_result_is_returned :
  (linkedin_scout.linkedin_scout phantom_config all_installed sample_network "founders"
     None empty_world).1 = Ok []
  ∧ tier_calls OfflineFallback
      (trace (linkedin_scout.linkedin_scout phantom_config all_installed sample_network
                "founders" None empty_world).2) = 0%nat.
Proof. split; vm_compute; reflexivity. Qed.

(** C3, amended.  The tiers of a scout call are tried in the order
    AuthenticatedUser, SharedService, OfflineFallback.  A hybrid scout
    invokes the AuthenticatedUser tier first, when the user id is
    truthy, the user has a token and the enhanced module is imported; it
    returns the tier's list when that list is not empty and carries the
    tier's tag, and leaves the tier for the next one otherwise, a list of
    zero results included; when the module cannot be imported, the user
    has no token or the user id is not truthy, the tier is not invoked.
    The e-mail and web scouts have no such tier.  Once it is out of the
    way, the call ends as [lower_tiers] says: if the SharedService module
    can be imported the scout returns whatever that tier returns, an
    empty list included, and the OfflineFallback tier is not invoked;
    the OfflineFallback stand-in is reached only when the module cannot
    be imported, and it holds exactly one profile.  Hence a scout call
    returns an empty list only when its SharedService tier does. *)
Theorem fallback_chain_outcomes cfg mods net (query : string) :
  hybrid_chain "linkedin" "linkedin" "linkedin_oauth" (imports_linkedin_scout_enhanced mods)
    (linkedin_scout_enhanced.linkedin_scout_enhanced cfg net)
    (lower_tiers "linkedin" query (imports_linkedin_scout_real mods)
       (linkedin_scout_real.linkedin_scout cfg net query) linkedin_scout.mock)
    (linkedin_scout.linkedin_scout cfg mods net) query
  ∧ hybrid_chain "x" "twitter" "twitter_oauth" (imports_x_scout_enhanced mods)
      (x_scout_enhanced.x_scout_enhanced cfg net)
      (lower_tiers "x" query (imports_x_scout_real mods)
         (x_scout_real.x_scout cfg net query) x_scout.mock)
      (x_scout.x_scout cfg mods net) query
  ∧ (∀ user_id w,
       email_scout.scout_from_email cfg mods net query user_id w
       = lower_tiers "email" query (imports_email_scout_real mods)
           (email_scout_real.scout_from_email cfg net query) email_scout.mock w
       ∧ internet_scout.internet_scout cfg mods net query user_id w
         = lower_tiers "internet" query (imports_internet_scout_real mods)
             (internet_scout_real.internet_scout cfg net query) internet_scout.mock w)
  ∧ (∀ user_id w,
       (∃ ts, invokes w (linkedin_scout.linkedin_scout cfg mods net query user_id w).2 ts
              ∧ ts ∈ [[AuthenticatedUser];
                      [AuthenticatedUser;
                       if imports_linkedin_scout_real mods
                       then SharedService else OfflineFallback];
                      [if imports_linkedin_scout_real mods
                       then SharedService else OfflineFallback]])
       ∧ (∃ ts, invokes w (x_scout.x_scout cfg mods net query user_id w).2 ts
                ∧ ts ∈ [[AuthenticatedUser];
                        [AuthenticatedUser;
                         if imports_x_scout_real mods
                         then SharedService else OfflineFallback];
                        [if imports_x_scout_real mods
                         then SharedService else OfflineFallback]])
       ∧ invokes w (email_scout.scout_from_email cfg mods net query user_id w).2
           [if imports_email_scout_real mods then SharedService else OfflineFallback]
       ∧ invokes w (internet_scout.internet_scout cfg mods net query user_id w).2
           [if imports_internet_scout_real mods then SharedService else OfflineFallback])
  ∧ (∀ user_id w,
       (∃ ps w', linkedin_scout.linkedin_scout cfg mods net query user_id w = (Ok ps, w')
                 ∧ chain_outcome (Some "linkedin_oauth") (imports_linkedin_scout_real mods)
                     (linkedin_scout_real.linkedin_scout cfg net query) linkedin_scout.mock
                     w ps w')
       ∧ (∃ ps w', x_scout.x_scout cfg mods net query user_id w = (Ok ps, w')
                   ∧ chain_outcome (Some "twitter_oauth") (imports_x_scout_real mods)
                       (x_scout_real.x_scout cfg net query) x_scout.mock w ps w')
       ∧ (∃ ps w', email_scout.scout_from_email cfg mods net query user_id w = (Ok ps, w')
                   ∧ chain_outcome None (imports_email_scout_real mods)
                       (email_scout_real.scout_from_email cfg net query) email_scout.mock
                       w ps w')
       ∧ (∃ ps w', internet_scout.internet_scout cfg mods net query user_id w = (Ok ps, w')
                   ∧ chain_outcome None (imports_internet_scout_real mods)
                       (internet_scout_real.internet_scout cfg net query)
                       internet_scout.mock w ps w'))
  ∧ (∀ user_id w w',
       (linkedin_scout.linkedin_scout cfg mods net query user_id w = (Ok [], w') →
        imports_linkedin_scout_real mods = true
        ∧ linkedin_scout_real.linkedin_scout cfg net query = Ok [])
       ∧ (x_scout.x_scout cfg mods net query user_id w = (Ok [], w') →
          imports_x_scout_real mods = true ∧ x_scout_real.x_scout cfg net query = Ok [])
       ∧ (email_scout.scout_from_email cfg mods net query user_id w = (Ok [], w') →
          imports_email_scout_real mods = true
          ∧ email_scout_real.scout_from_email cfg net query = Ok [])
       ∧ (internet_scout.internet_scout cfg mods net query user_id w = (Ok [], w') →
          imports_internet_scout_real mods = true
          ∧ internet_scout_real.internet_scout cfg net query = Ok []))
  ∧ length linkedin_scout.mock = 1%nat ∧ length x_scout.mock = 1%nat
  ∧ length email_scout.mock = 1%nat ∧ length internet_scout.mock = 1%nat.
Proof.
  split_and!; try reflexivity.
  - apply linkedin_hybrid_chain.
  - apply x_hybrid_chain.
  - intros user_id w. split; [apply email_scout_lower_tiers|apply internet_scout_lower_tiers].
  - intros user_id w. split_and!.
    + apply linkedin_scout_order.
    + apply x_scout_order.
    + rewrite email_scout_lower_tiers. apply invokes_lower_tiers.
    + rewrite internet_scout_lower_tiers. apply invokes_lower_tiers.
  - intros user_id w. split_and!.
    + apply linkedin_scout_cases.
    + apply x_scout_cases.
    + apply email_scout_cases.
    + apply internet_scout_cases.
  - intros user_id w w'. split_and!; intros Hrun.
    + destruct (linkedin_scout_cases cfg mods net query user_id w) as (ps & w1 & H & Hout).
      rewrite Hrun in H. injection H as <- <-.
      eapply chain_outcome_empty; [|exact Hout]. discriminate.
    + destruct (x_scout_cases cfg mods net query user_id w) as (ps & w1 & H & Hout).
      rewrite Hrun in H. injection H as <- <-.
      eapply chain_outcome_empty; [|exact Hout]. discriminate.
    + destruct (email_scout_cases cfg mods net query user_id w) as (ps & w1 & H & Hout).
      rewrite Hrun in H. injection H as <- <-.
      eapply chain_outcome_empty; [|exact Hout]. discriminate.
    + destruct (internet_scout_cases cfg mods net query user_id w) as (ps & w1 & H & Hout).
      rewrite Hrun in H. injection H as <- <-.
      eapply chain_outcome_empty; [|exact Hout]. discriminate.
Qed.

(** The user [u1] of [connected_world] searches LinkedIn on a network
    where the search with the user's token finds nobody: the
    AuthenticatedUser tier is invoked and left, and the call ends as the
    lower tiers do. *)
Lemma fallback_chain_outcomes_witness :
  linkedin_scout.linkedin_scout sample_config all_installed quiet_network "founders"
    (Some "u1") connected_world
  = lower_tiers "linkedin" "founders" true
      (linkedin_scout_real.linkedin_scout sample_config quiet_network "founders")
      linkedin_scout.mock
      (linkedin_scout_enhanced.linkedin_scout_enhanced sample_config quiet_network
         "founders" (Some "u1")
         (tier_entry "linkedin" "linkedin" "u1" "founders" connected_world)).2.
Proof.
  destruct (proj1 (proj1 (fallback_chain_outcomes sample_config all_installed quiet_network
                            "founders"))
              "u1" connected_world
              {| access_token := VStr "token"; refresh_token_of := VNone;
                 expires_at := None;
                 token_data := mkdict [("access_token", VStr "token")] |}
              connected_world
              (linkedin_scout_enhanced._fallback_linkedin_search sample_config "founders")
              (linkedin_scout_enhanced.linkedin_scout_enhanced sample_config quiet_network
                 "founders" (Some "u1")
                 (tier_entry "linkedin" "linkedin" "u1" "founders" connected_world)).2)
    as [Hrun _].
  - reflexivity.
  - reflexivity.
  - vm_compute. reflexivity.
  - vm_compute. reflexivity.
  - rewrite Hrun. vm_compute. reflexivity.
Defined.

(** C4 fails as stated: two records with the same profile URL, whose
    names differ only by case and spacing, have the same identity key in
    the words of the specification, yet both are kept; and two records
    with the same name but different handles have different identity
    keys, yet the second is dropped. *)
Lemma dedup_ignores_handles_and_urls :
  spec_identity_key same_url_a = spec_identity_key same_url_b
  ∧ validate_and_rank [same_url_a; same_url_b] "" ""
    = Ok [set_score same_url_a; set_score same_url_b]
  ∧ spec_identity_key namesake_a ≠ spec_identity_key namesake_b
  ∧ validate_and_rank [namesake_a; namesake_b] "" "" = Ok [set_score namesake_a].
Proof. split_and!; vm_compute; done. Qed.

(** C4, amended.  [validate_and_rank] keys each record by the exact value
    of its ['name'] field.  When it returns, its result is the list of
    the records that are the first of their name in the input, in input
    order, each with its ['score'] field set to the placeholder and every
    other field as it was: the names of the result are pairwise
    distinct, every name of the input occurs in it, and nothing of a
    dropped record is merged into a kept one. *)
Theorem dedup_keeps_first_by_name (ps : list profile) (goal company_info : string)
    (out : list profile) :
  validate_and_rank ps goal company_info = Ok out →
  out = set_score <$> first_occurrences ps
  ∧ NoDup (names out)
  ∧ (∀ p : profile, p ∈ ps → p !! "name" ∈ names out)
  ∧ first_occurrences ps `sublist_of` ps
  ∧ (∀ (p : profile) (k : string), k ≠ "score" → set_score p !! k = p !! k).
Proof.
  intros ->%validate_and_rank_first_occurrences.
  destruct (firsts_from_names ps []) as (Hnd & _ & Hcov & Hsub).
  rewrite names_set_score. split_and!; [done|done| |done|].
  - intros p Hp. destruct (Hcov p Hp) as [Hin|Hin]; [by inversion Hin|done].
  - intros p k Hk. unfold set_score. by rewrite lookup_insert_ne.
Qed.

Lemma dedup_keeps_first_by_name_witness :
  validate_and_rank [namesake_a; same_url_a; namesake_b] "" ""
  = Ok [set_score namesake_a; set_score same_url_a]
  ∧ [set_score namesake_a; set_score same_url_a]
    = set_score <$> first_occurrences [namesake_a; same_url_a; namesake_b]
  ∧ NoDup (names [set_score namesake_a; set_score same_url_a]).
Proof.
  assert (validate_and_rank [namesake_a; same_url_a; namesake_b] "" ""
          = Ok [set_score namesake_a; set_score same_url_a]) as H.
  { vm_compute. reflexivity. }
  split; [exact H|].
  destruct (dedup_keeps_first_by_name _ _ _ _ H) as (H1 & H2 & _).
  split; [exact H1|exact H2].
Defined.

(** C5 fails as stated: four records carrying the scores 0.5, 0.9, 0.9
    and 0.1 come back in their input order, each with the score 1.0. *)
Lemma ranking_ignores_input_scores :
  validate_and_rank four_scored "" "" = Ok (set_score <$> four_scored)
  ∧ names (set_score <$> four_scored)
    = [Some (VStr "a"); Some (VStr "b"); Some (VStr "c"); Some (VStr "d")]
  ∧ scores (set_score <$> four_scored) = replicate 4 (Some placeholder_score)
  ∧ scores (set_score <$> four_scored)
    ≠ [Some (VNum (frac 9 10)); Some (VNum (frac 9 10));
       Some (VNum (frac 5 10)); Some (VNum (frac 1 10))].
Proof. split_and!; vm_compute; done. Qed.

(** C5, amended.  The sorting step of [validate_and_rank] is a stable
    descending sort by score: its output is a permutation of its input,
    ordered by non-increasing score, with the records of equal score in
    their input order; on records scored 0.5, 0.9, 0.9, 0.1 it gives
    0.9, 0.9, 0.5, 0.1 with the two 0.9 records in input order.  But
    [validate_and_rank] first overwrites the score of every record it
    keeps with the placeholder 1.0, so what it returns is in arrival
    order. *)
Theorem ranking_is_stable_on_placeholder_scores :
  (∀ l out, sorted_by_score l = Ok out →
     out ≡ₚ l ∧ StronglySorted score_ge out
     ∧ ∀ k, filter (λ x, score_key x = Ok k) out = filter (λ x, score_key x = Ok k) l)
  ∧ sorted_by_score four_scored
    = Ok [scored "b" (frac 9 10); scored "c" (frac 9 10); scored "a" (frac 5 10);
          scored "d" (frac 1 10)]
  ∧ (∀ ps goal company_info out,
       validate_and_rank ps goal company_info = Ok out →
       out = set_score <$> first_occurrences ps
       ∧ Forall (λ p : profile, p !! "score" = Some placeholder_score) out).
Proof.
  split_and!.
  - apply sorted_by_score_spec.
  - vm_compute. reflexivity.
  - intros ps goal company_info out ->%validate_and_rank_first_occurrences.
    split; [done|]. apply Forall_fmap, Forall_true. intros p.
    unfold set_score. simpl. by rewrite lookup_insert_eq.
Qed.

Lemma ranking_is_stable_on_placeholder_scores_witness :
  [scored "b" (frac 9 10); scored "c" (frac 9 10); scored "a" (frac 5 10);
   scored "d" (frac 1 10)] ≡ₚ four_scored
  ∧ Forall (λ p : profile, p !! "score" = Some placeholder_score)
      (set_score <$> four_scored).
Proof.
  destruct ranking_is_stable_on_placeholder_scores as (Hsort & Hfour & Hrank).
  split.
  - exact (proj1 (Hsort _ _ Hfour)).
  - apply (Hrank four_scored "" "" (set_score <$> four_scored)).
    vm_compute. reflexivity.
Defined.

(** C6 fails as stated.  Two e-mail addresses are scouted and the
    provider is down for the first.  When it knows nobody at the second,
    the request succeeds, but the answer lists the failure under
    ['errors'] and has no ['warnings']; when it returns a record without
    a name for the second, the request fails with status 500. *)
Lemma partial_failure_may_carry_no_warnings :
  (∃ resp,
     app.lead_discovery stub_uuid4 stub_str stub_format stub_interpret_goal
       stub_barren_scout stub_idle_scout stub_idle_scout stub_idle_scout
       stub_generate_message partial_failure_request empty_world = (Ok resp, empty_world)
     ∧ resp = NoProfiles ["Email scout failed for down@example.com: provider down"] None
     ∧ response_warnings resp = None)
  ∧ (∃ resp,
       app.lead_discovery stub_uuid4 stub_str stub_format stub_interpret_goal
         stub_nameless_scout stub_idle_scout stub_idle_scout stub_idle_scout
         stub_generate_message partial_failure_request empty_world = (Ok resp, empty_world)
       ∧ status_code resp = 500).
Proof.
  split; eexists; (split; [vm_compute; reflexivity|]); by vm_compute.
Qed.

(** C6, amended.  The fan-out stage runs every scout call in turn; a
    call that raises is caught at its own boundary and leaves one entry,
    and the calls after it are still made.  In a run that dispatches
    exactly two calls, of which one raises and the other returns the
    list [ps]: when [ps] is not empty, each of its profiles has a name
    and message generation does not fail, the route answers with status
    200, a list of warnings of length one, and the profiles kept from
    [ps], each with its message; when [ps] is empty the route answers
    with status 200, no profile and the failure under ['errors'], without
    ['warnings']; when a profile of [ps] has no name the route answers
    with status 500. *)
Theorem partial_failure_is_absorbed
    (uuid4 : nat → string) (str : exn → string) (format : pyval → string)
    (interpret_goal : string → string → list string → result (gmap string (list string)))
    (scout_from_email linkedin_scout x_scout internet_scout
       : string → option string → M (list profile))
    (generate_message : profile → string → string → result string) :
  (∀ emails plan uid w,
     app.scouting str scout_from_email linkedin_scout x_scout internet_scout emails plan uid w
     = (Ok (collected (run_all (scout_calls scout_from_email linkedin_scout x_scout
                                  internet_scout emails plan uid) w).1,
            failures str (run_all (scout_calls scout_from_email linkedin_scout x_scout
                                     internet_scout emails plan uid) w).1),
        (run_all (scout_calls scout_from_email linkedin_scout x_scout internet_scout
                    emails plan uid) w).2)
     ∧ length (run_all (scout_calls scout_from_email linkedin_scout x_scout internet_scout
                          emails plan uid) w).1
       = length (scout_calls scout_from_email linkedin_scout x_scout internet_scout
                   emails plan uid))
  ∧ (∀ req emails company_info goal n plan w uid w0 outs w1 failed e survived ps,
       req_is_json req = true →
       req_emails req = Some emails → emails ≠ [] →
       req_company_info req = Some company_info → str_truthy company_info = true →
       req_goal req = Some goal → str_truthy goal = true →
       app.requested_target req = Some n →
       app.resolve_user uuid4 req w = (Ok uid, w0) →
       interpret_goal goal company_info emails = Ok plan →
       run_all (scout_calls scout_from_email linkedin_scout x_scout internet_scout
                  emails plan uid) w0 = (outs, w1) →
       outs ≡ₚ [(failed, Raise e); (survived, Ok ps)] →
       (ps ≠ [] → Forall has_hashable_name ps →
        (∀ p, is_ok (generate_message p goal company_info)) →
        ∃ resp,
          app.lead_discovery uuid4 str format interpret_goal scout_from_email linkedin_scout
            x_scout internet_scout generate_message req w = (Ok resp, w1)
          ∧ status_code resp = 200
          ∧ response_warnings resp = Some [failed +:+ str e]
          ∧ response_errors resp = None
          ∧ response_profiles resp
            = add_message generate_message goal company_info
                <$> take (Z.to_nat n) (set_score <$> first_occurrences ps))
       ∧ (ps = [] →
          ∃ resp,
            app.lead_discovery uuid4 str format interpret_goal scout_from_email
              linkedin_scout x_scout internet_scout generate_message req w = (Ok resp, w1)
            ∧ status_code resp = 200
            ∧ response_warnings resp = None
            ∧ response_errors resp = Some [failed +:+ str e]
            ∧ response_profiles resp = [])
       ∧ (¬ Forall has_hashable_name ps →
          ∃ resp,
            app.lead_discovery uuid4 str format interpret_goal scout_from_email
              linkedin_scout x_scout internet_scout generate_message req w = (Ok resp, w1)
            ∧ status_code resp = 500)).
Proof.
  split.
  - intros emails plan uid w. rewrite scouting_run_all.
    split; [by destruct (run_all _ w)|apply run_all_length].
  - intros req emails company_info goal n plan w uid w0 outs w1 failed e survived ps
      Hjson Hemails Hne Hci Hcit Hgoal Hgt Hn Huser Hplan Hrun Hperm.
    assert (collected outs = ps ∧ failures str outs = [failed +:+ str e]) as [Hc Hf].
    { symmetry in Hperm. apply Permutation_length_2_inv in Hperm as [->| ->].
      - split; [|done]. unfold collected. simpl. by rewrite app_nil_r.
      - split; [|done]. unfold collected. simpl. by rewrite app_nil_r. }
    split_and!.
    + intros Hps Hnames Hmsg. eexists. split.
      * eapply lead_discovery_success; eauto; by rewrite Hc.
      * rewrite Hc, Hf. simpl. done.
    + intros ->. eexists. split; [eapply lead_discovery_no_profiles; eauto|].
      by rewrite Hf.
    + intros Hnames.
      rewrite (lead_discovery_valid uuid4 str format interpret_goal scout_from_email
                 linkedin_scout x_scout internet_scout generate_message
                 req emails company_info goal w uid w0); [|by split_and!|done].
      rewrite Hn, Hplan, Hrun, Hc.
      destruct ps as [|p ps]; [by destruct Hnames|]. cbn [nonempty].
      destruct (validate_and_rank (p :: ps) goal company_info) as [ranked|e'] eqn:Hrank.
      * destruct Hnames. apply (validate_and_rank_ok_iff (p :: ps) goal company_info).
        by rewrite Hrank.
      * by eexists.
Qed.

(** Two e-mail addresses are scouted; the provider is down for the first
    and finds one lead for the second. *)
Lemma partial_failure_is_absorbed_witness :
  ∃ resp,
    app.lead_discovery stub_uuid4 stub_str stub_format stub_interpret_goal stub_email_scout
      stub_idle_scout stub_idle_scout stub_idle_scout stub_generate_message
      partial_failure_request empty_world = (Ok resp, empty_world)
    ∧ status_code resp = 200
    ∧ response_warnings resp
      = Some ["Email scout failed for down@example.com: provider down"]
    ∧ response_errors resp = None
    ∧ response_profiles resp
      = add_message stub_generate_message "Find founders" "VoiceFlow AI"
          <$> take (Z.to_nat 5) (set_score <$> first_occurrences [stub_lead]).
Proof.
  apply (proj1 (proj2 (partial_failure_is_absorbed stub_uuid4 stub_str stub_format
                  stub_interpret_goal stub_email_scout stub_idle_scout stub_idle_scout
                  stub_idle_scout stub_generate_message)
           partial_failure_request ["down@example.com"; "up@example.com"]
           "VoiceFlow AI" "Find founders" 5 ∅ empty_world None empty_world
           [("Email scout failed for down@example.com: ", Raise (OtherError "provider down"));
            ("Email scout failed for up@example.com: ", Ok [stub_lead])]
           empty_world
           "Email scout failed for down@example.com: " (OtherError "provider down")
           "Email scout failed for up@example.com: " [stub_lead]
           eq_refl eq_refl ltac:(discriminate) eq_refl eq_refl eq_refl eq_refl eq_refl
           eq_refl eq_refl ltac:(vm_compute; reflexivity) ltac:(reflexivity))).
  - discriminate.
  - repeat constructor. exists (VStr "Found Lead"). split; [|reflexivity].
    vm_compute. reflexivity.
  - intros p. exact I.
Defined.

(** C7. Credential expiry.  When the stored credential of a (user,
    platform) pair has an expiry time in the past, [get_user_token]
    enters [refresh_token], which finds no new token, and returns [None];
    the table of credentials is left as it was; and a later call, at the
    same or a later time, enters [refresh_token] again. *)
Theorem expired_token_is_kept_and_refreshed_again (u p : string) (w : world) (row : token_row) :
  select_latest_token u p (social_tokens w) = Some row →
  is_expired w row = true →
  get_user_token u p w = (Ok None, with_trace (trace w ++ [EvRefresh u p]) w)
  ∧ social_tokens (with_trace (trace w ++ [EvRefresh u p]) w) = social_tokens w
  ∧ refresh_attempts u p (trace (with_trace (trace w ++ [EvRefresh u p]) w))
    = S (refresh_attempts u p (trace w))
  ∧ ∀ dt ds, (0 ≤ dt)%Qc →
      ∃ w3, get_user_token u p (advance dt ds (with_trace (trace w ++ [EvRefresh u p]) w))
            = (Ok None, w3)
            ∧ social_tokens w3 = social_tokens w
            ∧ refresh_attempts u p (trace w3) = S (S (refresh_attempts u p (trace w))).
Proof. intros Hrow Hexp. by apply expired_token_cases with row. Qed.

Lemma expired_token_is_kept_and_refreshed_again_witness :
  get_user_token "u1" "linkedin" expired_world
  = (Ok None, with_trace [EvRefresh "u1" "linkedin"] expired_world)
  ∧ social_tokens (with_trace [EvRefresh "u1" "linkedin"] expired_world)
    = social_tokens expired_world.
Proof.
  destruct (expired_token_is_kept_and_refreshed_again "u1" "linkedin" expired_world
              (sample_token 1 "linkedin" (Some (frac 500 1))))
    as (H1 & H2 & _).
  - vm_compute. reflexivity.
  - vm_compute. reflexivity.
  - split; [exact H1|exact H2].
Defined.

(** C8 is not what the code does.  Every successful [store_social_token]
    adds a row for its (user, platform) pair: after two of them the pair
    has two rows more than before, not one row overwritten. *)
Theorem store_twice_keeps_both_rows (u p : string) (td1 td2 : pydict) (w w1 w2 : world) :
  store_social_token u p td1 w = (Ok tt, w1) →
  store_social_token u p td2 w1 = (Ok tt, w2) →
  length (credential_rows u p w2) = S (S (length (credential_rows u p w))).
Proof.
  intros H1%store_social_token_adds_row H2%store_social_token_adds_row. lia.
Qed.

Lemma store_twice_keeps_both_rows_witness :
  length (credential_rows "u1" "linkedin"
            (store_social_token "u1" "linkedin" (mkdict [("access_token", VStr "B")])
               (store_social_token "u1" "linkedin" (mkdict [("access_token", VStr "A")])
                  empty_world).2).2) = 2%nat.
Proof.
  apply (store_twice_keeps_both_rows "u1" "linkedin"
           (mkdict [("access_token", VStr "A")]) (mkdict [("access_token", VStr "B")])
           empty_world
           (store_social_token "u1" "linkedin" (mkdict [("access_token", VStr "A")])
              empty_world).2).
  - vm_compute. reflexivity.
  - vm_compute. reflexivity.
Defined.

(** C9 is not what the code does.  From a state without usage rows for
    the (user, platform) pair, three calls of [track_api_usage] followed
    by [get_user_usage] with a window of one day give the map
    [{e: 9}]: every call inserts a row counting 1 and then increments
    every row of the key, the new one included. *)
Theorem three_tracks_count_nine (u p e : string) (w : world) :
  Forall (λ r, ¬ of_pair u p r) (api_usage w) →
  ∃ w3,
    bind (track_api_usage (Some u) p e) (λ _,
    bind (track_api_usage (Some u) p e) (λ _,
    bind (track_api_usage (Some u) p e) (λ _,
    get_user_usage u p 1))) w = (Ok {[ e := 9 ]}, w3).
Proof. apply track_three_then_usage. Qed.

Lemma three_tracks_count_nine_witness :
  ∃ w3,
    bind (track_api_usage (Some "u1") "twitter" "search") (λ _,
    bind (track_api_usage (Some "u1") "twitter" "search") (λ _,
    bind (track_api_usage (Some "u1") "twitter" "search") (λ _,
    get_user_usage "u1" "twitter" 1))) empty_world = (Ok {[ "search" := 9 ]}, w3).
Proof.
  apply (three_tracks_count_nine "u1" "twitter" "search" empty_world).
  simpl. constructor.
Defined.

(** C10. [validate_and_rank] reads ['name'] in every record: it returns
    only if every record has that key; it does return when every record
    has a hashable name; and it raises [KeyError 'name'] at the first
    record without the key, so that some inputs make it raise instead of
    returning a list. *)
Theorem validate_and_rank_needs_name (ps : list profile) (goal company_info : string) :
  (is_ok (validate_and_rank ps goal company_info) → Forall has_name ps)
  ∧ (Forall has_hashable_name ps → is_ok (validate_and_rank ps goal company_info))
  ∧ (∀ pre (p : profile) post,
       ps = pre ++ p :: post → Forall has_hashable_name pre → p !! "name" = None →
       validate_and_rank ps goal company_info = Raise (KeyError "name"))
  ∧ (∃ input : list profile,
       Exists (λ p : profile, p !! "name" = None) input
       ∧ validate_and_rank input goal company_info = Raise (KeyError "name")).
Proof.
  split_and!.
  - intros H%validate_and_rank_ok_iff. eapply Forall_impl; [exact H|].
    intros p (v & Hv & _). by exists v.
  - apply validate_and_rank_ok_iff.
  - intros pre p post -> Hpre Hp. unfold validate_and_rank.
    by rewrite dedup_loop_key_error.
  - exists [∅]. split; [by constructor|reflexivity].
Qed.

Lemma validate_and_rank_needs_name_witness :
  validate_and_rank [namesake_a; mkdict [("title", VStr "CTO")]; same_url_a] "" ""
  = Raise (KeyError "name")
  ∧ is_ok (validate_and_rank [namesake_a; same_url_a] "" "").
Proof.
  split.
  - apply (proj1 (proj2 (proj2 (validate_and_rank_needs_name
             [namesake_a; mkdict [("title", VStr "CTO")]; same_url_a] "" "")))
             [namesake_a] (mkdict [("title", VStr "CTO")]) [same_url_a]).
    + reflexivity.
    + repeat constructor. exists (VStr "Ann Lee"). split; [|reflexivity].
      vm_compute. reflexivity.
    + vm_compute. reflexivity.
  - apply (proj1 (proj2 (validate_and_rank_needs_name [namesake_a; same_url_a] "" ""))).
    repeat constructor.
    + exists (VStr "Ann Lee"). split; [|reflexivity]. vm_compute. reflexivity.
    + exists (VStr "Bob Smith"). split; [|reflexivity]. vm_compute. reflexivity.
Defined.

(** * Further properties of the code *)

(** ** user_auth.py: credentials *)

Lemma select_latest_token_fold u p rows :
  select_latest_token u p rows = foldl (latest_step u p) None rows.
Proof. reflexivity. Qed.

Lemma latest_fold_spec u p rows : ∀ best,
  match foldl (latest_step u p) best rows with
  | Some row =>
      (best = Some row ∨ (row ∈ rows ∧ token_matches u p row = true))
      ∧ (∀ b, best = Some b → tok_created_at b ≤ tok_created_at row)
      ∧ (∀ r, r ∈ rows → token_matches u p r = true → tok_created_at r ≤ tok_created_at row)
  | None => best = None ∧ ∀ r, r ∈ rows → token_matches u p r = false
  end.
Proof.
  induction rows as [|r rows IH]; intros best; simpl.
  - destruct best as [b|].
    + split_and!; [by left|by intros ? [= ->]|by inversion 1].
    + split; [done|by inversion 1].
  - specialize (IH (latest_step u p best r)).
    destruct (foldl (latest_step u p) (latest_step u p best r) rows) as [row|].
    + destruct IH as (Hin & Hbest & Hall). unfold latest_step in Hin, Hbest.
      destruct (token_matches u p r) eqn:Hm.
      * destruct best as [b|].
        -- destruct (decide (tok_created_at b < tok_created_at r)) as [Hlt|Hge].
           ++ specialize (Hbest r eq_refl). split_and!.
              ** destruct Hin as [[= <-]|[Hin ?]]; right; split; try done;
                   [apply elem_of_cons; by left|by apply elem_of_cons; right].
              ** intros b' [= <-]. lia.
              ** intros r' [->|Hr']%elem_of_cons Hm'; [done|by apply Hall].
           ++ specialize (Hbest b eq_refl). split_and!.
              ** destruct Hin as [[= <-]|[Hin ?]]; [by left|right].
                 split; [by apply elem_of_cons; right|done].
              ** by intros b' [= <-].
              ** intros r' [->|Hr']%elem_of_cons Hm'; [lia|by apply Hall].
        -- specialize (Hbest r eq_refl). split_and!.
           ++ right. destruct Hin as [[= <-]|[Hin ?]]; split; try done;
                [apply elem_of_cons; by left|by apply elem_of_cons; right].
           ++ done.
           ++ intros r' [->|Hr']%elem_of_cons Hm'; [done|by apply Hall].
      * split_and!.
        -- destruct Hin as [?|[Hin ?]]; [by left|right].
           split; [by apply elem_of_cons; right|done].
        -- done.
        -- intros r' [->|Hr']%elem_of_cons Hm'; [congruence|by apply Hall].
    + destruct IH as [Hnone Hall]. unfold latest_step in Hnone.
      destruct (token_matches u p r) eqn:Hm.
      * destruct best as [b|]; [|done]. by destruct (decide _).
      * split; [done|]. intros r' [->|Hr']%elem_of_cons; [done|by apply Hall].
Qed.

Lemma select_latest_token_Some u p rows row :
  select_latest_token u p rows = Some row →
  row ∈ rows ∧ token_matches u p row = true
  ∧ ∀ r, r ∈ rows → token_matches u p r = true → tok_created_at r ≤ tok_created_at row.
Proof.
  intros H. pose proof (latest_fold_spec u p rows None) as Hs.
  rewrite <- select_latest_token_fold, H in Hs.
  destruct Hs as ([?|[? ?]] & _ & Hall); [done|]. by split_and!.
Qed.

Lemma select_latest_token_None u p rows :
  select_latest_token u p rows = None ↔ ∀ r, r ∈ rows → token_matches u p r = false.
Proof.
  pose proof (latest_fold_spec u p rows None) as Hs.
  rewrite <- select_latest_token_fold in Hs. split.
  - intros H. rewrite H in Hs. by destruct Hs.
  - intros Hall. destruct (select_latest_token u p rows) as [row|]; [|done].
    destruct Hs as ([?|[Hin Hm]] & _); [done|]. rewrite (Hall _ Hin) in Hm. done.
Qed.

Lemma get_user_token_result u p w :
  ∃ w', get_user_token u p w
        = (Ok (match select_latest_token u p (social_tokens w) with
               | Some row => if is_expired w row then None else Some (token_of_row row)
               | None => None
               end), w')
        ∧ same_database w w'.
Proof.
  unfold get_user_token.
  destruct (select_latest_token u p (social_tokens w)) as [row|]; [|by exists w].
  destruct (is_expired w row) eqn:He; [|by exists w].
  eexists. unfold bind. rewrite refresh_token_fails. split; [done|]. by split_and!.
Qed.

Lemma token_matches_iff u p r :
  token_matches u p r = true ↔ tok_user_id r = u ∧ tok_platform r = p.
Proof. unfold token_matches. by rewrite andb_true_iff, !bool_decide_eq_true. Qed.

Lemma select_latest_token_snoc_newer u p rows new :
  token_matches u p new = true →
  (∀ r, r ∈ rows → token_matches u p r = true → tok_created_at r < tok_created_at new) →
  select_latest_token u p (rows ++ [new]) = Some new.
Proof.
  intros Hm Hold. rewrite select_latest_token_fold, foldl_app. simpl.
  pose proof (latest_fold_spec u p rows None) as Hs.
  unfold latest_step at 1. rewrite Hm.
  destruct (foldl (latest_step u p) None rows) as [b|]; [|done].
  destruct Hs as ([?|[Hin Hb]] & _); [done|].
  rewrite decide_True; [done|]. by apply Hold.
Qed.

Lemma select_latest_token_snoc_other u p rows new :
  token_matches u p new = false →
  select_latest_token u p (rows ++ [new]) = select_latest_token u p rows.
Proof.
  intros Hm. rewrite !select_latest_token_fold, foldl_app. simpl.
  unfold latest_step at 1. by rewrite Hm.
Qed.

Lemma store_social_token_run u p td w :
  store_social_token u p td w
  = if storable td then
      (Ok tt,
       with_social_tokens
         (social_tokens w
          ++ [{| tok_id := next_id (tok_id <$> social_tokens w);
                 tok_user_id := u; tok_platform := p;
                 tok_access_token := default VNone (td !! "access_token");
                 tok_refresh_token := default VNone (td !! "refresh_token");
                 tok_expires_at := stored_expiry w td; tok_token_data := td;
                 tok_created_at := utc_now w |}]) w)
    else (Raise (match td !! "expires_in" with
                 | None | Some (VNum _) => OtherError "sqlite3.InterfaceError"
                 | Some _ => TypeError
                 end), w).
Proof.
  unfold store_social_token, storable, stored_expiry.
  destruct (td !! "expires_in") as [[]|]; simpl; try done.
  - destruct (bindable _ && bindable _); [|done].
    by rewrite insert_or_replace_token_fresh.
  - destruct (bindable _ && bindable _); [|done].
    by rewrite insert_or_replace_token_fresh.
Qed.

Lemma store_social_token_then_get (u p : string) (td : pydict) (w w1 : world) :
  store_social_token u p td w = (Ok tt, w1) →
  (∀ r, r ∈ social_tokens w → tok_user_id r = u → tok_platform r = p →
        tok_created_at r < utc_now w) →
  (∀ secs, td !! "expires_in" = Some (VNum secs) → (0 ≤ secs)%Qc) →
  get_user_token u p w1
  = (Ok (Some {| access_token := default VNone (td !! "access_token");
                 refresh_token_of := default VNone (td !! "refresh_token");
                 expires_at := stored_expiry w td;
                 token_data := td |}), w1).
Proof.
  intros Hstore Hold Hsecs. rewrite store_social_token_run in Hstore.
  destruct (storable td); [|done]. injection Hstore as <-.
  unfold get_user_token. simpl.
  rewrite select_latest_token_snoc_newer.
  - unfold is_expired. simpl. unfold stored_expiry.
    destruct (td !! "expires_in") as [[| |secs|]|] eqn:He; try done.
    rewrite bool_decide_false; [done|].
    apply Qcle_not_lt, Qc_le_plus_nonneg. by apply Hsecs.
  - by apply token_matches_iff.
  - intros r Hr [Hu Hp]%token_matches_iff. simpl. by apply Hold.
Qed.

(** ** Further properties of user_auth.py *)

(** X1. [get_user_token] never changes the database.  A token it returns
    is built from a row of the (user, platform) pair that is not expired
    and that no other row of the pair is newer than; when the pair has
    no row it returns [None]. *)
Theorem get_user_token_returns_latest_unexpired (u p : string) (w : world) :
  (∃ r w', get_user_token u p w = (Ok r, w') ∧ same_database w w')
  ∧ (∀ tok w', get_user_token u p w = (Ok (Some tok), w') →
       ∃ row, row ∈ social_tokens w ∧ tok_user_id row = u ∧ tok_platform row = p
              ∧ tok = token_of_row row ∧ is_expired w row = false
              ∧ ∀ r, r ∈ social_tokens w → tok_user_id r = u → tok_platform r = p →
                     tok_created_at r ≤ tok_created_at row)
  ∧ ((∀ r, r ∈ social_tokens w → ¬ (tok_user_id r = u ∧ tok_platform r = p)) →
     get_user_token u p w = (Ok None, w)).
Proof.
  destruct (get_user_token_result u p w) as (w1 & Hrun & Hdb). split_and!.
  - eauto.
  - intros tok w' H. rewrite Hrun in H.
    destruct (select_latest_token u p (social_tokens w)) as [row|] eqn:Hsel; [|done].
    destruct (is_expired w row) eqn:He; [done|]. injection H as <- <-.
    apply select_latest_token_Some in Hsel as (Hin & [Hu Hp]%token_matches_iff & Hall).
    exists row. split_and!; try done.
    intros r Hr Hru Hrp. apply Hall; [done|]. by apply token_matches_iff.
  - intros Hnone. unfold get_user_token.
    assert (select_latest_token u p (social_tokens w) = None) as ->; [|done].
    apply select_latest_token_None. intros r Hr.
    destruct (token_matches u p r) eqn:Hm; [|done].
    apply token_matches_iff in Hm. by destruct (Hnone r Hr).
Qed.

Lemma get_user_token_returns_latest_unexpired_witness :
  get_user_token "u1" "linkedin" empty_world = (Ok None, empty_world)
  ∧ ∃ row, row ∈ social_tokens connected_world ∧ tok_platform row = "twitter"
           ∧ token_of_row (sample_token 2 "twitter" None) = token_of_row row.
Proof.
  split.
  - apply (proj2 (proj2 (get_user_token_returns_latest_unexpired "u1" "linkedin"
                           empty_world))).
    intros r Hr. inversion Hr.
  - destruct (proj1 (proj2 (get_user_token_returns_latest_unexpired "u1" "twitter"
                              connected_world))
                (token_of_row (sample_token 2 "twitter" None)) connected_world)
      as (row & Hin & _ & Hp & Htok & _).
    + vm_compute. reflexivity.
    + by exists row.
Defined.

(** X2. Round trip.  After a successful [store_social_token] for a pair
    whose earlier rows were all created in an earlier second, with
    access and refresh tokens that are texts or absent and an
    [expires_in] that is absent or not negative, [get_user_token] at the
    same instant returns the token just stored: its access and refresh
    tokens, the expiry computed from [expires_in], and the payload
    itself. *)
Theorem store_then_get_round_trip (u p : string) (td : pydict) (w w1 : world) :
  store_social_token u p td w = (Ok tt, w1) →
  text_or_absent (td !! "access_token") →
  text_or_absent (td !! "refresh_token") →
  (∀ r, r ∈ social_tokens w → tok_user_id r = u → tok_platform r = p →
        tok_created_at r < utc_now w) →
  (∀ secs, td !! "expires_in" = Some (VNum secs) → (0 ≤ secs)%Qc) →
  get_user_token u p w1
  = (Ok (Some {| access_token := default VNone (td !! "access_token");
                 refresh_token_of := default VNone (td !! "refresh_token");
                 expires_at := stored_expiry w td;
                 token_data := td |}), w1).
Proof. intros Hstore _ _. by apply store_social_token_then_get. Qed.

Lemma store_then_get_round_trip_witness :
  get_user_token "u1" "twitter"
    (store_social_token "u1" "twitter"
       (mkdict [("access_token", VStr "A"); ("expires_in", VNum (frac 3600 1))])
       empty_world).2
  = (Ok (Some {| access_token := VStr "A"; refresh_token_of := VNone;
                 expires_at := Some (frac 4600 1);
                 token_data := mkdict [("access_token", VStr "A");
                                       ("expires_in", VNum (frac 3600 1))] |}),
     (store_social_token "u1" "twitter"
        (mkdict [("access_token", VStr "A"); ("expires_in", VNum (frac 3600 1))])
        empty_world).2).
Proof.
  assert (store_social_token "u1" "twitter"
            (mkdict [("access_token", VStr "A"); ("expires_in", VNum (frac 3600 1))])
            empty_world
          = (Ok tt, (store_social_token "u1" "twitter"
                       (mkdict [("access_token", VStr "A");
                                ("expires_in", VNum (frac 3600 1))]) empty_world).2)) as H.
  { vm_compute. reflexivity. }
  pose proof (store_then_get_round_trip _ _ _ _ _ H) as Hget.
  etransitivity; [apply Hget|].
  - exact I.
  - exact I.
  - intros r Hr. inversion Hr.
  - intros secs Hs. vm_compute in Hs. injection Hs as <-. vm_compute. discriminate.
  - vm_compute. reflexivity.
Defined.

(** X3. Storing a token for one (user, platform) pair does not change
    what [get_user_token] returns for any other pair. *)
Theorem store_leaves_other_pairs_alone (u p u' p' : string) (td : pydict) (w w1 : world) :
  store_social_token u p td w = (Ok tt, w1) →
  u' ≠ u ∨ p' ≠ p →
  (get_user_token u' p' w1).1 = (get_user_token u' p' w).1.
Proof.
  intros Hstore Hne. rewrite store_social_token_run in Hstore.
  destruct (storable td); [|done]. injection Hstore as <-.
  destruct (get_user_token_result u' p' w) as (wa & -> & _).
  match goal with |- (get_user_token u' p' ?w1).1 = _ =>
    destruct (get_user_token_result u' p' w1) as (wb & -> & _) end.
  simpl. rewrite select_latest_token_snoc_other; [done|].
  apply not_true_is_false. intros [Hu Hp]%token_matches_iff. simpl in *.
  destruct Hne; congruence.
Qed.

Lemma store_leaves_other_pairs_alone_witness :
  (get_user_token "u1" "linkedin"
     (store_social_token "u1" "twitter" (mkdict [("access_token", VStr "B")])
        connected_world).2).1
  = (get_user_token "u1" "linkedin" connected_world).1.
Proof.
  apply (store_leaves_other_pairs_alone "u1" "twitter" "u1" "linkedin"
           (mkdict [("access_token", VStr "B")]) connected_world).
  - vm_compute. reflexivity.
  - right. discriminate.
Defined.

(** X4. [store_social_token] either appends exactly one row holding the
    payload and changes nothing else, or raises and leaves the world as
    it was.  It raises [TypeError] when [expires_in] is present and not
    a number, and it raises when the access or refresh token is a list;
    it appends the row, without an expiry, when [expires_in] is absent
    and the tokens are texts or absent. *)
Theorem store_rejects_or_appends (u p : string) (td : pydict) (w : world) :
  ((∃ row, store_social_token u p td w
           = (Ok tt, with_social_tokens (social_tokens w ++ [row]) w)
           ∧ tok_user_id row = u ∧ tok_platform row = p ∧ tok_token_data row = td
           ∧ tok_created_at row = utc_now w)
   ∨ ∃ e, store_social_token u p td w = (Raise e, w))
  ∧ (∀ v, td !! "expires_in" = Some v → (∀ secs, v ≠ VNum secs) →
          store_social_token u p td w = (Raise TypeError, w))
  ∧ (bindable (default VNone (td !! "access_token")) = false
     ∨ bindable (default VNone (td !! "refresh_token")) = false →
     ∃ e, store_social_token u p td w = (Raise e, w))
  ∧ (td !! "expires_in" = None →
     text_or_absent (td !! "access_token") → text_or_absent (td !! "refresh_token") →
     ∃ row, store_social_token u p td w
            = (Ok tt, with_social_tokens (social_tokens w ++ [row]) w)
            ∧ tok_user_id row = u ∧ tok_platform row = p ∧ tok_token_data row = td
            ∧ tok_access_token row = default VNone (td !! "access_token")
            ∧ tok_refresh_token row = default VNone (td !! "refresh_token")
            ∧ tok_expires_at row = None ∧ tok_created_at row = utc_now w).
Proof.
  rewrite store_social_token_run. split_and!.
  - destruct (storable td); [left; eexists; by split_and!|right; by eexists].
  - intros v Hv Hnum. unfold storable. rewrite Hv.
    destruct v as [| |secs|]; simpl; try done. by destruct (Hnum secs).
  - intros Hlist. assert (storable td = false) as ->; [|by eexists].
    unfold storable. destruct Hlist as [-> | ->]; by rewrite ?andb_false_r.
  - intros Hexp Ha Hr. assert (storable td = true) as ->.
    { unfold storable. rewrite Hexp.
      destruct (td !! "access_token") as [[]|]; try done;
        destruct (td !! "refresh_token") as [[]|]; done. }
    eexists. split_and!; try done. unfold stored_expiry. by rewrite Hexp.
Qed.

Lemma store_rejects_or_appends_witness :
  store_social_token "u1" "twitter" (mkdict [("expires_in", VStr "3600")]) empty_world
  = (Raise TypeError, empty_world).
Proof.
  apply (proj1 (proj2 (store_rejects_or_appends "u1" "twitter"
                         (mkdict [("expires_in", VStr "3600")]) empty_world))
           (VStr "3600")).
  - vm_compute. reflexivity.
  - discriminate.
Defined.

Lemma uuid_taken_iff id us : uuid_taken id us = true ↔ id ∈ usr_user_id <$> us.
Proof.
  unfold uuid_taken. induction us as [|r us IH].
  - split; [done|by inversion 1].
  - rewrite fmap_cons, elem_of_cons. cbn [existsb].
    rewrite orb_true_iff, IH, String.eqb_eq. split; (intros [?|?]; [by left|by right]).
Qed.

Lemma find_user_by_email_None email us :
  find_user_by_email email us = None ↔ email ∉ usr_email <$> us.
Proof.
  unfold find_user_by_email. induction us as [|r us IH].
  - split; [by inversion 2|done].
  - rewrite fmap_cons, not_elem_of_cons. cbn [List.find].
    destruct (String.eqb (usr_email r) email) eqn:He; cbn [fmap option_fmap option_map].
    + apply String.eqb_eq in He. split; [done|]. by intros [? _].
    + apply String.eqb_neq in He. rewrite IH. split; [by split|by intros [_ ?]].
Qed.

Lemma find_user_by_email_Some email us id :
  find_user_by_email email us = Some id →
  ∃ r, r ∈ us ∧ usr_user_id r = id ∧ usr_email r = email.
Proof.
  unfold find_user_by_email. induction us as [|r us IH]; simpl; [done|].
  destruct (String.eqb (usr_email r) email) eqn:He; simpl.
  - apply String.eqb_eq in He. intros [= <-]. exists r. split_and!; [by left|done|done].
  - intros (r' & ? & ? & ?)%IH. exists r'. split_and!; [by right|done|done].
Qed.

Lemma find_user_by_email_snoc email us r :
  find_user_by_email email us = None → usr_email r = email →
  find_user_by_email email (us ++ [r]) = Some (usr_user_id r).
Proof.
  unfold find_user_by_email. intros Hnone Hr.
  induction us as [|r' us IH]; simpl in *.
  - by rewrite Hr, String.eqb_refl.
  - destruct (String.eqb (usr_email r') email); [done|]. by apply IH.
Qed.

(** X5. [create_user] keeps e-mail addresses and identifiers unique.  The
    identifier it returns belongs to a user registered under the given
    address, and asking again for the same address returns the same
    identifier without adding a row.  It returns [None] exactly when the
    generated identifier is already taken while the address is new. *)
Theorem create_user_is_idempotent (uuid4 : nat → string) (email : string) (w : world) :
  ∃ r w', create_user uuid4 email w = (Ok r, w')
    ∧ (users_unique w → users_unique w')
    ∧ (∀ id, r = Some id →
         (∃ row, row ∈ users w' ∧ usr_user_id row = id ∧ usr_email row = email)
         ∧ ∃ w'', create_user uuid4 email w' = (Ok (Some id), w'')
                  ∧ users w'' = users w')
    ∧ (r = None ↔ uuid4 (uuid_count w) ∈ usr_user_id <$> users w
                  ∧ email ∉ usr_email <$> users w).
Proof.
  unfold create_user.
  destruct (uuid_taken (uuid4 (uuid_count w)) (users w)) eqn:Htaken; simpl.
  - eexists _, _. split; [done|]. split_and!.
    + done.
    + intros id Hid. split; [by apply find_user_by_email_Some|]. simpl.
      rewrite Hid. simpl. rewrite orb_true_r. by eexists.
    + rewrite find_user_by_email_None, <- uuid_taken_iff. split; [by split|by intros [_ ?]].
  - destruct (find_user_by_email email (users w)) as [id0|] eqn:Hfind; simpl.
    + eexists _, _. split; [done|]. split_and!.
      * done.
      * intros id [= <-]. split; [by apply find_user_by_email_Some|]. simpl.
        rewrite Hfind. simpl. rewrite orb_true_r. by eexists.
      * split; [done|]. intros [_ Habs]. apply find_user_by_email_None in Habs. congruence.
    + eexists _, _. split; [done|]. split_and!.
      * intros [He Hi]. unfold users_unique. simpl. rewrite !fmap_app. simpl.
        split; apply NoDup_app; split_and!; try done.
        -- intros x Hx ->%list_elem_of_singleton.
           by apply find_user_by_email_None in Hfind.
        -- apply NoDup_singleton.
        -- intros x Hx ->%list_elem_of_singleton.
           apply uuid_taken_iff in Hx. congruence.
        -- apply NoDup_singleton.
      * intros id [= <-]. split.
        -- eexists. split; [apply elem_of_app; right; by left|done].
        -- simpl.
           rewrite (find_user_by_email_snoc email (users w)
                      {| usr_user_id := uuid4 (uuid_count w); usr_email := email;
                         usr_created_at := utc_now w |} Hfind eq_refl). simpl.
           rewrite orb_true_r. by eexists.
      * split; [done|]. intros [Habs _]. apply uuid_taken_iff in Habs. congruence.
Qed.

Lemma create_user_is_idempotent_witness :
  ∃ r w', create_user stub_uuid4 "me@example.com" empty_world = (Ok r, w')
    ∧ (users_unique empty_world → users_unique w').
Proof.
  destruct (create_user_is_idempotent stub_uuid4 "me@example.com" empty_world)
    as (r & w' & Hrun & Hunique & _).
  by exists r, w'.
Defined.

(** ** Usage counters *)

Lemma sum_bump cs : foldr Z.add 0 (bump <$> cs) = foldr Z.add 0 cs + Z.of_nat (length cs).
Proof.
  induction cs as [|c cs IH]; [done|].
  rewrite fmap_cons. cbn [foldr length]. rewrite IH. unfold bump. lia.
Qed.

Lemma counters_after n :
  let cs := Nat.iter n (λ cs, (bump <$> cs) ++ [2]) [] in
  length cs = n ∧ 2 * foldr Z.add 0 cs = Z.of_nat n * (Z.of_nat n + 3).
Proof.
  induction n as [|n [IHl IHs]]; [done|].
  rewrite Nat.iter_succ. cbv zeta in *.
  set (cs := Nat.iter n (λ cs, (bump <$> cs) ++ [2]) []) in *.
  rewrite length_app, length_fmap, IHl. split; [simpl; lia|].
  rewrite foldr_app. simpl.
  assert (∀ (l : list Z) a, foldr Z.add a l = foldr Z.add 0 l + a) as Hacc.
  { clear. induction l as [|x l IH]; intros a; simpl; [lia|]. rewrite IH. lia. }
  rewrite Hacc, sum_bump, IHl. lia.
Qed.

Lemma times_track_key u p e n : ∀ w cs,
  only_key u p e (today w) (api_usage w) cs →
  ∃ w', times n (track_api_usage (Some u) p e) w = (Ok tt, w')
        ∧ today w' = today w
        ∧ only_key u p e (today w') (api_usage w')
            (Nat.iter n (λ cs, (bump <$> cs) ++ [2]) cs).
Proof.
  induction n as [|n IH]; intros w cs Hk.
  - by exists w.
  - destruct (track_api_usage_key u p e w cs Hk) as (w1 & Hrun & Hd & Hk1).
    destruct (IH w1 _ Hk1) as (w2 & Hrun2 & Hd2 & Hk2).
    exists w2. cbn [times]. unfold bind. rewrite Hrun, Hrun2.
    split_and!; [done|congruence|].
    rewrite Nat.iter_succ_r. exact Hk2.
Qed.

(** X6. Starting without usage rows for a (user, platform) pair, [n]
    calls of [track_api_usage] for one endpoint make [get_user_usage]
    report the total [n * (n + 3) / 2] for it: 2 after one call, 5 after
    two, 9 after three. *)
Theorem repeated_tracking_counts_quadratically (u p e : string) (n : nat) (w : world) :
  (0 < n)%nat →
  Forall (λ r, ¬ of_pair u p r) (api_usage w) →
  ∃ total w',
    bind (times n (track_api_usage (Some u) p e)) (λ _, get_user_usage u p 1) w
    = (Ok {[ e := total ]}, w')
    ∧ 2 * total = Z.of_nat n * (Z.of_nat n + 3).
Proof.
  intros Hn Hnone.
  assert (only_key u p e (today w) (api_usage w) []) as H0.
  { split; [by rewrite filter_none|]. eapply Forall_impl; [exact Hnone|].
    intros r Hr Hp. by destruct Hr. }
  destruct (times_track_key u p e n w [] H0) as (w' & Hrun & Hd & Hk).
  destruct (counters_after n) as [Hlen Hsum]. cbv zeta in Hlen, Hsum.
  set (cs := Nat.iter n (λ cs, (bump <$> cs) ++ [2]) []) in *.
  exists (foldr Z.add 0 cs), w'. split; [|done].
  unfold bind. rewrite Hrun, (get_user_usage_key u p e w' cs Hk).
  destruct cs; [simpl in Hlen; lia|done].
Qed.

Lemma repeated_tracking_counts_quadratically_witness :
  ∃ total w',
    bind (times 2 (track_api_usage (Some "u1") "twitter" "search"))
      (λ _, get_user_usage "u1" "twitter" 1) empty_world
    = (Ok {[ "search" := total ]}, w')
    ∧ 2 * total = Z.of_nat 2 * (Z.of_nat 2 + 3).
Proof.
  apply (repeated_tracking_counts_quadratically "u1" "twitter" "search" 2 empty_world).
  - lia.
  - constructor.
Defined.

Lemma filter_fmap_fixed {A} (P : A → Prop) `{!∀ x, Decision (P x)} (f : A → A) (l : list A) :
  (∀ x, P x → f x = x) → (∀ x, ¬ P x → ¬ P (f x)) →
  filter P (f <$> l) = filter P l.
Proof.
  intros Hfix Hkeep. induction l as [|x l IH]; [done|].
  rewrite fmap_cons, !filter_cons, IH.
  destruct (decide (P x)) as [Hx|Hx].
  - rewrite (Hfix x Hx). by rewrite decide_True.
  - rewrite decide_False; [done|]. by apply Hkeep.
Qed.

Lemma sql_eq_Some a b : sql_eq a (Some b) = true ↔ a = Some b.
Proof.
  destruct a as [x|]; simpl; [|by split].
  rewrite String.eqb_eq. split; [by intros ->|by intros [= ->]].
Qed.

Lemma track_api_usage_other_pair (uo : option string) (p e u' p' : string) (d : nat)
    (w : world) :
  uo ≠ Some u' ∨ p ≠ p' →
  (get_user_usage u' p' d (track_api_usage uo p e w).2).1 = (get_user_usage u' p' d w).1.
Proof.
  intros Hne. unfold get_user_usage, track_api_usage. simpl. f_equal. f_equal.
  change (today (with_api_usage _ w)) with (today w).
  rewrite (filter_fmap_fixed _ _ (api_usage w ++ _)).
  - rewrite filter_app, filter_cons_False, filter_nil, app_nil_r; [done|].
    simpl. intros (Hu%sql_eq_Some & Hp & _). destruct Hne; congruence.
  - intros r (Hu%sql_eq_Some & Hp & _).
    destruct (usage_matches uo p e (today w) r) eqn:Hm; [|done].
    unfold usage_matches in Hm. rewrite !andb_true_iff in Hm.
    destruct Hm as [[[Hs Hp'%String.eqb_eq] _] _].
    rewrite Hu in Hs. destruct uo as [x|]; simpl in Hs; [|done].
    apply String.eqb_eq in Hs. destruct Hne; congruence.
  - intros r Hr. by destruct (usage_matches uo p e (today w) r).
Qed.

(** X7. Tracking a call for one (user, platform) pair changes the usage
    [get_user_usage] reports for no other pair, over any window; usage
    tracked without a user identifier changes nobody's usage. *)
Theorem tracking_is_confined_to_its_pair (uo : option string) (p e u' p' : string)
    (days : nat) (w : world) :
  uo ≠ Some u' ∨ p ≠ p' →
  (get_user_usage u' p' days (track_api_usage uo p e w).2).1
  = (get_user_usage u' p' days w).1.
Proof. apply track_api_usage_other_pair. Qed.

Lemma tracking_is_confined_to_its_pair_witness :
  (get_user_usage "u2" "twitter" 1
     (track_api_usage (Some "u1") "twitter" "search" empty_world).2).1
  = (get_user_usage "u2" "twitter" 1 empty_world).1.
Proof.
  apply (tracking_is_confined_to_its_pair (Some "u1") "twitter" "search" "u2" "twitter" 1
           empty_world).
  left. discriminate.
Defined.

(** X8. The searches the enhanced modules make with a user's token file
    their usage under a missing user identifier: after
    [_search_with_user_token], of either module, [get_user_usage] reports
    for every user, platform and window what it reported before. *)
Theorem token_search_usage_is_attributed_to_nobody (net : network) (query : string)
    (token : user_token) (u p : string) (days : nat) (w : world) :
  (get_user_usage u p days
     (linkedin_scout_enhanced._search_with_user_token net query token w).2).1
  = (get_user_usage u p days w).1
  ∧ (get_user_usage u p days
       (x_scout_enhanced._search_with_user_token net query token w).2).1
    = (get_user_usage u p days w).1.
Proof.
  split.
  - apply (track_api_usage_other_pair None "linkedin" "profile_search" u p days w).
    by left.
  - apply (track_api_usage_other_pair None "twitter" "user_search" u p days w).
    by left.
Qed.

Lemma get_user_connections_perm u w :
  ∃ cs, get_user_connections u w = (Ok cs, w)
        ∧ cs ≡ₚ connection_of w <$> filter (λ r, tok_user_id r = u) (social_tokens w).
Proof.
  eexists. split; [reflexivity|].
  apply fmap_Permutation.
  rewrite sort_desc_perm. by rewrite <- list_fmap_compose, list_fmap_id.
Qed.

(** X9. [UserAuthManager.get_user_connections] lists one entry for every
    row stored for the user, so each successful [store_social_token] for
    a platform adds an entry for that platform: a platform connected
    twice is listed twice. *)
Theorem connections_list_every_row (u p : string) (td : pydict) (w w1 : world) :
  store_social_token u p td w = (Ok tt, w1) →
  ∃ cs cs1,
    get_user_connections u w = (Ok cs, w)
    ∧ get_user_connections u w1 = (Ok cs1, w1)
    ∧ length cs = length (filter (λ r, tok_user_id r = u) (social_tokens w))
    ∧ length cs1 = S (length cs)
    ∧ length (filter (λ c, con_platform c = p) cs1)
      = S (length (filter (λ c, con_platform c = p) cs)).
Proof.
  intros Hstore. rewrite store_social_token_run in Hstore.
  destruct (storable td); [|done]. injection Hstore as Hw1.
  destruct (get_user_connections_perm u w) as (cs & Hcs & Hp).
  destruct (get_user_connections_perm u w1) as (cs1 & Hcs1 & Hp1).
  exists cs, cs1. subst w1. cbn [social_tokens with_social_tokens] in Hp1.
  assert (filter (λ r, tok_user_id r = u)
            (social_tokens w
             ++ [{| tok_id := next_id (tok_id <$> social_tokens w);
                    tok_user_id := u; tok_platform := p;
                    tok_access_token := default VNone (td !! "access_token");
                    tok_refresh_token := default VNone (td !! "refresh_token");
                    tok_expires_at := stored_expiry w td; tok_token_data := td;
                    tok_created_at := utc_now w |}])
          = filter (λ r, tok_user_id r = u) (social_tokens w)
            ++ [{| tok_id := next_id (tok_id <$> social_tokens w);
                   tok_user_id := u; tok_platform := p;
                   tok_access_token := default VNone (td !! "access_token");
                   tok_refresh_token := default VNone (td !! "refresh_token");
                   tok_expires_at := stored_expiry w td; tok_token_data := td;
                   tok_created_at := utc_now w |}]) as Heq.
  { rewrite filter_app. f_equal. by rewrite filter_cons_True. }
  pose proof (Permutation_length Hp) as Hl.
  pose proof (Permutation_length Hp1) as Hl1.
  pose proof (Permutation_length (filter_Permutation (λ c, con_platform c = p) _ _ Hp)) as Hf.
  pose proof (Permutation_length (filter_Permutation (λ c, con_platform c = p) _ _ Hp1))
    as Hf1.
  rewrite Heq in Hl1, Hf1. rewrite fmap_app in Hl1, Hf1.
  rewrite filter_app in Hf1. rewrite length_app in Hl1, Hf1.
  rewrite length_fmap in Hl. 
  split_and!; [done|done|done| |].
  - rewrite Hl1, Hl. rewrite !length_fmap. simpl. lia.
  - rewrite Hf1, Hf. rewrite fmap_cons, fmap_nil.
    match goal with |- context [filter ?P [?c]] =>
      assert (filter P [c] = [c]) as -> by by rewrite filter_cons_True end.
    change (connection_of (with_social_tokens _ w)) with (connection_of w).
    simpl. lia.
Qed.

Lemma connections_list_every_row_witness :
  ∃ cs cs1,
    get_user_connections "u1" connected_world = (Ok cs, connected_world)
    ∧ get_user_connections "u1"
        (store_social_token "u1" "twitter" (mkdict [("access_token", VStr "B")])
           connected_world).2
      = (Ok cs1, (store_social_token "u1" "twitter" (mkdict [("access_token", VStr "B")])
                    connected_world).2)
    ∧ length cs = length (filter (λ r, tok_user_id r = "u1") (social_tokens connected_world))
    ∧ length cs1 = S (length cs)
    ∧ length (filter (λ c, con_platform c = "twitter") cs1)
      = S (length (filter (λ c, con_platform c = "twitter") cs)).
Proof.
  apply (connections_list_every_row "u1" "twitter" (mkdict [("access_token", VStr "B")])
           connected_world).
  vm_compute. reflexivity.
Defined.




Lemma same_database_refl w : same_database w w.
Proof. by split_and!. Qed.

Lemma same_database_trace w t : same_database w (with_trace t w).
Proof. by split_and!. Qed.

Lemma same_database_trans w1 w2 w3 :
  same_database w1 w2 → same_database w2 w3 → same_database w1 w3.
Proof. intros (?&?&?&?&?) (?&?&?&?&?). split_and!; congruence. Qed.

(** The second and third strategies of a wrapper, run in world [w]. *)
Lemma later_strategies_run source q imports (real : result (list profile)) mock w :
  is_ok real →
  bind (except_ImportError
          (bind (import imports) (λ _,
           bind (log (EvTier source SharedService q)) (λ _,
           bind (lift real) (λ profiles, ret (Some profiles)))))
          (ret None))
       (λ second, match second with
                  | Some profiles => ret profiles
                  | None => bind (log (EvTier source OfflineFallback q)) (λ _, ret mock)
                  end) w
  = (Ok (if imports then match real with Ok ps => ps | Raise _ => [] end else mock),
     with_trace (trace w ++ [EvTier source (if imports then SharedService else OfflineFallback) q])
       w).
Proof.
  intros [ps Hreal]%is_ok_inv. destruct imports.
  - unfold bind, except_ImportError, import, log, lift, ret. by rewrite Hreal.
  - done.
Qed.

Lemma linkedin_strategy1_anonymous cfg mods net q uid w :
  opt_truthy uid = false →
  linkedin_scout.strategy1 cfg mods net q uid w = (Ok None, w).
Proof.
  destruct uid as [u|]; [|done]. simpl. intros Hu.
  unfold linkedin_scout.strategy1. by rewrite Hu.
Qed.

Lemma x_strategy1_anonymous cfg mods net q uid w :
  opt_truthy uid = false →
  x_scout.strategy1 cfg mods net q uid w = (Ok None, w).
Proof.
  destruct uid as [u|]; [|done]. simpl. intros Hu.
  unfold x_scout.strategy1. by rewrite Hu.
Qed.

Lemma linkedin_scout_enhanced_result cfg net q uid w :
  ∃ ps w', linkedin_scout_enhanced.linkedin_scout_enhanced cfg net q uid w = (Ok ps, w')
           ∧ (ps = linkedin_scout_enhanced._fallback_linkedin_search cfg q
              ∨ ∃ v, ps = linkedin_people_search net q v).
Proof.
  unfold linkedin_scout_enhanced.linkedin_scout_enhanced.
  destruct uid as [u|]; [|eexists _, _; split; [reflexivity|by left]].
  destruct (str_truthy u); [|eexists _, _; split; [reflexivity|by left]].
  unfold bind at 1 2.
  destruct (get_user_token_result u "linkedin" w) as (w1 & -> & _).
  destruct (match select_latest_token u "linkedin" (social_tokens w) with
            | Some row => if is_expired w row then None else Some (token_of_row row)
            | None => None
            end) as [tok|]; [|eexists _, _; split; [reflexivity|by left]].
  unfold linkedin_scout_enhanced._search_with_user_token, bind, track_api_usage, ret.
  destruct (linkedin_people_search net q (access_token tok)) eqn:Hs; simpl.
  - eexists _, _; split; [reflexivity|by left].
  - eexists _, _; split; [reflexivity|]. right. by exists (access_token tok).
Qed.

Lemma x_scout_enhanced_result cfg net q uid w :
  ∃ ps w', x_scout_enhanced.x_scout_enhanced cfg net q uid w = (Ok ps, w')
           ∧ (ps = x_scout_enhanced._fallback_twitter_search cfg net q
              ∨ ∃ v, ps = twitter_people_search net q v).
Proof.
  unfold x_scout_enhanced.x_scout_enhanced.
  destruct uid as [u|]; [|eexists _, _; split; [reflexivity|by left]].
  destruct (str_truthy u); [|eexists _, _; split; [reflexivity|by left]].
  unfold bind at 1 2.
  destruct (get_user_token_result u "twitter" w) as (w1 & -> & _).
  destruct (match select_latest_token u "twitter" (social_tokens w) with
            | Some row => if is_expired w row then None else Some (token_of_row row)
            | None => None
            end) as [tok|]; [|eexists _, _; split; [reflexivity|by left]].
  unfold x_scout_enhanced._search_with_user_token, bind, track_api_usage, ret.
  destruct (twitter_people_search net q (access_token tok)) eqn:Hs; simpl.
  - eexists _, _; split; [reflexivity|by left].
  - eexists _, _; split; [reflexivity|]. right. by exists (access_token tok).
Qed.

Lemma linkedin_fallback_untagged cfg q :
  tagged "linkedin_oauth" (linkedin_scout_enhanced._fallback_linkedin_search cfg q) = false.
Proof.
  unfold linkedin_scout_enhanced._fallback_linkedin_search.
  destruct (str_truthy _); [done|]. by vm_compute.
Qed.

Lemma linkedin_strategy1_untagged cfg mods net q uid w :
  (∀ v, tagged "linkedin_oauth" (linkedin_people_search net q v) = false) →
  ∃ w1, linkedin_scout.strategy1 cfg mods net q uid w = (Ok None, w1).
Proof.
  intros Hun.
  destruct (opt_truthy uid) eqn:Hu;
    [|by exists w; apply linkedin_strategy1_anonymous].
  destruct uid as [u|]; [|done]. simpl in Hu.
  destruct (get_user_token_cases u "linkedin" w) as [[tok H]|[H|H]].
  - destruct (imports_linkedin_scout_enhanced mods) eqn:Hi.
    + rewrite (linkedin_strategy1_entered _ _ _ _ _ _ _ _ Hu Hi H).
      destruct (linkedin_scout_enhanced_result cfg net q (Some u)
                  (tier_entry "linkedin" "linkedin" u q w)) as (ps & w2 & -> & Hps).
      exists w2. assert (tagged "linkedin_oauth" ps = false) as ->.
      { destruct Hps as [->|[v ->]]; [apply linkedin_fallback_untagged|apply Hun]. }
      by rewrite andb_false_r.
    + exists w. unfold linkedin_scout.strategy1. rewrite Hu, strategy_linkedin. simpl.
      unfold bind at 1. rewrite H. unfold except_ImportError, bind, import. by rewrite Hi.
  - exists w. unfold linkedin_scout.strategy1. rewrite Hu, strategy_linkedin. simpl.
    unfold bind. by rewrite H.
  - eexists. unfold linkedin_scout.strategy1. rewrite Hu, strategy_linkedin. simpl.
    unfold bind. by rewrite H.
Qed.

Lemma x_strategy1_untagged cfg mods net q uid w :
  (∀ v, tagged "twitter_oauth" (twitter_people_search net q v) = false) →
  tagged "twitter_oauth" (x_scout_enhanced._fallback_twitter_search cfg net q) = false →
  ∃ w1, x_scout.strategy1 cfg mods net q uid w = (Ok None, w1).
Proof.
  intros Hun Hfb.
  destruct (opt_truthy uid) eqn:Hu;
    [|by exists w; apply x_strategy1_anonymous].
  destruct uid as [u|]; [|done]. simpl in Hu.
  destruct (get_user_token_cases u "twitter" w) as [[tok H]|[H|H]].
  - destruct (imports_x_scout_enhanced mods) eqn:Hi.
    + rewrite (x_strategy1_entered _ _ _ _ _ _ _ _ Hu Hi H).
      destruct (x_scout_enhanced_result cfg net q (Some u)
                  (tier_entry "x" "twitter" u q w)) as (ps & w2 & -> & Hps).
      exists w2. assert (tagged "twitter_oauth" ps = false) as ->.
      { destruct Hps as [->|[v ->]]; [apply Hfb|apply Hun]. }
      by rewrite andb_false_r.
    + exists w. unfold x_scout.strategy1. rewrite Hu, strategy_x. simpl.
      unfold bind at 1. rewrite H. unfold except_ImportError, bind, import. by rewrite Hi.
  - exists w. unfold x_scout.strategy1. rewrite Hu, strategy_x. simpl.
    unfold bind. by rewrite H.
  - eexists. unfold x_scout.strategy1. rewrite Hu, strategy_x. simpl.
    unfold bind. by rewrite H.
Qed.

Lemma linkedin_scout_after_nothing cfg mods net q uid w w1 :
  linkedin_scout.strategy1 cfg mods net q uid w = (Ok None, w1) →
  linkedin_scout.linkedin_scout cfg mods net q uid w
  = (Ok (if imports_linkedin_scout_real mods
         then match linkedin_scout_real.linkedin_scout cfg net q with
              | Ok ps => ps | Raise _ => []
              end
         else linkedin_scout.mock),
     with_trace (trace w1 ++ [EvTier "linkedin"
                                (if imports_linkedin_scout_real mods
                                 then SharedService else OfflineFallback) q]) w1).
Proof.
  intros H1. unfold linkedin_scout.linkedin_scout. unfold bind at 1. rewrite H1.
  apply (later_strategies_run "linkedin" q (imports_linkedin_scout_real mods)
           (linkedin_scout_real.linkedin_scout cfg net q) linkedin_scout.mock w1
           (linkedin_scout_real_ok _ _ _)).
Qed.

Lemma x_scout_after_nothing cfg mods net q uid w w1 :
  x_scout.strategy1 cfg mods net q uid w = (Ok None, w1) →
  x_scout.x_scout cfg mods net q uid w
  = (Ok (if imports_x_scout_real mods
         then match x_scout_real.x_scout cfg net q with
              | Ok ps => ps | Raise _ => []
              end
         else x_scout.mock),
     with_trace (trace w1 ++ [EvTier "x"
                                (if imports_x_scout_real mods
                                 then SharedService else OfflineFallback) q]) w1).
Proof.
  intros H1. unfold x_scout.x_scout. unfold bind at 1. rewrite H1.
  apply (later_strategies_run "x" q (imports_x_scout_real mods)
           (x_scout_real.x_scout cfg net q) x_scout.mock w1 (x_scout_real_ok _ _ _)).
Qed.

Lemma email_scout_run cfg mods net q uid w :
  email_scout.scout_from_email cfg mods net q uid w
  = (Ok (if imports_email_scout_real mods
         then match email_scout_real.scout_from_email cfg net q with
              | Ok ps => ps | Raise _ => []
              end
         else email_scout.mock),
     with_trace (trace w ++ [EvTier "email"
                               (if imports_email_scout_real mods
                                then SharedService else OfflineFallback) q]) w).
Proof.
  unfold email_scout.scout_from_email, email_scout.shared. rewrite strategy_email.
  apply (later_strategies_run "email" q (imports_email_scout_real mods)
           (email_scout_real.scout_from_email cfg net q) email_scout.mock w
           (email_scout_real_ok _ _ _)).
Qed.

Lemma internet_scout_run cfg mods net q uid w :
  internet_scout.internet_scout cfg mods net q uid w
  = (Ok (if imports_internet_scout_real mods
         then match internet_scout_real.internet_scout cfg net q with
              | Ok ps => ps | Raise _ => []
              end
         else internet_scout.mock),
     with_trace (trace w ++ [EvTier "internet"
                               (if imports_internet_scout_real mods
                                then SharedService else OfflineFallback) q]) w).
Proof.
  unfold internet_scout.internet_scout, internet_scout.shared. rewrite strategy_internet.
  apply (later_strategies_run "internet" q (imports_internet_scout_real mods)
           (internet_scout_real.internet_scout cfg net q) internet_scout.mock w
           (internet_scout_real_ok _ _ _)).
Qed.

Lemma linkedin_scout_real_bound cfg net q ps :
  linkedin_scout_real.linkedin_scout cfg net q = Ok ps → (length ps ≤ 5)%nat.
Proof.
  unfold linkedin_scout_real.linkedin_scout.
  destruct (negb _); [intros [= <-]; simpl; lia|].
  destruct (launch_linkedin_search_phantom net q) as [[id|]|]; simpl;
    try (intros [= <-]; simpl; lia).
  destruct (negb (str_truthy id)); simpl; [intros [= <-]; simpl; lia|].
  destruct (wait_for_phantom_results net id) as [[[|row rows]|]|]; simpl;
    try (intros [= <-]; simpl; lia).
  destruct (convert_linkedin_results net (row :: rows) q) as [profiles|]; simpl;
    intros [= <-]; [|simpl; lia].
  rewrite length_take. lia.
Qed.

Lemma x_scout_real_bound cfg net q ps :
  x_scout_real.x_scout cfg net q = Ok ps → (length ps ≤ 5)%nat.
Proof.
  unfold x_scout_real.x_scout.
  destruct (negb _); [intros [= <-]; simpl; lia|].
  destruct (search_users net q _) as [us|]; simpl; [|intros [= <-]; simpl; lia].
  destruct (search_tweets_for_users net q _) as [ts|]; simpl; [|intros [= <-]; simpl; lia].
  destruct (x_scout_real._deduplicate_profiles (us ++ ts)) as [un|]; simpl;
    intros [= <-]; [|simpl; lia].
  rewrite length_take. lia.
Qed.

Lemma internet_scout_real_bound cfg net q ps :
  internet_scout_real.internet_scout cfg net q = Ok ps → (length ps ≤ 5)%nat.
Proof.
  unfold internet_scout_real.internet_scout.
  destruct (_ || _); [intros [= <-]; simpl; lia|].
  destruct (search_companies net q) as [cs|]; simpl; [|intros [= <-]; simpl; lia].
  destruct (search_profiles net q) as [ps'|]; simpl; [|intros [= <-]; simpl; lia].
  destruct (deduplicate_by_domain net (cs ++ ps')) as [un|]; simpl;
    intros [= <-]; [|simpl; lia].
  rewrite length_take. lia.
Qed.

(** ** Further properties of the scouts *)

(** X11. A scout call without a usable user identifier ([None] or the
    empty string) never reads or writes the database and never invokes
    the AuthenticatedUser tier; the e-mail and web scouts behave so for
    every user identifier. *)
Theorem anonymous_scouting_leaves_the_database cfg mods net (query : string)
    (user_id : option string) (w : world) :
  (opt_truthy user_id = false →
   (∃ ps w', linkedin_scout.linkedin_scout cfg mods net query user_id w = (Ok ps, w')
             ∧ same_database w w'
             ∧ tier_calls AuthenticatedUser (trace w') = tier_calls AuthenticatedUser (trace w)
             ∧ refresh_attempts (default "" user_id) "linkedin" (trace w')
               = refresh_attempts (default "" user_id) "linkedin" (trace w))
   ∧ (∃ ps w', x_scout.x_scout cfg mods net query user_id w = (Ok ps, w')
               ∧ same_database w w'
               ∧ tier_calls AuthenticatedUser (trace w')
                 = tier_calls AuthenticatedUser (trace w)
               ∧ refresh_attempts (default "" user_id) "twitter" (trace w')
                 = refresh_attempts (default "" user_id) "twitter" (trace w)))
  ∧ (∃ ps w', email_scout.scout_from_email cfg mods net query user_id w = (Ok ps, w')
              ∧ same_database w w'
              ∧ tier_calls AuthenticatedUser (trace w') = tier_calls AuthenticatedUser (trace w))
  ∧ (∃ ps w', internet_scout.internet_scout cfg mods net query user_id w = (Ok ps, w')
              ∧ same_database w w'
              ∧ tier_calls AuthenticatedUser (trace w') = tier_calls AuthenticatedUser (trace w)).
Proof.
  assert (∀ source (b : bool) tr,
            tier_calls AuthenticatedUser
              (tr ++ [EvTier source (if b then SharedService else OfflineFallback) query])
            = tier_calls AuthenticatedUser tr) as Hcalls.
  { intros source b tr. rewrite tier_calls_app, tier_calls_tier. destruct b; simpl; lia. }
  assert (∀ u p source (t : tier) tr,
            refresh_attempts u p (tr ++ [EvTier source t query]) = refresh_attempts u p tr)
    as Hrefresh.
  { intros u p source t tr. unfold refresh_attempts.
    rewrite filter_app, length_app, filter_cons_False by done. simpl. lia. }
  split_and!.
  - intros Hu. split.
    + rewrite (linkedin_scout_after_nothing _ _ _ _ _ _ _
                 (linkedin_strategy1_anonymous cfg mods net query user_id w Hu)).
      eexists _, _. split; [reflexivity|]. simpl.
      split_and!; [apply same_database_trace|apply Hcalls|apply Hrefresh].
    + rewrite (x_scout_after_nothing _ _ _ _ _ _ _
                 (x_strategy1_anonymous cfg mods net query user_id w Hu)).
      eexists _, _. split; [reflexivity|]. simpl.
      split_and!; [apply same_database_trace|apply Hcalls|apply Hrefresh].
  - rewrite email_scout_run. eexists _, _. split; [reflexivity|]. simpl.
    split; [apply same_database_trace|apply Hcalls].
  - rewrite internet_scout_run. eexists _, _. split; [reflexivity|]. simpl.
    split; [apply same_database_trace|apply Hcalls].
Qed.

Lemma anonymous_scouting_leaves_the_database_witness :
  ∃ ps w', linkedin_scout.linkedin_scout sample_config all_installed sample_network
             "founders" (Some "") connected_world = (Ok ps, w')
           ∧ same_database connected_world w'.
Proof.
  destruct (proj1 (proj1 (anonymous_scouting_leaves_the_database sample_config all_installed
                            sample_network "founders" (Some "") connected_world) eq_refl))
    as (ps & w' & Hrun & Hdb & _).
  by exists ps, w'.
Defined.

(** X12. The results of the AuthenticatedUser tier are used only when
    they carry its tag.  If the search with the user's token can find no
    profile tagged [linkedin_oauth], [linkedin_scout] returns to every
    user the profiles it returns to an anonymous caller; likewise for
    [x_scout] when neither the search with the user's token nor the
    fallback of the enhanced module gives a profile tagged
    [twitter_oauth]. *)
Theorem untagged_results_are_discarded cfg mods net (query : string)
    (user_id : option string) (w : world) :
  ((∀ v, tagged "linkedin_oauth" (linkedin_people_search net query v) = false) →
   (linkedin_scout.linkedin_scout cfg mods net query user_id w).1
   = (linkedin_scout.linkedin_scout cfg mods net query None w).1)
  ∧ ((∀ v, tagged "twitter_oauth" (twitter_people_search net query v) = false) →
     tagged "twitter_oauth" (x_scout_enhanced._fallback_twitter_search cfg net query) = false →
     (x_scout.x_scout cfg mods net query user_id w).1
     = (x_scout.x_scout cfg mods net query None w).1).
Proof.
  split.
  - intros Hun.
    destruct (linkedin_strategy1_untagged cfg mods net query user_id w Hun) as (w1 & H1).
    rewrite (linkedin_scout_after_nothing _ _ _ _ _ _ _ H1).
    by rewrite (linkedin_scout_after_nothing _ _ _ _ _ _ _
                  (linkedin_strategy1_anonymous cfg mods net query None w eq_refl)).
  - intros Hun Hfb.
    destruct (x_strategy1_untagged cfg mods net query user_id w Hun Hfb) as (w1 & H1).
    rewrite (x_scout_after_nothing _ _ _ _ _ _ _ H1).
    by rewrite (x_scout_after_nothing _ _ _ _ _ _ _
                  (x_strategy1_anonymous cfg mods net query None w eq_refl)).
Qed.

Lemma untagged_results_are_discarded_witness :
  (linkedin_scout.linkedin_scout sample_config all_installed quiet_network
     "founders" (Some "u1") connected_world).1
  = (linkedin_scout.linkedin_scout sample_config all_installed quiet_network
       "founders" None connected_world).1.
Proof.
  apply (proj1 (untagged_results_are_discarded sample_config all_installed quiet_network
                  "founders" (Some "u1") connected_world)).
  intros v. reflexivity.
Defined.

(** X13. Without a usable user identifier, [linkedin_scout] and
    [x_scout] return at most five profiles, and [internet_scout] returns
    at most five profiles to everybody. *)
Theorem anonymous_scouts_return_at_most_five cfg mods net (query : string)
    (user_id : option string) (w : world) :
  (opt_truthy user_id = false →
   ∀ ps w', linkedin_scout.linkedin_scout cfg mods net query user_id w = (Ok ps, w') →
            (length ps ≤ 5)%nat)
  ∧ (opt_truthy user_id = false →
     ∀ ps w', x_scout.x_scout cfg mods net query user_id w = (Ok ps, w') →
              (length ps ≤ 5)%nat)
  ∧ (∀ ps w', internet_scout.internet_scout cfg mods net query user_id w = (Ok ps, w') →
              (length ps ≤ 5)%nat).
Proof.
  split_and!.
  - intros Hu ps w'.
    rewrite (linkedin_scout_after_nothing _ _ _ _ _ _ _
               (linkedin_strategy1_anonymous cfg mods net query user_id w Hu)).
    intros [= <- _]. destruct (imports_linkedin_scout_real mods); [|simpl; lia].
    destruct (linkedin_scout_real.linkedin_scout cfg net query) eqn:Hr; [|simpl; lia].
    by eapply linkedin_scout_real_bound.
  - intros Hu ps w'.
    rewrite (x_scout_after_nothing _ _ _ _ _ _ _
               (x_strategy1_anonymous cfg mods net query user_id w Hu)).
    intros [= <- _]. destruct (imports_x_scout_real mods); [|simpl; lia].
    destruct (x_scout_real.x_scout cfg net query) eqn:Hr; [|simpl; lia].
    by eapply x_scout_real_bound.
  - intros ps w'. rewrite internet_scout_run.
    intros [= <- _]. destruct (imports_internet_scout_real mods); [|simpl; lia].
    destruct (internet_scout_real.internet_scout cfg net query) eqn:Hr; [|simpl; lia].
    by eapply internet_scout_real_bound.
Qed.

Lemma anonymous_scouts_return_at_most_five_witness :
  (length (match (internet_scout.internet_scout sample_config all_installed sample_network
                    "founders" None empty_world).1 with
           | Ok ps => ps | Raise _ => []
           end) ≤ 5)%nat.
Proof.
  apply (proj2 (proj2 (anonymous_scouts_return_at_most_five sample_config all_installed
                         sample_network "founders" None empty_world))
           _ (internet_scout.internet_scout sample_config all_installed sample_network
                "founders" None empty_world).2).
  vm_compute. reflexivity.
Defined.

Lemma str_truthy_iff s : str_truthy s = true ↔ s ≠ "".
Proof.
  unfold str_truthy. rewrite negb_true_iff. split.
  - intros H ->. by rewrite String.eqb_refl in H.
  - intros H. by apply String.eqb_neq.
Qed.

Lemma deduplicate_profiles_loop_spec ps : ∀ seen unique out,
  x_scout_real._deduplicate_profiles_loop ps seen unique = Ok out →
  ∃ kept, out = unique ++ kept
    ∧ kept `sublist_of` ps
    ∧ NoDup (handle_of <$> kept)
    ∧ (∀ p, p ∈ kept → ∃ h, handle_of p = Some h ∧ h ≠ "" ∧ h ∉ seen)
    ∧ (∀ p h, p ∈ ps → handle_of p = Some h → h ≠ "" →
              h ∈ seen ∨ Some h ∈ handle_of <$> kept)
    ∧ Forall (λ p, is_Some (handle_of p)) ps.
Proof.
  induction ps as [|p ps IH]; intros seen unique out H; simpl in H.
  - injection H as <-. exists []. rewrite app_nil_r.
    split_and!; [done|done|constructor|by inversion 1|by inversion 1|constructor].
  - unfold handle_of in *.
    destruct (default (VStr "") (p !! "x_handle")) as [|h| |] eqn:Hp; try done.
    destruct (str_truthy (lower h) && negb (bool_decide (lower h ∈ seen))) eqn:Hc.
    + apply andb_true_iff in Hc as [Ht%str_truthy_iff Hs%negb_true_iff].
      apply bool_decide_eq_false in Hs.
      apply IH in H as (kept & -> & Hsub & Hnd & Hk & Hcov & Hall).
      exists (p :: kept). split_and!.
      * by rewrite <- app_assoc.
      * by apply sublist_skip.
      * rewrite fmap_cons, Hp. constructor; [|done].
        intros (q & Hq & Hin)%list_elem_of_fmap. destruct (Hk q Hin) as (h' & Hh' & _ & Hns).
        rewrite Hh' in Hq. injection Hq as <-. apply Hns. set_solver.
      * intros q [->|Hq]%elem_of_cons.
        -- exists (lower h). by rewrite Hp.
        -- destruct (Hk q Hq) as (h' & ? & ? & Hns). exists h'. split_and!; [done|done|].
           set_solver.
      * intros q h' [->|Hq]%elem_of_cons Hh' Hne.
        -- rewrite Hp in Hh'. injection Hh' as <-.
           destruct (decide (lower h ∈ seen)); [by left|right].
           rewrite fmap_cons, Hp. by left.
        -- destruct (Hcov q h' Hq Hh' Hne) as [[->%elem_of_singleton|?]%elem_of_union|?].
           ++ right. rewrite fmap_cons, Hp. by left.
           ++ by left.
           ++ right. rewrite fmap_cons. by right.
      * constructor; [by rewrite Hp|done].
    + apply IH in H as (kept & -> & Hsub & Hnd & Hk & Hcov & Hall).
      exists kept. split_and!; try done.
      * by apply sublist_cons.
      * intros q h' [->|Hq]%elem_of_cons Hh' Hne; [|by eapply Hcov].
        rewrite Hp in Hh'. injection Hh' as <-.
        apply andb_false_iff in Hc as [Hc|Hc].
        -- apply not_true_iff_false in Hc. by rewrite str_truthy_iff in Hc.
        -- apply negb_false_iff, bool_decide_eq_true in Hc. by left.
      * constructor; [by rewrite Hp|done].
Qed.

Lemma deduplicate_profiles_loop_ok ps : ∀ seen unique,
  Forall (λ p, is_Some (handle_of p)) ps →
  is_ok (x_scout_real._deduplicate_profiles_loop ps seen unique).
Proof.
  induction ps as [|p ps IH]; intros seen unique Hall; [done|].
  apply Forall_cons in Hall as [[h Hh] Hall]. simpl. unfold handle_of in Hh.
  destruct (default (VStr "") (p !! "x_handle")) as [|h'| |]; try done.
  destruct (_ && _); by apply IH.
Qed.

Lemma deduplicate_profiles_loop_firsts ps : ∀ before seen unique out,
  (∀ h, h ∈ seen ↔ h ≠ "" ∧ Some h ∈ handle_of <$> before) →
  x_scout_real._deduplicate_profiles_loop ps seen unique = Ok out →
  out = unique ++ first_handles_from before ps.
Proof.
  induction ps as [|p ps IH]; intros before seen unique out Hseen.
  - simpl. intros [= <-]. by rewrite app_nil_r.
  - cbn [x_scout_real._deduplicate_profiles_loop first_handles_from]. unfold handle_of at 1.
    destruct (default (VStr "") (p !! "x_handle")) as [|h0| |] eqn:Hh0; try done.
    assert (handle_of p = Some (lower h0)) as Hp by (unfold handle_of; by rewrite Hh0).
    destruct (str_truthy (lower h0) && negb (bool_decide (lower h0 ∈ seen))) eqn:Hc.
    + apply andb_true_iff in Hc as [Ht Hn]. apply str_truthy_iff in Ht.
      apply negb_true_iff, bool_decide_eq_false in Hn.
      rewrite decide_True by (split; [done|]; intros Hin; apply Hn, Hseen; by split).
      intros Hrun.
      apply (IH (before ++ [p])) in Hrun; [by rewrite Hrun, <- app_assoc|].
      intros h. rewrite fmap_app, elem_of_app, elem_of_union, elem_of_singleton, Hseen.
      rewrite fmap_cons, Hp. split.
      * intros [->|[? ?]]; [|by split; [|left]].
        split; [done|right; by apply list_elem_of_singleton].
      * intros [Hne [Hin|Hin%list_elem_of_singleton]]; [by right|].
        injection Hin as ->. by left.
    + rewrite decide_False.
      2: { intros [Hne Hnin]. apply andb_false_iff in Hc as [Hc|Hc].
           - apply str_truthy_iff in Hne. congruence.
           - apply negb_false_iff, bool_decide_eq_true in Hc.
             apply Hseen in Hc as [_ Hin]. done. }
      intros Hrun. apply (IH (before ++ [p])) in Hrun; [done|].
      intros h. rewrite fmap_app, elem_of_app, Hseen. rewrite fmap_cons, Hp. split.
      * intros [? ?]. by split; [|left].
      * intros [Hne [Hin|Hin%list_elem_of_singleton]]; [done|].
        injection Hin as ->. split; [done|].
        apply andb_false_iff in Hc as [Hc|Hc].
        -- apply str_truthy_iff in Hne. congruence.
        -- apply negb_false_iff, bool_decide_eq_true in Hc. by apply Hseen in Hc as [_ ?].
Qed.

(** X14. On records whose handles are ASCII texts, [_deduplicate_profiles]
    of the shared X search returns, in input order, the records whose
    handle is not empty and is not the handle of an earlier record,
    handles being compared without regard to case: of the records that
    share a handle the first one is kept.  The records without a handle
    are dropped.  It raises exactly when some record has an ['x_handle']
    that is not a text. *)
Theorem deduplicate_profiles_keeps_first_per_handle (ps : list profile) :
  Forall (λ p, ascii_handle p = true) ps →
  (∀ out, x_scout_real._deduplicate_profiles ps = Ok out →
     out = first_handles ps
     ∧ out `sublist_of` ps
     ∧ NoDup (handle_of <$> out)
     ∧ (∀ p, p ∈ out → ∃ h, handle_of p = Some h ∧ h ≠ "")
     ∧ (∀ p h, p ∈ ps → handle_of p = Some h → h ≠ "" → Some h ∈ handle_of <$> out))
  ∧ (is_ok (x_scout_real._deduplicate_profiles ps)
     ↔ Forall (λ p, is_Some (handle_of p)) ps).
Proof.
  intros _. split.
  - intros out H. split.
    { apply (deduplicate_profiles_loop_firsts ps [] ∅ []) in H; [done|].
      intros h. split; [by intros ?%not_elem_of_empty|]. intros [_ Hin]. inversion Hin. }
    apply deduplicate_profiles_loop_spec in H
      as (kept & -> & Hsub & Hnd & Hk & Hcov & _). simpl.
    split_and!; [done|done| |].
    + intros p Hp. destruct (Hk p Hp) as (h & ? & ? & _). by exists h.
    + intros p h Hp Hh Hne. destruct (Hcov p h Hp Hh Hne) as [Habs|?]; [|done].
      by apply not_elem_of_empty in Habs.
  - split.
    + intros Hok. destruct (x_scout_real._deduplicate_profiles ps) as [out|] eqn:H; [|done].
      by apply deduplicate_profiles_loop_spec in H as (_ & _ & _ & _ & _ & _ & Hall).
    + apply deduplicate_profiles_loop_ok.
Qed.

Lemma deduplicate_profiles_keeps_first_per_handle_witness :
  x_scout_real._deduplicate_profiles
    [handled "Ann" "@Ann"; handled "Bob" ""; handled "Ann again" "@ann"]
  = Ok [handled "Ann" "@Ann"]
  ∧ [handled "Ann" "@Ann"]
    = first_handles [handled "Ann" "@Ann"; handled "Bob" ""; handled "Ann again" "@ann"].
Proof.
  assert (x_scout_real._deduplicate_profiles
            [handled "Ann" "@Ann"; handled "Bob" ""; handled "Ann again" "@ann"]
          = Ok [handled "Ann" "@Ann"]) as H by (vm_compute; reflexivity).
  split; [exact H|].
  refine (proj1 (proj1 (deduplicate_profiles_keeps_first_per_handle _ _) _ H)).
  repeat constructor.
Defined.

(** ** Further properties of validate_rank.py *)

Lemma firsts_from_fixed l : ∀ before,
  NoDup (names l) → (∀ n, n ∈ names l → n ∉ names before) →
  firsts_from before l = l.
Proof.
  induction l as [|p l IH]; intros before Hnd Hfresh; [done|].
  unfold names in Hnd. rewrite fmap_cons in Hnd. apply NoDup_cons in Hnd as [Hp Hnd].
  simpl. rewrite decide_False.
  - f_equal. apply IH; [done|]. intros n Hn. rewrite names_snoc, not_elem_of_app. split.
    + apply Hfresh. unfold names. rewrite fmap_cons. by right.
    + intros ->%list_elem_of_singleton. done.
  - apply Hfresh. unfold names. rewrite fmap_cons. by left.
Qed.

Lemma set_score_idemp (p : profile) : set_score (set_score p) = set_score p.
Proof. unfold set_score. by rewrite insert_insert_eq. Qed.

Lemma has_hashable_name_set_score (p : profile) :
  has_hashable_name p → has_hashable_name (set_score p).
Proof. intros (v & Hv & Hh). exists v. by rewrite name_set_score. Qed.

Lemma validate_and_rank_again ps g c out g' c' :
  validate_and_rank ps g c = Ok out → validate_and_rank out g' c' = Ok out.
Proof.
  intros H.
  assert (Forall has_hashable_name ps) as Hall.
  { apply (validate_and_rank_ok_iff ps g c). by rewrite H. }
  apply validate_and_rank_first_occurrences in H. subst out.
  destruct (firsts_from_names ps []) as (Hnd & _ & _ & Hsub).
  assert (Forall has_hashable_name (set_score <$> first_occurrences ps)) as Hall'.
  { apply Forall_fmap. eapply Forall_impl; [|intros p; apply has_hashable_name_set_score].
    rewrite Forall_forall in Hall |- *. intros p Hp. apply Hall.
    by eapply elem_of_sublist. }
  apply (validate_and_rank_ok_iff _ g' c') in Hall'.
  destruct (validate_and_rank (set_score <$> first_occurrences ps) g' c') as [out|] eqn:H';
    [|done].
  apply validate_and_rank_first_occurrences in H'. subst out. f_equal.
  unfold first_occurrences at 1. rewrite firsts_from_fixed.
  - rewrite <- list_fmap_compose. apply list_fmap_ext. intros _ p _. apply set_score_idemp.
  - by rewrite names_set_score.
  - intros n _ Hn. inversion Hn.
Qed.

(** X15. [validate_and_rank] is idempotent: applied to a list it has
    returned, whatever the goal and company, it returns that list
    again. *)
Theorem validate_and_rank_is_idempotent (ps : list profile)
    (goal company_info goal' company_info' : string) (out : list profile) :
  validate_and_rank ps goal company_info = Ok out →
  validate_and_rank out goal' company_info' = Ok out.
Proof. apply validate_and_rank_again. Qed.

Lemma validate_and_rank_is_idempotent_witness :
  validate_and_rank [set_score namesake_a; set_score same_url_a] "goal" "company"
  = Ok [set_score namesake_a; set_score same_url_a].
Proof.
  apply (validate_and_rank_is_idempotent [namesake_a; same_url_a; namesake_b] "" "").
  vm_compute. reflexivity.
Defined.

(** X16. [validate_and_rank] returns as many records as there are
    distinct names in its input: never more than it was given, and at
    least one when the input is not empty. *)
Theorem validate_and_rank_counts_distinct_names (ps : list profile)
    (goal company_info : string) (out : list profile) :
  validate_and_rank ps goal company_info = Ok out →
  length out = size (list_to_set (names ps) : gset (option pyval))
  ∧ (length out ≤ length ps)%nat
  ∧ (ps ≠ [] → out ≠ []).
Proof.
  intros ->%validate_and_rank_first_occurrences.
  destruct (firsts_from_names ps []) as (Hnd & _ & Hcov & Hsub).
  rewrite length_fmap. split_and!.
  - rewrite <- (length_fmap (λ q : profile, q !! "name") (first_occurrences ps)).
    rewrite <- (size_list_to_set (C:=gset (option pyval))) by exact Hnd.
    f_equal. apply set_eq. intros n. rewrite !elem_of_list_to_set. split.
    + intros (q & -> & Hq)%list_elem_of_fmap. apply list_elem_of_fmap. exists q.
      split; [done|]. by eapply elem_of_sublist.
    + intros (q & -> & Hq)%list_elem_of_fmap.
      destruct (Hcov q Hq) as [Hin|Hin]; [by inversion Hin|done].
  - by apply sublist_length.
  - destruct ps as [|p ps]; [done|]. intros _. unfold first_occurrences. cbn [firsts_from fmap list_fmap].
    destruct (decide (p !! "name" ∈ names [])) as [Hin|_]; [by inversion Hin|done].
Qed.

Lemma validate_and_rank_counts_distinct_names_witness :
  length [set_score namesake_a; set_score same_url_a]
  = size (list_to_set (names [namesake_a; same_url_a; namesake_b]) : gset (option pyval)).
Proof.
  apply (validate_and_rank_counts_distinct_names [namesake_a; same_url_a; namesake_b] "" "").
  vm_compute. reflexivity.
Defined.

(** ** Text *)

Lemma chars_text l : chars (text l) = l.
Proof. apply list_ascii_of_string_of_list_ascii. Qed.

Lemma text_chars s : text (chars s) = s.
Proof. apply string_of_list_ascii_of_string. Qed.

Lemma length_text l : String.length (text l) = length l.
Proof. induction l as [|c l IH]; simpl; [done|]. by rewrite IH. Qed.

Lemma drop_while_split {A} (c : A) `{EqDecision A} (l : list A) :
  ∃ n, l = replicate n c ++ drop_while (λ x, bool_decide (x = c)) l.
Proof.
  induction l as [|x l (n & IH)]; [by exists 0%nat|].
  simpl. case_bool_decide as Hx.
  - subst x. exists (S n). simpl. by rewrite <- IH.
  - by exists 0%nat.
Qed.

Lemma drop_while_replicate {A} (c : A) `{EqDecision A} n (l : list A) :
  head l ≠ Some c →
  drop_while (λ x, bool_decide (x = c)) (replicate n c ++ l) = l.
Proof.
  intros Hl. induction n as [|n IH]; simpl.
  - destruct l as [|x l]; [done|]. simpl. rewrite bool_decide_eq_false_2; [done|].
    intros ->. by apply Hl.
  - by rewrite bool_decide_eq_true_2.
Qed.

Lemma forallb_eq_true {A} (f : A → bool) (l : list A) :
  forallb f l = true ↔ Forall (λ x, f x = true) l.
Proof.
  induction l as [|x l IH]; simpl.
  - split; [constructor|done].
  - rewrite andb_true_iff, Forall_cons. by rewrite IH.
Qed.

(** ** linkedin_profile_connector.py *)

Lemma matches_handle_pattern_iff (s : string) :
  linkedin_profile_connector.matches_handle_pattern s = true ↔
  ∃ body tail : list ascii,
    chars s = body ++ tail
    ∧ (1 ≤ length body ≤ 15)%nat
    ∧ Forall (λ c, linkedin_profile_connector.is_handle_char c = true) body
    ∧ (tail = [] ∨ tail = [newline]).
Proof.
  unfold linkedin_profile_connector.matches_handle_pattern.
  generalize (chars s). intros cs. split.
  - intros H. apply andb_true_iff in H as [Hlen Hall].
    apply andb_true_iff in Hlen as [H1 H15].
    apply Nat.leb_le in H1, H15. apply forallb_eq_true in Hall.
    destruct (reverse cs) as [|c rest] eqn:Hrev.
    + exists cs, []. rewrite app_nil_r. split_and!; [done|lia|lia|done|by left].
    + case_bool_decide as Hc.
      * subst c. exists (reverse rest), [newline]. split_and!; [|lia|lia|done|by right].
        rewrite <- (reverse_involutive cs), Hrev. by rewrite reverse_cons.
      * exists cs, []. rewrite app_nil_r. split_and!; [done|lia|lia|done|by left].
  - intros (body & tail & -> & Hlen & Hall & Htail).
    assert (forallb linkedin_profile_connector.is_handle_char body = true) as Hb.
    { by apply forallb_eq_true. }
    destruct Htail as [->| ->].
    + rewrite app_nil_r. destruct (reverse body) as [|c rest] eqn:Hrev.
      * rewrite Hb. apply andb_true_iff. split; [|done].
        apply andb_true_iff. split; apply Nat.leb_le; lia.
      * rewrite bool_decide_eq_false_2.
        -- rewrite Hb. apply andb_true_iff. split; [|done].
           apply andb_true_iff. split; apply Nat.leb_le; lia.
        -- intros ->. assert (newline ∈ body) as Hin.
           { rewrite <- (reverse_involutive body), Hrev. rewrite reverse_cons.
             apply elem_of_app. right. by apply list_elem_of_singleton. }
           rewrite Forall_forall in Hall. by specialize (Hall _ Hin).
    + rewrite reverse_app. change (reverse [newline]) with [newline].
      cbn [app]. rewrite bool_decide_eq_true_2 by done.
      rewrite reverse_involutive, Hb. apply andb_true_iff. split; [|done].
      apply andb_true_iff. split; apply Nat.leb_le; lia.
Qed.

(** X17. [validate_twitter_handle] accepts exactly the texts made of any
    number of [@], then one to fifteen letters, digits or underscores,
    then nothing or one line feed. *)
Theorem validate_twitter_handle_accepts (handle : string) :
  linkedin_profile_connector.validate_twitter_handle handle = true ↔
  ∃ (n : nat) (body tail : list ascii),
    chars handle = replicate n at_sign ++ body ++ tail
    ∧ (1 ≤ length body ≤ 15)%nat
    ∧ Forall (λ c, linkedin_profile_connector.is_handle_char c = true) body
    ∧ (tail = [] ∨ tail = [newline]).
Proof.
  unfold linkedin_profile_connector.validate_twitter_handle.
  rewrite matches_handle_pattern_iff. unfold lstrip_char. split.
  - intros (body & tail & Hcs & Hrest). rewrite chars_text in Hcs.
    destruct (drop_while_split at_sign (chars handle)) as (n & Hn).
    exists n, body, tail. by rewrite <- Hcs, <- Hn.
  - intros (n & body & tail & Hcs & Hlen & Hall & Htail).
    exists body, tail. split; [|done]. rewrite chars_text, Hcs.
    apply drop_while_replicate. destruct body as [|c body]; [simpl in Hlen; lia|].
    simpl. intros [= ->]. by apply Forall_cons in Hall as [Hc _].
Qed.

Lemma validate_twitter_handle_accepts_witness :
  linkedin_profile_connector.validate_twitter_handle
    (text (replicate 2 at_sign ++ chars "ann_01" ++ [newline])) = true.
Proof.
  apply validate_twitter_handle_accepts.
  exists 2%nat, (chars "ann_01"), [newline]. rewrite chars_text.
  split_and!; [reflexivity|simpl; lia|simpl; lia| |by right].
  repeat constructor.
Defined.

(** ** Further properties of the lead_discovery route *)

(** X18. Whenever [lead_discovery] answers with status 400 and an error
    other than the one about [target], that is, whenever one of its
    first four checks rejects the request, nothing else has happened:
    no user is created, even when the request carries a [user_email],
    and no collaborator is called. *)
Theorem early_rejections_change_nothing
    (uuid4 : nat → string) (str : exn → string) (format : pyval → string)
    (interpret_goal : string → string → list string → result (gmap string (list string)))
    (scout_from_email linkedin_scout x_scout internet_scout
       : string → option string → M (list profile))
    (generate_message : profile → string → string → result string)
    (req : request) (w w' : world) (msg : string) :
  app.lead_discovery uuid4 str format interpret_goal scout_from_email linkedin_scout
    x_scout internet_scout generate_message req w = (Ok (Error400 msg), w') →
  msg ≠ "target must be a positive integer" →
  w' = w
  ∧ msg ∈ early_rejections
  ∧ ∀ emails company_info goal, ¬ valid_fields req emails company_info goal.
Proof.
  intros Hrun Hmsg.
  destruct (valid_fields_cases req) as [(emails & ci & goal & Hvalid)|Hinv].
  - destruct (lead_discovery_valid_answer uuid4 str format interpret_goal scout_from_email
                linkedin_scout x_scout internet_scout generate_message
                req emails ci goal w Hvalid) as (resp & w1 & Hrun' & _ & _ & Htarget).
    rewrite Hrun in Hrun'. injection Hrun' as <- <-. by destruct (Hmsg (Htarget msg eq_refl)).
  - destruct (lead_discovery_invalid_message uuid4 str format interpret_goal
                scout_from_email linkedin_scout x_scout internet_scout generate_message
                req w Hinv) as (msg' & Hrun' & Hin).
    rewrite Hrun in Hrun'. by injection Hrun' as <- <-.
Qed.

Lemma early_rejections_change_nothing_witness :
  app.lead_discovery stub_uuid4 stub_str stub_format stub_interpret_goal stub_email_scout
    stub_idle_scout stub_idle_scout stub_idle_scout stub_generate_message
    {| req_is_json := true; req_emails := Some ["up@example.com"];
       req_company_info := Some "";  req_goal := Some "Find founders";
       req_user_id := None; req_user_email := Some "me@example.com";
       req_target := TargetAbsent |} empty_world
  = (Ok (Error400 "company_info field is required"), empty_world)
  ∧ "company_info field is required" ∈ early_rejections.
Proof.
  assert (app.lead_discovery stub_uuid4 stub_str stub_format stub_interpret_goal
            stub_email_scout stub_idle_scout stub_idle_scout stub_idle_scout
            stub_generate_message
            {| req_is_json := true; req_emails := Some ["up@example.com"];
               req_company_info := Some "";  req_goal := Some "Find founders";
               req_user_id := None; req_user_email := Some "me@example.com";
               req_target := TargetAbsent |} empty_world
          = (Ok (Error400 "company_info field is required"), empty_world)) as Hrun
    by (vm_compute; reflexivity).
  split; [exact Hrun|].
  refine (proj1 (proj2 (early_rejections_change_nothing _ _ _ _ _ _ _ _ _ _ _ _ _ Hrun _))).
  discriminate.
Defined.

(** X19. The [target] of a request is checked after the user has been
    created: a request with a [user_email], no [user_id] and a [target]
    that is not a positive integer is answered with status 400, and the
    address is registered all the same. *)
Theorem target_is_checked_after_the_user_is_created
    (uuid4 : nat → string) (str : exn → string) (format : pyval → string)
    (interpret_goal : string → string → list string → result (gmap string (list string)))
    (scout_from_email linkedin_scout x_scout internet_scout
       : string → option string → M (list profile))
    (generate_message : profile → string → string → result string)
    (req : request) (emails : list string) (company_info goal email : string) (w : world) :
  valid_fields req emails company_info goal →
  app.requested_target req = None →
  req_user_email req = Some email → str_truthy email = true →
  opt_truthy (req_user_id req) = false →
  uuid4 (uuid_count w) ∉ usr_user_id <$> users w →
  ∃ w',
    app.lead_discovery uuid4 str format interpret_goal scout_from_email linkedin_scout
      x_scout internet_scout generate_message req w
    = (Ok (Error400 "target must be a positive integer"), w')
    ∧ email ∈ usr_email <$> users w'
    ∧ (email ∉ usr_email <$> users w → length (users w') = S (length (users w))).
Proof.
  intros Hvalid Htarget Hemail Htruthy Hid Hfresh.
  destruct (resolve_user_returns uuid4 req w) as (uid & w0 & Huser & _).
  rewrite (lead_discovery_valid uuid4 str format interpret_goal scout_from_email
             linkedin_scout x_scout internet_scout generate_message
             req emails company_info goal w uid w0 Hvalid Huser), Htarget.
  exists w0. split; [done|].
  unfold app.resolve_user in Huser. rewrite Hemail, Hid in Huser. simpl in Huser.
  rewrite Htruthy in Huser. simpl in Huser. unfold create_user in Huser.
  assert (uuid_taken (uuid4 (uuid_count w)) (users w) = false) as Htaken.
  { apply not_true_is_false. by rewrite uuid_taken_iff. }
  rewrite Htaken in Huser. simpl in Huser.
  destruct (find_user_by_email email (users w)) as [id|] eqn:Hfind; simpl in Huser.
  - injection Huser as <- <-. simpl.
    apply find_user_by_email_Some in Hfind as (r & Hr & _ & <-).
    split; [apply list_elem_of_fmap; by exists r|].
    intros Habs. destruct Habs. apply list_elem_of_fmap. by exists r.
  - injection Huser as <- <-. simpl. split.
    + rewrite fmap_app. apply elem_of_app. right. by apply list_elem_of_singleton.
    + intros _. rewrite length_app. simpl. lia.
Qed.

Lemma target_is_checked_after_the_user_is_created_witness :
  ∃ w',
    app.lead_discovery stub_uuid4 stub_str stub_format stub_interpret_goal stub_email_scout
      stub_idle_scout stub_idle_scout stub_idle_scout stub_generate_message
      {| req_is_json := true; req_emails := Some ["up@example.com"];
         req_company_info := Some "VoiceFlow AI";  req_goal := Some "Find founders";
         req_user_id := None; req_user_email := Some "me@example.com";
         req_target := TargetInt 0 |} empty_world
    = (Ok (Error400 "target must be a positive integer"), w')
    ∧ "me@example.com" ∈ usr_email <$> users w'
    ∧ ("me@example.com" ∉ usr_email <$> users empty_world →
       length (users w') = S (length (users empty_world))).
Proof.
  apply (target_is_checked_after_the_user_is_created stub_uuid4 stub_str stub_format
           stub_interpret_goal stub_email_scout stub_idle_scout stub_idle_scout
           stub_idle_scout stub_generate_message _ ["up@example.com"] "VoiceFlow AI"
           "Find founders" "me@example.com" empty_world).
  - repeat split; discriminate.
  - reflexivity.
  - reflexivity.
  - reflexivity.
  - reflexivity.
  - simpl. inversion 1.
Defined.

(** X20. Every successful answer of [lead_discovery] that carries
    profiles is consistent: [returned] is the number of profiles, it is
    at least one, at most [total_found] and at most the requested
    target; [warnings] is never an empty list; the profiles have
    distinct names, and each has a message and the placeholder score. *)
Theorem discovery_answers_are_consistent
    (uuid4 : nat → string) (str : exn → string) (format : pyval → string)
    (interpret_goal : string → string → list string → result (gmap string (list string)))
    (scout_from_email linkedin_scout x_scout internet_scout
       : string → option string → M (list profile))
    (generate_message : profile → string → string → result string)
    (req : request) (w w' : world) (ps : list profile) (total returned : nat)
    (uid : option string) (warnings : option (list string)) :
  app.lead_discovery uuid4 str format interpret_goal scout_from_email linkedin_scout
    x_scout internet_scout generate_message req w
  = (Ok (Discovery ps total returned uid warnings), w') →
  returned = length ps
  ∧ (1 ≤ returned ≤ total)%nat
  ∧ (∃ n, app.requested_target req = Some n ∧ Z.of_nat returned ≤ n)
  ∧ warnings ≠ Some []
  ∧ NoDup (names ps)
  ∧ Forall (λ p : profile, (∃ message, p !! "message" = Some (VStr message))
                           ∧ p !! "score" = Some placeholder_score) ps.
Proof.
  intros H.
  destruct (valid_fields_cases req) as [(emails & ci & goal & Hvalid)|Hinv].
  2: { destruct (lead_discovery_invalid uuid4 str format interpret_goal scout_from_email
                   linkedin_scout x_scout internet_scout generate_message req w Hinv)
         as (msg & Hmsg). congruence. }
  destruct (resolve_user_returns uuid4 req w) as (uid0 & w0 & Huser & _).
  rewrite (lead_discovery_valid uuid4 str format interpret_goal scout_from_email
             linkedin_scout x_scout internet_scout generate_message
             req emails ci goal w uid0 w0 Hvalid Huser) in H.
  destruct (app.requested_target req) as [n|] eqn:Hn; [|done].
  apply requested_target_positive in Hn.
  destruct (interpret_goal goal ci emails) as [plan|e]; [|done].
  destruct (run_all _ w0) as [outs w1].
  destruct (nonempty (collected outs)) eqn:Hne; [|done].
  destruct (validate_and_rank (collected outs) goal ci) as [ranked|e] eqn:Hrank; [|done].
  apply validate_and_rank_shape in Hrank as (Hnd & Hscore & Hnonempty & Hlen).
  destruct (generate_messages_spec str format generate_message goal ci
              (take (Z.to_nat n) ranked) (failures str outs))
    as (ps' & new & Hgen & Hps & _).
  rewrite Hgen in H. injection H as <- <- <- <- <-.
  pose proof (Forall2_length _ _ _ Hps) as Hlen'. rewrite length_take in Hlen'.
  assert (ranked ≠ []) as Hranked.
  { apply Hnonempty. intros Hc. by rewrite Hc in Hne. }
  assert (1 ≤ length ranked)%nat by (destruct ranked; [done|simpl; lia]).
  split_and!.
  - done.
  - lia.
  - lia.
  - exists n. split; [done|]. lia.
  - by destruct (failures str outs ++ new).
  - rewrite (has_message_names _ _ Hps). unfold names. rewrite fmap_take.
    by apply NoDup_take.
  - apply Forall_take with (n := Z.to_nat n) in Hscore.
    revert Hscore. clear -Hps. induction Hps as [|p p' l l' (m & ->) _ IH]; [done|].
    intros [Hp Hl]%Forall_cons. constructor; [|by apply IH]. split.
    + exists m. by rewrite lookup_insert_eq.
    + by rewrite lookup_insert_ne.
Qed.

Lemma discovery_answers_are_consistent_witness :
  ∃ ps total returned uid warnings,
    app.lead_discovery stub_uuid4 stub_str stub_format stub_interpret_goal stub_email_scout
      stub_idle_scout stub_idle_scout stub_idle_scout stub_generate_message
      partial_failure_request empty_world
    = (Ok (Discovery ps total returned uid warnings), empty_world)
    ∧ returned = length ps ∧ (1 ≤ returned ≤ total)%nat.
Proof.
  eexists _, _, _, _, _.
  match goal with |- ?run = _ ∧ _ =>
    let v := eval vm_compute in run in
    match v with
    | (Ok (Discovery ?ps ?total ?returned ?uid ?warnings), _) =>
        assert (run = (Ok (Discovery ps total returned uid warnings), empty_world)) as Hrun
          by (vm_compute; reflexivity)
    end
  end.
  split; [exact Hrun|].
  destruct (discovery_answers_are_consistent _ _ _ _ _ _ _ _ _ _ _ _ _ _ _ _ _ Hrun)
    as (H1 & H2 & _).
  split; [exact H1|exact H2].
Defined.

(** X21. The isolation of scout failures does not extend to what the
    scouts return: when one of the collected records has no usable name,
    [validate_and_rank] raises and the whole request is answered with
    status 500, whatever the other scouts found. *)
Theorem nameless_profile_fails_the_request
    (uuid4 : nat → string) (str : exn → string) (format : pyval → string)
    (interpret_goal : string → string → list string → result (gmap string (list string)))
    (scout_from_email linkedin_scout x_scout internet_scout
       : string → option string → M (list profile))
    (generate_message : profile → string → string → result string)
    (req : request) (emails : list string) (company_info goal : string) (n : Z)
    (plan : gmap string (list string)) (w w0 w1 : world) (uid : option string)
    (outs : list (string * result (list profile))) :
  valid_fields req emails company_info goal →
  app.requested_target req = Some n →
  app.resolve_user uuid4 req w = (Ok uid, w0) →
  interpret_goal goal company_info emails = Ok plan →
  run_all (scout_calls scout_from_email linkedin_scout x_scout internet_scout
             emails plan uid) w0 = (outs, w1) →
  ¬ Forall has_hashable_name (collected outs) →
  ∃ details,
    app.lead_discovery uuid4 str format interpret_goal scout_from_email linkedin_scout
      x_scout internet_scout generate_message req w
    = (Ok (Error500 "Failed to validate and rank profiles" details), w1).
Proof.
  intros Hvalid Hn Huser Hplan Hrun Hnames.
  rewrite (lead_discovery_valid uuid4 str format interpret_goal scout_from_email
             linkedin_scout x_scout internet_scout generate_message
             req emails company_info goal w uid w0 Hvalid Huser), Hn, Hplan, Hrun.
  destruct (collected outs) as [|p ps] eqn:Hc; [by destruct Hnames|].
  cbn [nonempty].
  destruct (validate_and_rank (p :: ps) goal company_info) as [ranked|e] eqn:Hrank.
  - destruct Hnames. apply (validate_and_rank_ok_iff (p :: ps) goal company_info).
    by rewrite Hrank.
  - by eexists.
Qed.

Lemma nameless_profile_fails_the_request_witness :
  ∃ details,
    app.lead_discovery stub_uuid4 stub_str stub_format stub_interpret_goal nameless_scout
      stub_idle_scout stub_idle_scout stub_idle_scout stub_generate_message
      partial_failure_request empty_world
    = (Ok (Error500 "Failed to validate and rank profiles" details), empty_world).
Proof.
  apply (nameless_profile_fails_the_request stub_uuid4 stub_str stub_format
           stub_interpret_goal nameless_scout stub_idle_scout stub_idle_scout
           stub_idle_scout stub_generate_message partial_failure_request
           ["down@example.com"; "up@example.com"] "VoiceFlow AI" "Find founders" 5 ∅
           empty_world empty_world empty_world None
           [("Email scout failed for down@example.com: ", Ok [nameless_lead]);
            ("Email scout failed for up@example.com: ", Ok [nameless_lead])]).
  - repeat split; discriminate.
  - reflexivity.
  - reflexivity.
  - reflexivity.
  - vm_compute. reflexivity.
  - intros H. apply Forall_inv in H. destruct H as (v & Hv & _).
    vm_compute in Hv. discriminate.
Defined.

(** X22. When no scout call returns a profile the request still
    succeeds: the answer has status 200, no profile, and one error for
    each call that raised; when every call raised there are as many
    errors as e-mail addresses and queries. *)
Theorem no_profile_is_answered_with_the_errors
    (uuid4 : nat → string) (str : exn → string) (format : pyval → string)
    (interpret_goal : string → string → list string → result (gmap string (list string)))
    (scout_from_email linkedin_scout x_scout internet_scout
       : string → option string → M (list profile))
    (generate_message : profile → string → string → result string)
    (req : request) (emails : list string) (company_info goal : string) (n : Z)
    (plan : gmap string (list string)) (w w0 w1 : world) (uid : option string)
    (outs : list (string * result (list profile))) :
  valid_fields req emails company_info goal →
  app.requested_target req = Some n →
  app.resolve_user uuid4 req w = (Ok uid, w0) →
  interpret_goal goal company_info emails = Ok plan →
  run_all (scout_calls scout_from_email linkedin_scout x_scout internet_scout
             emails plan uid) w0 = (outs, w1) →
  collected outs = [] →
  ∃ errors,
    app.lead_discovery uuid4 str format interpret_goal scout_from_email linkedin_scout
      x_scout internet_scout generate_message req w
    = (Ok (NoProfiles errors uid), w1)
    ∧ status_code (NoProfiles errors uid) = 200
    ∧ length errors = length (filter (λ o, raised o.2 = true) outs)
    ∧ (Forall (λ o, raised o.2 = true) outs →
       length errors
       = (length emails + length (default [] (plan !! "linkedin_queries"))
          + length (default [] (plan !! "x_queries"))
          + length (default [] (plan !! "internet_queries")))%nat).
Proof.
  intros Hvalid Hn Huser Hplan Hrun Hcol.
  rewrite (lead_discovery_valid uuid4 str format interpret_goal scout_from_email
             linkedin_scout x_scout internet_scout generate_message
             req emails company_info goal w uid w0 Hvalid Huser), Hn, Hplan, Hrun, Hcol.
  cbn [nonempty]. exists (failures str outs). split_and!; [done|done|apply failures_length|].
  intros Hall. rewrite failures_length, filter_all by done.
  pose proof (run_all_length (scout_calls scout_from_email linkedin_scout x_scout
                                internet_scout emails plan uid) w0) as Hlen.
  rewrite Hrun in Hlen. simpl in Hlen. rewrite Hlen. unfold scout_calls.
  rewrite !length_app, !length_fmap. lia.
Qed.

Lemma no_profile_is_answered_with_the_errors_witness :
  ∃ errors,
    app.lead_discovery stub_uuid4 stub_str stub_format stub_interpret_goal failing_scout
      stub_idle_scout stub_idle_scout stub_idle_scout stub_generate_message
      partial_failure_request empty_world
    = (Ok (NoProfiles errors None), empty_world)
    ∧ length errors = 2%nat.
Proof.
  destruct (no_profile_is_answered_with_the_errors stub_uuid4 stub_str stub_format
           stub_interpret_goal failing_scout stub_idle_scout stub_idle_scout
           stub_idle_scout stub_generate_message partial_failure_request
           ["down@example.com"; "up@example.com"] "VoiceFlow AI" "Find founders" 5 ∅
           empty_world empty_world empty_world None
           [("Email scout failed for down@example.com: ", Raise (OtherError "provider down"));
            ("Email scout failed for up@example.com: ", Raise (OtherError "provider down"))])
    as (errors & Hrun & _ & _ & Hlen).
  - repeat split; discriminate.
  - reflexivity.
  - reflexivity.
  - reflexivity.
  - vm_compute. reflexivity.
  - reflexivity.
  - exists errors. split; [exact Hrun|]. apply Hlen. by repeat constructor.
Defined.

(** X23. For a request that passes the first four checks and for which
    no user has to be created, the handler of the outermost [try] of
    [lead_discovery] is never the one that answers: whatever the scouts,
    [interpret_goal] and [generate_message] do, each of their exceptions
    is caught at the call, and the request is answered with status 200,
    400 or 500. *)
Theorem inner_handlers_catch_the_collaborators
    (uuid4 : nat → string) (str : exn → string) (format : pyval → string)
    (interpret_goal : string → string → list string → result (gmap string (list string)))
    (scout_from_email linkedin_scout x_scout internet_scout
       : string → option string → M (list profile))
    (generate_message : profile → string → string → result string)
    (req : request) (emails : list string) (company_info goal : string) (w : world) :
  valid_fields req emails company_info goal →
  opt_truthy (req_user_email req) && negb (opt_truthy (req_user_id req)) = false →
  ∃ resp w',
    app.lead_discovery uuid4 str format interpret_goal scout_from_email linkedin_scout
      x_scout internet_scout generate_message req w = (Ok resp, w')
    ∧ (status_code resp = 200 ∨ status_code resp = 400 ∨ status_code resp = 500)
    ∧ ∀ details, resp ≠ Error500 "Internal server error" details.
Proof.
  intros Hvalid _.
  destruct (lead_discovery_valid_answer uuid4 str format interpret_goal scout_from_email
              linkedin_scout x_scout internet_scout generate_message
              req emails company_info goal w Hvalid) as (resp & w' & Hrun & Hs & Hi & _).
  by exists resp, w'.
Qed.

Lemma inner_handlers_catch_the_collaborators_witness :
  ∃ resp w',
    app.lead_discovery stub_uuid4 stub_str stub_format stub_interpret_goal failing_scout
      failing_scout failing_scout failing_scout stub_generate_message
      partial_failure_request empty_world = (Ok resp, w')
    ∧ (status_code resp = 200 ∨ status_code resp = 400 ∨ status_code resp = 500)
    ∧ ∀ details, resp ≠ Error500 "Internal server error" details.
Proof.
  apply (inner_handlers_catch_the_collaborators stub_uuid4 stub_str stub_format
           stub_interpret_goal failing_scout failing_scout failing_scout failing_scout
           stub_generate_message partial_failure_request
           ["down@example.com"; "up@example.com"] "VoiceFlow AI" "Find founders"
           empty_world).
  - repeat split; discriminate.
  - reflexivity.
Defined.

(** X24. The message loop of [lead_discovery] isolates the failures of
    [generate_message]: every profile leaves the loop with a message and
    is otherwise unchanged, and the list of errors grows by exactly one
    entry for each profile whose message could not be generated. *)
Theorem message_failures_are_isolated
    (str : exn → string) (format : pyval → string)
    (generate_message : profile → string → string → result string)
    (ps : list profile) (goal company_info : string) (errors : list string) :
  ∃ ps' new,
    app.generate_messages str format generate_message ps goal company_info errors
    = (ps', errors ++ new)
    ∧ Forall2 has_message ps ps'
    ∧ length new
      = length (filter (λ p, raised (generate_message p goal company_info) = true) ps).
Proof. apply generate_messages_spec. Qed.

(** ** agents/message_gen.py *)

Lemma remove_char_absent c s : c ∉ chars (remove_char c s).
Proof.
  unfold remove_char. rewrite chars_text. intros Hin.
  apply list_elem_of_filter in Hin as [Hne _]. done.
Qed.

Lemma generate_message_cases format ask_model p goal company_info :
  ∃ message,
    message_gen.generate_message format ask_model p goal company_info = Ok message
    ∧ (message = message_gen.generate_fallback_message format p goal company_info
       ∨ (∃ answer, ask_model p goal company_info = Ok answer
                    ∧ message = remove_char double_quote (strip answer))
         ∧ (10 ≤ String.length message ≤ 300)%nat
         ∧ double_quote ∉ chars message).
Proof.
  unfold message_gen.generate_message.
  destruct (ask_model p goal company_info) as [answer|e]; cbn [rbind try_Exception].
  - destruct (_ || _) eqn:Hlen; cbn [try_Exception].
    + eexists. split; [done|by left].
    + eexists. split; [done|]. right.
      apply orb_false_iff in Hlen as [H300 H10].
      apply Nat.ltb_ge in H300, H10.
      split_and!; [by exists answer|done|done|apply remove_char_absent].
  - eexists. split; [done|by left].
Qed.

(** X25. [generate_message] never raises, and when the model raises it
    returns the fallback message.  When the model answers with an ASCII
    text, it returns that answer stripped and without double quotes if
    this text has ten to three hundred characters, and the fallback
    message if not. *)
Theorem generate_message_answers_within_bounds
    (format : pyval → string) (ask_model : profile → string → string → result string)
    (p : profile) (goal company_info : string) :
  (∃ message,
     message_gen.generate_message format ask_model p goal company_info = Ok message)
  ∧ (raised (ask_model p goal company_info) = true →
     message_gen.generate_message format ask_model p goal company_info
     = Ok (message_gen.generate_fallback_message format p goal company_info))
  ∧ (∀ answer,
       ask_model p goal company_info = Ok answer → is_ascii answer = true →
       ∃ message,
         message_gen.generate_message format ask_model p goal company_info = Ok message
         ∧ ((10 ≤ String.length (remove_char double_quote (strip answer)) ≤ 300)%nat →
            message = remove_char double_quote (strip answer)
            ∧ double_quote ∉ chars message)
         ∧ (¬ (10 ≤ String.length (remove_char double_quote (strip answer)) ≤ 300)%nat →
            message = message_gen.generate_fallback_message format p goal company_info)).
Proof.
  split_and!.
  - destruct (generate_message_cases format ask_model p goal company_info)
      as (message & H & _). by exists message.
  - unfold message_gen.generate_message.
    by destruct (ask_model p goal company_info).
  - intros answer Hanswer _. unfold message_gen.generate_message.
    rewrite Hanswer. cbn [rbind try_Exception].
    destruct (_ || _) eqn:Hlen; cbn [try_Exception]; eexists; (split; [done|]); split.
    + apply orb_true_iff in Hlen as [H300%Nat.ltb_lt|H10%Nat.ltb_lt]; lia.
    + done.
    + intros _. split; [done|apply remove_char_absent].
    + apply orb_false_iff in Hlen as [H300%Nat.ltb_ge H10%Nat.ltb_ge]. lia.
Qed.

Lemma generate_message_answers_within_bounds_witness :
  message_gen.generate_message stub_format (λ _ _ _, Raise (OtherError "quota")) stub_lead
    "Find founders" "VoiceFlow AI"
  = Ok (message_gen.generate_fallback_message stub_format stub_lead
          "Find founders" "VoiceFlow AI").
Proof.
  apply (proj1 (proj2 (generate_message_answers_within_bounds stub_format
                         (λ _ _ _, Raise (OtherError "quota")) stub_lead
                         "Find founders" "VoiceFlow AI"))).
  reflexivity.
Defined.

(** X26. With the [generate_message] of message_gen.py the message loop
    of [lead_discovery] adds no error: every profile gets its message
    and the list of errors is returned as it was. *)
Theorem generated_messages_add_no_warning
    (str : exn → string) (format format' : pyval → string)
    (ask_model : profile → string → string → result string)
    (ps : list profile) (goal company_info : string) (errors : list string) :
  ∃ ps',
    app.generate_messages str format (message_gen.generate_message format' ask_model)
      ps goal company_info errors = (ps', errors)
    ∧ Forall2 has_message ps ps'.
Proof.
  destruct (generate_messages_spec str format
              (message_gen.generate_message format' ask_model) goal company_info ps errors)
    as (ps' & new & Hrun & Hps & Hlen).
  rewrite filter_none in Hlen.
  - destruct new; [|done]. rewrite app_nil_r in Hrun. by exists ps'.
  - apply Forall_forall. intros p _.
    destruct (generate_message_cases format' ask_model p goal company_info)
      as (m & -> & _). done.
Qed.

(** ** agents/reasoning.py *)

Lemma require_key_list plan key :
  ∃ qs, reasoning.require_key plan key !! key = Some (PList qs).
Proof.
  unfold reasoning.require_key. destruct (plan !! key) as [[qs|shown]|] eqn:Hk.
  - by exists qs.
  - eexists. by rewrite lookup_insert_eq.
  - eexists. by rewrite lookup_insert_eq.
Qed.

Lemma require_key_keeps_list plan key key' qs :
  plan !! key' = Some (PList qs) →
  reasoning.require_key plan key !! key' = Some (PList qs).
Proof.
  intros H. unfold reasoning.require_key.
  destruct (decide (key = key')) as [->|Hne].
  - by rewrite H.
  - destruct (plan !! key) as [[?|?]|]; [done| |]; by rewrite lookup_insert_ne.
Qed.

Lemma require_key_other plan key key' :
  key ≠ key' → reasoning.require_key plan key !! key' = plan !! key'.
Proof.
  intros Hne. unfold reasoning.require_key.
  destruct (plan !! key) as [[?|?]|]; [done| |]; by rewrite lookup_insert_ne.
Qed.

Lemma fallback_plan_lists goal company_info key :
  key ∈ reasoning.required_keys →
  ∃ qs, reasoning.generate_fallback_plan goal company_info !! key = Some (PList qs).
Proof.
  unfold reasoning.required_keys. rewrite !elem_of_cons.
  intros [->|[->|[->|Hin]]]; [by eexists..|by inversion Hin].
Qed.

Lemma interpret_goal_lists ask_model json_loads goal company_info emails :
  ∃ plan,
    reasoning.interpret_goal ask_model json_loads goal company_info emails = Ok plan
    ∧ ∀ key, key ∈ reasoning.required_keys → ∃ qs, plan !! key = Some (PList qs).
Proof.
  unfold reasoning.interpret_goal.
  destruct (ask_model goal company_info emails) as [answer|e]; cbn [rbind try_Exception];
    [|eexists; split; [done|apply fallback_plan_lists]].
  destruct (json_loads _) as [[parsed|]|e]; cbn [rbind try_Exception];
    [|eexists; split; [done|apply fallback_plan_lists]..].
  eexists. split; [done|]. unfold reasoning.required_keys. cbn [foldl].
  intros key. rewrite !elem_of_cons.
  intros [->|[->|[->|Hin]]]; [| | |by inversion Hin].
  - destruct (require_key_list parsed "linkedin_queries") as (qs & Hqs).
    exists qs. by do 2 apply require_key_keeps_list.
  - destruct (require_key_list (reasoning.require_key parsed "linkedin_queries") "x_queries")
      as (qs & Hqs).
    exists qs. by apply require_key_keeps_list.
  - apply require_key_list.
Qed.

(** X27. [interpret_goal] never raises, and the plan it returns has a
    list under each of ['linkedin_queries'], ['x_queries'] and
    ['internet_queries'], whatever the model answers. *)
Theorem interpret_goal_always_gives_three_lists
    (ask_model : string → string → list string → result string)
    (json_loads : string → result (option (gmap string plan_value)))
    (goal company_info : string) (emails : list string) :
  ∃ plan,
    reasoning.interpret_goal ask_model json_loads goal company_info emails = Ok plan
    ∧ ∀ key, key ∈ reasoning.required_keys → ∃ qs, plan !! key = Some (PList qs).
Proof. apply interpret_goal_lists. Qed.

(** X28. When the model's answer parses to a JSON object,
    [interpret_goal] returns that object repaired at the three required
    keys only: a list is kept, another value becomes the list of its
    text, a missing key gets the empty list, and every other key is
    returned as it was parsed. *)
Theorem interpret_goal_repairs_the_required_keys
    (ask_model : string → string → list string → result string)
    (json_loads : string → result (option (gmap string plan_value)))
    (goal company_info : string) (emails : list string) (answer : string)
    (parsed : gmap string plan_value) :
  ask_model goal company_info emails = Ok answer →
  json_loads (reasoning.clean_response answer) = Ok (Some parsed) →
  ∃ plan,
    reasoning.interpret_goal ask_model json_loads goal company_info emails = Ok plan
    ∧ ∀ key,
        plan !! key
        = if decide (key ∈ reasoning.required_keys) then
            match parsed !! key with
            | Some (PList qs) => Some (PList qs)
            | Some (POther shown) => Some (PList [shown])
            | None => Some (PList [])
            end
          else parsed !! key.
Proof.
  intros Hanswer Hparsed. unfold reasoning.interpret_goal.
  rewrite Hanswer. cbn [rbind]. rewrite Hparsed. cbn [rbind try_Exception].
  eexists. split; [done|]. intros key. unfold reasoning.required_keys. cbn [foldl].
  assert (∀ plan k, reasoning.require_key plan k !! k
                    = match plan !! k with
                      | Some (PList qs) => Some (PList qs)
                      | Some (POther shown) => Some (PList [shown])
                      | None => Some (PList [])
                      end) as Hsame.
  { intros plan k. unfold reasoning.require_key.
    destruct (plan !! k) as [[?|?]|] eqn:Hk; [done| |]; by rewrite lookup_insert_eq. }
  destruct (decide (key ∈ _)) as [Hin|Hout].
  - rewrite !elem_of_cons in Hin. destruct Hin as [->|[->|[->|Hin]]]; [| | |by inversion Hin].
    + rewrite !require_key_other by done. apply Hsame.
    + rewrite require_key_other by done. rewrite Hsame.
      by rewrite require_key_other by done.
    + rewrite Hsame. by rewrite !require_key_other by done.
  - rewrite !not_elem_of_cons in Hout. destruct Hout as (H1 & H2 & H3 & _).
    by rewrite !require_key_other by done.
Qed.

Lemma interpret_goal_repairs_the_required_keys_witness :
  ∃ plan,
    reasoning.interpret_goal (λ _ _ _, Ok "{}")
      (λ _, Ok (Some {["x_queries" := POther "founders"; "note" := POther "n"]}))
      "Find founders" "VoiceFlow AI" [] = Ok plan
    ∧ plan !! "x_queries" = Some (PList ["founders"])
    ∧ plan !! "linkedin_queries" = Some (PList [])
    ∧ plan !! "note" = Some (POther "n").
Proof.
  destruct (interpret_goal_repairs_the_required_keys (λ _ _ _, Ok "{}")
      (λ _, Ok (Some {["x_queries" := POther "founders"; "note" := POther "n"]}))
      "Find founders" "VoiceFlow AI" [] "{}"
      {["x_queries" := POther "founders"; "note" := POther "n"]} eq_refl eq_refl)
    as (plan & Hplan & Hkeys).
  exists plan. split; [exact Hplan|].
  split_and!; rewrite Hkeys; vm_compute; reflexivity.
Defined.

(** ** The markdown fence around the model's answer *)

Lemma chars_append a b : chars (a +:+ b) = chars a ++ chars b.
Proof.
  unfold chars. induction a as [|c a IH]; [done|].
  change (c :: list_ascii_of_string (a +:+ b)
          = c :: (list_ascii_of_string a ++ list_ascii_of_string b)).
  by f_equal.
Qed.

Lemma length_chars s : String.length s = length (chars s).
Proof.
  unfold chars. induction s as [|c s IH]; [done|].
  change (S (String.length s) = S (length (list_ascii_of_string s))). by f_equal.
Qed.

Lemma append_assoc a b c : (a +:+ b) +:+ c = a +:+ (b +:+ c).
Proof.
  induction a as [|x a IH]; [done|].
  change (String x ((a +:+ b) +:+ c) = String x (a +:+ (b +:+ c))). by f_equal.
Qed.

Lemma append_nil_r s : s +:+ "" = s.
Proof.
  induction s as [|x s IH]; [done|].
  change (String x (s +:+ "") = String x s). by f_equal.
Qed.

Lemma rev_app_append s1 : ∀ s2, String.rev_app s1 s2 = String.rev s1 +:+ s2.
Proof.
  unfold String.rev. induction s1 as [|c s1 IH]; intros s2; [done|].
  change (String.rev_app s1 (String c s2) = String.rev_app s1 (String c "") +:+ s2).
  rewrite (IH (String c s2)), (IH (String c "")). by rewrite append_assoc.
Qed.

Lemma rev_append a b : String.rev (a +:+ b) = String.rev b +:+ String.rev a.
Proof.
  induction a as [|c a IH].
  - change ("" +:+ b) with b. change (String.rev "") with "".
    by rewrite append_nil_r.
  - change (String.rev (String c a +:+ b)) with (String.rev_app (a +:+ b) (String c "")).
    change (String.rev (String c a)) with (String.rev_app a (String c "")).
    rewrite !(rev_app_append _ (String c "")). by rewrite IH, append_assoc.
Qed.

Lemma prefix_append x y : String.prefix x (x +:+ y) = true.
Proof.
  induction x as [|c x IH]; [by destruct y|].
  change (match ascii_dec c c with
          | left _ => String.prefix x (x +:+ y)
          | right _ => false
          end = true).
  by destruct (ascii_dec c c).
Qed.

Lemma startswith_append p x : startswith p (p +:+ x) = true.
Proof. apply prefix_append. Qed.

Lemma endswith_append p a : endswith p (a +:+ p) = true.
Proof. unfold endswith. rewrite rev_append. apply prefix_append. Qed.

Lemma slice_to_last_append p a : slice_to_last (String.length p) (a +:+ p) = a.
Proof.
  unfold slice_to_last. rewrite chars_append, !length_chars, chars_append, length_app.
  replace (length (chars a) + length (chars p) - length (chars p))%nat
    with (length (chars a)) by lia.
  by rewrite take_app_length, text_chars.
Qed.

Lemma slice_from_append p x : slice_from (String.length p) (p +:+ x) = x.
Proof.
  unfold slice_from. by rewrite chars_append, length_chars, drop_app_length, text_chars.
Qed.

Lemma drop_while_spaces ws l :
  Forall (λ c, isspace c = true) ws →
  drop_while isspace (ws ++ l) = drop_while isspace l.
Proof. induction 1 as [|c ws Hc _ IH]; [done|]. cbn. by rewrite Hc. Qed.

Lemma drop_while_app_spaces l ws :
  Forall (λ c, isspace c = true) ws →
  drop_while isspace (l ++ ws)
  = match drop_while isspace l with [] => [] | d => d ++ ws end.
Proof.
  intros Hws. induction l as [|c l IH].
  - cbn. rewrite <- (app_nil_r ws), drop_while_spaces by done. done.
  - cbn. destruct (isspace c); [exact IH|done].
Qed.

Lemma strip_padding ws1 body ws2 :
  Forall (λ c, isspace c = true) ws1 → Forall (λ c, isspace c = true) ws2 →
  strip (text ws1 +:+ body +:+ text ws2) = strip body.
Proof.
  intros H1 H2. unfold strip. f_equal.
  rewrite !chars_append, !chars_text, drop_while_spaces by done.
  rewrite drop_while_app_spaces by done.
  destruct (drop_while isspace (chars body)) as [|d ds]; [done|].
  rewrite reverse_app, drop_while_spaces; [done|].
  by apply Forall_reverse.
Qed.

Lemma strip_fixed s c m d :
  chars s = c :: m ++ [d] → isspace c = false → isspace d = false → strip s = s.
Proof.
  intros Hs Hc Hd. unfold strip. rewrite Hs. cbn [drop_while]. rewrite Hc.
  rewrite reverse_cons, reverse_app. change (reverse [d]) with [d].
  cbn [app drop_while]. rewrite Hd.
  change (d :: reverse m ++ [c]) with ([d] ++ reverse m ++ [c]).
  rewrite !reverse_app, reverse_involutive. change (reverse [c]) with [c].
  change (reverse [d]) with [d]. cbn [app]. rewrite <- Hs. apply text_chars.
Qed.

Lemma startswith_fence_space c rest :
  isspace c = true → startswith "```" (String c rest) = false.
Proof.
  intros Hc. unfold startswith. cbn [String.prefix].
  destruct (ascii_dec "`" c) as [<-|]; [|done].
  vm_compute in Hc. discriminate.
Qed.

Lemma startswith_json_fence_space c rest :
  isspace c = true → startswith "```json" ("```" +:+ String c rest) = false.
Proof.
  intros Hc. unfold startswith.
  change ("```" +:+ String c rest) with (String "`" (String "`" (String "`" (String c rest)))).
  cbn [String.prefix].
  destruct (ascii_dec "`" "`") as [_|Hne]; [|by destruct Hne].
  destruct (ascii_dec "j" c) as [<-|]; [|done].
  vm_compute in Hc. discriminate.
Qed.

Lemma startswith_json_fence s :
  startswith "```" s = false → startswith "```json" s = false.
Proof.
  unfold startswith. destruct s as [|c1 [|c2 [|c3 s]]]; cbn [String.prefix]; try done.
  destruct (ascii_dec "`" c1); [|done]. destruct (ascii_dec "`" c2); [|done].
  destruct (ascii_dec "`" c3); [|done]. by destruct s.
Qed.

(** X29. The cleaning of the model's answer in [interpret_goal] unwraps
    a fenced answer: for an ASCII [body] without surrounding white
    space, a [```json] or [```] fence, separated from the body by white
    space, and the closing fence are removed and [body] is what is
    parsed; a body that neither starts nor ends with a fence is parsed
    as it is. *)
Theorem clean_response_unwraps_a_fence (body : string) (ws1 ws2 : list ascii) :
  is_ascii body = true →
  strip body = body →
  Forall (λ c, isspace c = true) ws1 → ws1 ≠ [] →
  Forall (λ c, isspace c = true) ws2 →
  reasoning.clean_response ("```json" +:+ text ws1 +:+ body +:+ text ws2 +:+ "```") = body
  ∧ reasoning.clean_response ("```" +:+ text ws1 +:+ body +:+ text ws2 +:+ "```") = body
  ∧ (startswith "```" body = false → endswith "```" body = false →
     reasoning.clean_response body = body).
Proof.
  intros _ Hbody H1 Hne H2.
  assert (∀ rest, ∃ c r, text ws1 +:+ rest = String c r ∧ isspace c = true) as Hhead.
  { intros rest. destruct H1 as [|c ws1 Hc _]; [done|]. by eexists _, _. }
  assert (∀ x, x +:+ text ws2 +:+ "```" = (x +:+ text ws2) +:+ "```") as Hassoc
    by (intros; by rewrite append_assoc).
  split_and!.
  - unfold reasoning.clean_response.
    rewrite (strip_fixed ("```json" +:+ text ws1 +:+ body +:+ text ws2 +:+ "```") "`"%char
               (chars "``json" ++ ws1 ++ chars body ++ ws2 ++ chars "``") "`"%char);
      [|rewrite !chars_append, !chars_text; cbn; by rewrite <- !app_assoc|done|done].
    rewrite startswith_append. cbv iota.
    replace (slice_from 7 ("```json" +:+ text ws1 +:+ body +:+ text ws2 +:+ "```"))
      with (text ws1 +:+ body +:+ text ws2 +:+ "```")
      by (symmetry; apply (slice_from_append "```json")).
    destruct (Hhead (body +:+ text ws2 +:+ "```")) as (c & r & Hr & Hc).
    rewrite Hr, startswith_fence_space by done. cbv iota. rewrite <- Hr.
    rewrite Hassoc, <- append_assoc, endswith_append. cbv iota.
    replace (slice_to_last 3 ((text ws1 +:+ body +:+ text ws2) +:+ "```"))
      with (text ws1 +:+ body +:+ text ws2)
      by (symmetry; apply (slice_to_last_append "```")).
    by rewrite strip_padding.
  - unfold reasoning.clean_response.
    rewrite (strip_fixed ("```" +:+ text ws1 +:+ body +:+ text ws2 +:+ "```") "`"%char
               (chars "``" ++ ws1 ++ chars body ++ ws2 ++ chars "``") "`"%char);
      [|rewrite !chars_append, !chars_text; cbn; by rewrite <- !app_assoc|done|done].
    destruct (Hhead (body +:+ text ws2 +:+ "```")) as (c & r & Hr & Hc).
    rewrite Hr, startswith_json_fence_space by done. cbv iota. rewrite <- Hr.
    rewrite startswith_append. cbv iota.
    replace (slice_from 3 ("```" +:+ text ws1 +:+ body +:+ text ws2 +:+ "```"))
      with (text ws1 +:+ body +:+ text ws2 +:+ "```")
      by (symmetry; apply (slice_from_append "```")).
    rewrite Hassoc, <- append_assoc, endswith_append. cbv iota.
    replace (slice_to_last 3 ((text ws1 +:+ body +:+ text ws2) +:+ "```"))
      with (text ws1 +:+ body +:+ text ws2)
      by (symmetry; apply (slice_to_last_append "```")).
    by rewrite strip_padding.
  - intros Hstart Hend. unfold reasoning.clean_response.
    rewrite Hbody, (startswith_json_fence _ Hstart), Hstart, Hend. exact Hbody.
Qed.

Lemma clean_response_unwraps_a_fence_witness :
  reasoning.clean_response
    ("```json" +:+ text [newline] +:+ "{}" +:+ text [newline] +:+ "```") = "{}".
Proof.
  refine (proj1 (clean_response_unwraps_a_fence "{}" [newline] [newline] _ _ _ _ _)).
  - reflexivity.
  - reflexivity.
  - by repeat constructor.
  - discriminate.
  - by repeat constructor.
Defined.
